(** * WastingTimeBlocker: the recurring-task scheduler and its blocking state

    A shallow embedding of [BlockingApps/task.py], of the parser of
    [BlockingApps/taskParser.py] (unfolding of the lines, containers, event
    records, tasks), of the [Blocker] facade of [BlockingApps/blocker.py]
    with what its two backends write in the hosts file, and of the polling
    loop of [main.py], followed by the properties of the specification that
    were checked against it and by further properties of the code.

    Conventions of the embedding:
    - a Python [str] is a [string], a character being a code point below
      256 (white space and case folding are those Python gives these code
      points);
    - a Python [int] is a [Z]; [-1] is what [str.find] answers when the
      needle is absent, and slices take negative indices as Python does;
    - a [datetime] is the number of seconds on the wall clock of [TZ_INFO]
      (the module [BlockingApps/utils.py] that declares it is not part of the
      sources; it is taken as a zone of fixed offset), so that
      [astimezone(TZ_INFO)] keeps the number and [timedelta(days=k)] adds
      [k * 86400];
    - a [Task] object carries the identity Python gives it ([oid]): the class
      defines neither [__eq__] nor [__hash__];
    - [bs4], [dateutil] and [ics] are libraries outside the repository:
      they are taken as the interfaces [ExternalLibs] and [IcsLibs]. *)

From Stdlib Require Import ZArith List Bool Ascii String Lia Sorted.
Import ListNotations.

Open Scope string_scope.
Open Scope list_scope.
Open Scope Z_scope.

(** ** Python exceptions *)

(** The exception classes the program meets. [KeyboardInterrupt] and
    [SystemExit] derive from [BaseException] only; the others derive from
    [Exception]. *)
Inductive exn : Type :=
| ValueError
| TypeError
| AttributeError
| ConnectionError
| FileNotFoundError
| OSError
| SystemError
| KeyboardInterrupt
| SystemExit.

(** [isinstance(e, Exception)]: what a clause [except Exception] catches. *)
Definition is_Exception (e : exn) : bool :=
  match e with
  | KeyboardInterrupt | SystemExit => false
  | _ => true
  end.

(** ** The methods of [str] the program uses *)

Module PyStr.

Definition len (s : string) : Z := Z.of_nat (String.length s).

(** How Python brings a slice bound or a search start into [0 .. len]. *)
Definition clamp (n x : Z) : Z :=
  if x <? 0 then Z.max 0 (x + n) else Z.min x n.

(** [s.find(sub, start)] for a non-empty [sub]. *)
Definition find (s sub : string) (start : Z) : Z :=
  match String.index (Z.to_nat (clamp (len s) start)) sub s with
  | Some i => Z.of_nat i
  | None => -1
  end.

(** [s[a:b]]. *)
Definition slice (s : string) (a b : Z) : string :=
  let n := len s in
  let a' := clamp n a in
  let b' := clamp n b in
  if a' <? b' then String.substring (Z.to_nat a') (Z.to_nat (b' - a')) s
  else "".

(** [s.replace(old, new)] for a non-empty [old]: the occurrences of [old]
    are replaced from left to right, without overlap. [skip] counts the
    characters of a match that are still to be passed over. *)
Fixpoint replace_from (old new : string) (skip : nat) (s : string) : string :=
  match s with
  | EmptyString => EmptyString
  | String c s' =>
      match skip with
      | S k => replace_from old new k s'
      | O =>
          if String.prefix old s
          then (new ++ replace_from old new (String.length old - 1) s')%string
          else String c (replace_from old new 0 s')
      end
  end.

Definition replace (old new s : string) : string := replace_from old new 0 s.

(** [c.isspace()]: tab, line feed, vertical tab, form feed, carriage
    return, the four separators 28..31, the space, the next-line character
    133 and the no-break space 160. *)
Definition is_space (c : ascii) : bool :=
  let n := nat_of_ascii c in
  ((9 <=? n) && (n <=? 13) || (28 <=? n) && (n <=? 32)
   || (n =? 133) || (n =? 160))%nat.

Fixpoint lstrip (s : string) : string :=
  match s with
  | EmptyString => EmptyString
  | String c s' => if is_space c then lstrip s' else s
  end.

Fixpoint rstrip (s : string) : string :=
  match s with
  | EmptyString => EmptyString
  | String c s' =>
      match rstrip s' with
      | EmptyString => if is_space c then EmptyString else String c EmptyString
      | r => String c r
      end
  end.

(** [s.strip()]. *)
Definition strip (s : string) : string := rstrip (lstrip s).

Definition lower_char (c : ascii) : ascii :=
  let n := nat_of_ascii c in
  if ((65 <=? n) && (n <=? 90)
      || (192 <=? n) && (n <=? 222) && negb (n =? 215))%nat
  then ascii_of_nat (n + 32) else c.

(** [s.lower()]. *)
Fixpoint lower (s : string) : string :=
  match s with
  | EmptyString => EmptyString
  | String c s' => String (lower_char c) (lower s')
  end.

(** [s.split(sep)] for a separator of one character. *)
Fixpoint split (sep : ascii) (s : string) : list string :=
  match s with
  | EmptyString => [EmptyString]
  | String c s' =>
      if Ascii.eqb c sep then EmptyString :: split sep s'
      else match split sep s' with
           | h :: t => String c h :: t
           | [] => [String c EmptyString]
           end
  end.

End PyStr.

(** ** The libraries outside the repository *)

(** [get_text s] is [BeautifulSoup(s, "html.parser").get_text()];
    [rrulestr r dtstart] is [dateutil.rrule.rrulestr(r, dtstart=dtstart)]:
    it raises on a string that is not a recurrence rule, and otherwise
    gives the rule, seen as the instants the rule generates, in the order
    its iterator yields them (the iterator stops at the last year a
    [datetime] can hold, so they are finitely many). *)
Class ExternalLibs : Type := {
  get_text : string -> exn + string;
  rrulestr : string -> Z -> exn + list Z
}.

(** ** [BlockingApps/task.py] *)

Record Blocked_Info : Type := {
  block_apps : list string;
  block_websites : list string
}.

Definition no_blocking : Blocked_Info :=
  {| block_apps := []; block_websites := [] |}.

Definition CR : string := String (ascii_of_nat 13) EmptyString.

Section TaskPy.
Context {libs : ExternalLibs}.

(** [Task._clean_description]. The Python literal ["\\n"] is the two
    characters backslash and n, ["\\"] is one backslash. *)
Definition _clean_description (text : string) : exn + string :=
  match get_text text with
  | inl e => inl e
  | inr t =>
      inr (PyStr.replace "\" " "
             (PyStr.replace "\n" " "
                (PyStr.replace CR ""
                   (PyStr.replace "<br>" "\n" t))))
  end.

(** The items of one key: [[string.strip().lower() for string in
    value.split(",")]]. *)
Definition items_of (value : string) : list string :=
  map (fun s => PyStr.lower (PyStr.strip s)) (PyStr.split "," value).

(** The text between the two markers, lines 54 to 58. *)
Definition important_part (desc : string) : string :=
  let begin_index := PyStr.find desc "##blocking" 0 in
  let end_index := PyStr.find desc "##blocking" (begin_index + 1) in
  PyStr.strip
    (PyStr.replace "##blocking" "" (PyStr.slice desc begin_index end_index)).

(** Lines 63 to 72. *)
Definition desc_block_apps (desc_important_part : string) : string :=
  PyStr.strip
    (PyStr.replace ";" ""
       (PyStr.replace "block_apps:" ""
          (PyStr.slice desc_important_part
             (PyStr.find desc_important_part "block_apps:" 0)
             (PyStr.find desc_important_part ";" 0)))).

(** Lines 78 to 86. *)
Definition desc_block_websites (desc_important_part : string) : string :=
  let first_index := PyStr.find desc_important_part "block_websites:" 0 in
  PyStr.strip
    (PyStr.replace ";" ""
       (PyStr.replace "block_websites:" ""
          (PyStr.slice desc_important_part
             first_index
             (PyStr.find desc_important_part ";" first_index)))).

(** The body of the [try] of [Task.extract_blocking_info]. *)
Definition extract_try (desc : string) : exn + Blocked_Info :=
  match _clean_description desc with
  | inl e => inl e
  | inr cleaned =>
      let desc := PyStr.lower cleaned in
      let desc_important_part := important_part desc in
      if String.eqb desc_important_part "" then inl ValueError
      else
        inr {| block_apps := items_of (desc_block_apps desc_important_part);
               block_websites :=
                 items_of (desc_block_websites desc_important_part) |}
  end.

(** [Task.extract_blocking_info]: the bare [except:] turns every
    exception into the directive that blocks nothing. *)
Definition extract_blocking_info (desc : string) : Blocked_Info :=
  match extract_try desc with
  | inr info => info
  | inl _ => no_blocking
  end.

End TaskPy.

(** [Task.__init__] stores its arguments ([astimezone] keeps the instant)
    and extracts the directive once; [oid] is the identity of the object. *)
Record Task : Type := {
  oid : nat;
  title : string;
  start_time : Z;
  end_time : Z;
  repetition : option string;
  description : string;
  blocking_info : Blocked_Info
}.

(** [l != []] on a Python list. *)
Definition list_ne_nil {A : Type} (l : list A) : bool :=
  match l with
  | [] => false
  | _ :: _ => true
  end.

(** [Task.does_block_anything]. *)
Definition does_block_anything (self : Task) : bool :=
  if list_ne_nil (block_apps (blocking_info self))
     && list_ne_nil (block_websites (blocking_info self))
  then true
  else false.

(** The test of [Task.is_active] once the clock has been read. *)
Definition active_at (self : Task) (now : Z) : bool :=
  (start_time self <=? now) && (now <=? end_time self).

(** [a == b] and [a != b] on two [Task] objects: the class inherits the
    comparison of [object], which is identity. *)
Definition task_eq (a b : Task) : bool := Nat.eqb (oid a) (oid b).

Definition task_ne (a : Task) (b : option Task) : bool :=
  match b with
  | Some b' => negb (task_eq a b')
  | None => true
  end.

Section TaskInit.
Context {libs : ExternalLibs}.

Definition Task_init (id : nat) (title : string) (start_time end_time : Z)
    (description : string) (repetition : option string) : Task :=
  {| oid := id;
     title := title;
     start_time := start_time;
     end_time := end_time;
     repetition := repetition;
     description := description;
     blocking_info := extract_blocking_info description |}.

End TaskInit.

(** ** [BlockingApps/taskParser.py]: from event records to tasks *)

Record Task_Args : Type := {
  args_title : string;
  args_start_time : Z;
  args_end_time : Z;
  args_description : string;
  args_repetition : option string
}.

Definition seconds_per_day : Z := 86400.

(** [d.date()] as a day number, and [d.weekday()] (Monday is 0, Sunday is
    6; day 0 is Thursday 1970-01-01). *)
Definition date (d : Z) : Z := d / seconds_per_day.
Definition weekday (d : Z) : Z := (date d + 3) mod 7.

(** [_get_this_weeks_sunday]: [now] is [datetime.now(TZ_INFO)], [today] is
    [datetime.today()], the wall clock of the machine. *)
Definition _get_this_weeks_sunday (now today : Z) : Z :=
  now + seconds_per_day * ((6 - weekday today) mod 7 + 7).

(** [rule.between(after, before, inc=True)] of [dateutil]: the iterator is
    read until an instant exceeds [before]; instants are kept from the
    first one that is not before [after]. *)
Fixpoint between_from (started : bool) (gen : list Z) (after before : Z)
    : list Z :=
  match gen with
  | [] => []
  | i :: gen' =>
      if before <? i then []
      else if negb started then
        if after <=? i then i :: between_from true gen' after before
        else between_from false gen' after before
      else i :: between_from true gen' after before
  end.

Definition between (rule : list Z) (after before : Z) : list Z :=
  between_from false rule after before.

Section ParserPy.
Context {libs : ExternalLibs}.

(** The list comprehension of lines 353 to 363; [id] is the identity of
    the next object. *)
Fixpoint occurrence_tasks (id : nat) (task_args : Task_Args)
    (occurrences : list Z) : list Task :=
  match occurrences with
  | [] => []
  | occ :: rest =>
      Task_init id (args_title task_args) occ
        (occ + (args_end_time task_args - args_start_time task_args))
        (args_description task_args) (args_repetition task_args)
      :: occurrence_tasks (S id) task_args rest
  end.

(** The second loop of [Parser.get_tasks], lines 336 to 366. [clock k] is
    what the [k]-th call of [_get_this_weeks_sunday] reads: the pair of
    [datetime.now(TZ_INFO)] and [datetime.today()]. Every [Task] built so
    far is in [task_list], so the next identity is its length. An
    exception of [rrulestr] is not caught. *)
Fixpoint get_tasks_loop (clock : nat -> Z * Z) (k : nat)
    (task_list : list Task) (task_args_list : list Task_Args)
    : exn + list Task :=
  match task_args_list with
  | [] => inr task_list
  | task_args :: rest =>
      match args_repetition task_args with
      | None =>
          get_tasks_loop clock k
            (task_list ++
               [Task_init (List.length task_list) (args_title task_args)
                  (args_start_time task_args) (args_end_time task_args)
                  (args_description task_args) None])
            rest
      | Some rep =>
          let start_time := args_start_time task_args in
          match rrulestr rep start_time with
          | inl e => inl e
          | inr rule =>
              let horizon :=
                _get_this_weeks_sunday (fst (clock k)) (snd (clock k)) in
              let occurrences := between rule start_time horizon in
              get_tasks_loop clock (S k)
                (task_list ++
                   occurrence_tasks (List.length task_list) task_args
                     occurrences)
                rest
          end
      end
  end.

(** [Parser.get_tasks] from the event records on; fetching the feed and
    reading the records out of it (lines 321 to 333) is done by the
    calendar library. *)
Definition get_tasks (clock : nat -> Z * Z)
    (task_args_list : list Task_Args) : exn + list Task :=
  get_tasks_loop clock 0 [] task_args_list.

End ParserPy.

(** [Parser.filter_task_by_today]; [now] is [datetime.now(TZ_INFO)]. *)
Definition filter_task_by_today (now : Z) (tasks : list Task) : list Task :=
  let today := date now in
  filter (fun task =>
            (date (start_time task) =? today)
            || (date (end_time task) =? today))
         tasks.

(** ** [main.py]: the polling loop *)

(** A call of the program to the enforcement backend. *)
Inductive Event : Type :=
| BlockApps (apps_to_block : list string)
| BlockWebsites (websites_to_block : list string)
| UnblockWebsites (websites_to_unblock : list string).

(** What the outside does during a run. [RUNNING k] is the value of the
    global flag when the test of the [while] is made for the [k]-th time
    (the thread of [_check_input_in_background] clears it); [now k p] is the
    clock read by the [p]-th operation of the [k]-th pass; [fault k p] is the
    exception that operation meets, if any. *)
Record Env : Type := {
  RUNNING : nat -> bool;
  now : nat -> nat -> Z;
  fault : nat -> nat -> option exn
}.

(** The state of a run: the calls made to the backend so far, the number of
    passes of the loop completed, the number of operations made in the
    current pass. *)
Record World : Type := {
  trace : list Event;
  tick : nat;
  pc : nat
}.

Definition init_world : World := {| trace := []; tick := 0; pc := 0 |}.

(** How a piece of the program ends: with a value, with an exception, or
    not within the passes allowed (the loop has no bound of its own). *)
Inductive Res (A : Type) : Type :=
| Ok (a : A)
| Raise (e : exn)
| OutOfFuel.

Arguments Ok {A} a.
Arguments Raise {A} e.
Arguments OutOfFuel {A}.

Definition M (A : Type) : Type := World -> Res A * World.

Definition ret {A : Type} (a : A) : M A := fun w => (Ok a, w).

Definition bind {A B : Type} (c : M A) (f : A -> M B) : M B :=
  fun w =>
    match c w with
    | (Ok a, w') => f a w'
    | (Raise e, w') => (Raise e, w')
    | (OutOfFuel, w') => (OutOfFuel, w')
    end.

(** [try: c / except Exception: h]. *)
Definition try_except_Exception {A : Type} (c : M A) (h : M A) : M A :=
  fun w =>
    match c w with
    | (Raise e, w') => if is_Exception e then h w' else (Raise e, w')
    | r => r
    end.

Declare Scope py_scope.
Delimit Scope py_scope with py.
Notation "x <- c ;; k" := (bind c (fun x => k))
  (at level 61, c at next level, right associativity) : py_scope.
Notation "c ;; k" := (bind c (fun _ => k))
  (at level 61, right associativity) : py_scope.

Definition next_op (w : World) : World :=
  {| trace := trace w; tick := tick w; pc := S (pc w) |}.

Definition log (ev : Event) (w : World) : World :=
  {| trace := trace w ++ [ev]; tick := tick w; pc := pc w |}.

Definition next_tick (w : World) : World :=
  {| trace := trace w; tick := S (tick w); pc := 0 |}.

Section MainPy.
Variable env : Env.

Local Open Scope py_scope.

(** An operation that touches the outside: it counts as one operation of
    the pass and raises what the outside makes it raise. *)
Definition operation : M unit :=
  fun w =>
    match fault env (tick w) (pc w) with
    | Some e => (Raise e, next_op w)
    | None => (Ok tt, next_op w)
    end.

(** [print(...)] and [time.sleep(CHECK_EVERY)]. *)
Definition py_print : M unit := operation.
Definition time_sleep : M unit := operation.

(** [datetime.now().astimezone(TZ_INFO)]. *)
Definition datetime_now : M Z :=
  fun w =>
    match fault env (tick w) (pc w) with
    | Some e => (Raise e, next_op w)
    | None => (Ok (now env (tick w) (pc w)), next_op w)
    end.

(** [Task.is_active]. *)
Definition is_active (self : Task) : M bool :=
  now <- datetime_now ;; ret (active_at self now).

(** [Blocker.block_apps], through [IBlocker.block_apps] of either system:
    a [FileNotFoundError] becomes a [SystemError], any other [Exception]
    is passed over ([continue]), anything else goes up. *)
Definition Blocker_block_apps (apps_to_block : list string) : M unit :=
  fun w =>
    let w' := next_op (log (BlockApps apps_to_block) w) in
    match fault env (tick w) (pc w) with
    | Some FileNotFoundError => (Raise SystemError, w')
    | Some e => if is_Exception e then (Ok tt, w') else (Raise e, w')
    | None => (Ok tt, w')
    end.

(** [Blocker.block_websites]: the body is under [except Exception], which
    prints and returns. *)
Definition Blocker_block_websites (websites_to_block : list string)
    : M unit :=
  fun w =>
    let w' := next_op (log (BlockWebsites websites_to_block) w) in
    match fault env (tick w) (pc w) with
    | Some e => if is_Exception e then (Ok tt, w') else (Raise e, w')
    | None => (Ok tt, w')
    end.

(** [Blocker.unblock_websites]: likewise. *)
Definition Blocker_unblock_websites (websites_to_unblock : list string)
    : M unit :=
  fun w =>
    let w' := next_op (log (UnblockWebsites websites_to_unblock) w) in
    match fault env (tick w) (pc w) with
    | Some e => if is_Exception e then (Ok tt, w') else (Raise e, w')
    | None => (Ok tt, w')
    end.

(** [get_active_task]. *)
Fixpoint get_active_task (tasks : list Task) : M (option Task) :=
  match tasks with
  | [] => ret None
  | task :: rest =>
      active <- is_active task ;;
      if active && does_block_anything task then ret (Some task)
      else get_active_task rest
  end.

(** [unblock_all_tasks]. *)
Fixpoint unblock_all_tasks (tasks : list Task) : M unit :=
  match tasks with
  | [] => ret tt
  | task :: rest =>
      Blocker_unblock_websites (block_websites (blocking_info task)) ;;
      unblock_all_tasks rest
  end.

(** The two [elif] branches of the body of the loop, lines 99 to 105. *)
Definition elif_branches (current_task : option Task) : M (option Task) :=
  match current_task with
  | Some current =>
      active <- is_active current ;;
      if negb active then
        py_print ;;
        Blocker_unblock_websites (block_websites (blocking_info current)) ;;
        ret None
      else
        Blocker_block_apps (block_apps (blocking_info current)) ;;
        ret (Some current)
  | None => ret None
  end.

(** One pass of the body of the [while], lines 89 to 107; the result is
    the new [current_task]. A [Task] object and its [blocking_info]
    dictionary (two keys) are true in a condition. *)
Definition loop_body (tasks : list Task) (current_task : option Task)
    : M (option Task) :=
  py_print ;;
  active_task <- get_active_task tasks ;;
  current_task' <-
    match active_task with
    | Some active =>
        if task_ne active current_task then
          py_print ;;
          Blocker_block_apps (block_apps (blocking_info active)) ;;
          Blocker_block_websites (block_websites (blocking_info active)) ;;
          ret (Some active)
        else elif_branches current_task
    | None => elif_branches current_task
    end ;;
  time_sleep ;;
  ret current_task'.

(** [while RUNNING: ...], lines 88 to 107, for at most [fuel] passes. *)
Fixpoint while_RUNNING (fuel : nat) (tasks : list Task)
    (current_task : option Task) : M unit :=
  fun w =>
    if RUNNING env (tick w) then
      match fuel with
      | O => (OutOfFuel, w)
      | S fuel' =>
          match loop_body tasks current_task w with
          | (Ok current_task', w') =>
              while_RUNNING fuel' tasks current_task' (next_tick w')
          | (Raise e, w') => (Raise e, w')
          | (OutOfFuel, w') => (OutOfFuel, w')
          end
      end
    else (Ok tt, w).

(** [main] from line 86 on, given the tasks of line 83. *)
Definition main (fuel : nat) (tasks : list Task) : M unit :=
  try_except_Exception
    (while_RUNNING fuel tasks None ;; unblock_all_tasks tasks)
    (unblock_all_tasks tasks).

End MainPy.

(** ** Inputs on which the code is run below *)

(** [BeautifulSoup.get_text] gives back a text that holds neither a tag nor
    an entity; [dateutil] reads [FREQ=WEEKLY] as one instant every seven
    days from [dtstart] on (the first five are enough here) and rejects the
    other strings used below. *)
Definition plain_text_libs : ExternalLibs :=
  {| get_text := fun s => inr s;
     rrulestr := fun rule dtstart =>
       if String.eqb rule "FREQ=WEEKLY"
       then inr (map (fun k => dtstart + 604800 * k) [0; 1; 2; 3; 4])
       else inl ValueError |}.

(** An occurrence that names websites and no application, open from 0 to
    100. *)
Definition websites_only : Task :=
  {| oid := 0; title := "Focus"; start_time := 0; end_time := 100;
     repetition := None; description := "";
     blocking_info := {| block_apps := []; block_websites := ["x.com"] |} |}.

(** A world where nothing fails, the clock shows 50 and the flag is cleared
    after [n] passes. *)
Definition calm_env (n : nat) : Env :=
  {| RUNNING := fun k => Nat.ltb k n;
     now := fun _ _ => 50;
     fault := fun _ _ => None |}.

(** The same event twice in the feed: same title, same start, no rule. *)
Definition focus_args : Task_Args :=
  {| args_title := "Focus"; args_start_time := 100; args_end_time := 200;
     args_description := ""; args_repetition := None |}.

(** The two [Task] objects built from it. *)
Definition focus_first : Task :=
  Task_init (libs := plain_text_libs) 0 "Focus" 100 200 "" None.
Definition focus_second : Task :=
  Task_init (libs := plain_text_libs) 1 "Focus" 100 200 "" None.

(** What the specification calls the end of the current calendar week: an
    instant of the last minute of the next Sunday, today when today is a
    Sunday. Written after the specification, to be compared with
    [_get_this_weeks_sunday]. *)
Definition spec_end_of_current_week (now horizon : Z) : Prop :=
  date horizon = date now + (6 - weekday now) mod 7
  /\ 86340 <= horizon mod seconds_per_day.

(** Monday 2024-06-03, 10:00:00. *)
Definition monday_10h : Z := 1717408800.


(** A template whose rule [rrulestr] rejects with the exception [e]. *)
Definition malformed_rule {libs : ExternalLibs} (a : Task_Args) (e : exn)
    : Prop :=
  exists rep, args_repetition a = Some rep
              /\ rrulestr rep (args_start_time a) = inl e.



(** An event whose rule is not one. *)
Definition broken_args : Task_Args :=
  {| args_title := "Broken"; args_start_time := 100; args_end_time := 200;
     args_description := ""; args_repetition := Some "FREQ=" |}.

(** The calls [unblock_all_tasks] makes: one for each task, in the order
    of the registry. *)
Definition cleanup_events (tasks : list Task) : list Event :=
  map (fun task => UnblockWebsites (block_websites (blocking_info task))) tasks.

(** The calls a pass of the loop may make when it starts with
    [current_task]: it unblocks no websites but those of [current_task]. *)
Definition pass_allowed (current_task : option Task) (ev : Event) : Prop :=
  match ev with
  | UnblockWebsites l =>
      exists c, current_task = Some c /\ l = block_websites (blocking_info c)
  | _ => True
  end.

(** Two events whose windows overlap; the shorter one comes first in the
    feed. *)
Definition long_task : Task :=
  Task_init (libs := plain_text_libs) 1 "Long" 0 100
    "##blocking block_apps: a; block_websites: a.com; ##blocking" None.

Definition short_task : Task :=
  Task_init (libs := plain_text_libs) 0 "Short" 10 20
    "##blocking block_apps: b; block_websites: b.com; ##blocking" None.


Definition overlap_registry : list Task := [short_task; long_task].

(** Four passes, at the instants 5, 15, 25 and 105, then the flag is
    cleared; nothing fails. *)
Definition overlap_env : Env :=
  {| RUNNING := fun k => Nat.ltb k 4;
     now := fun k _ => nth k [5; 15; 25; 105] 0;
     fault := fun _ _ => None |}.

(** The clock shows 5, the flag stays set, and the user interrupts the
    program (Ctrl-C) during the sleep of the first pass, its sixth
    operation. *)
Definition interrupt_env : Env :=
  {| RUNNING := fun _ => true;
     now := fun _ _ => 5;
     fault := fun k p =>
       if (Nat.eqb k 0 && Nat.eqb p 5)%bool then Some KeyboardInterrupt
       else None |}.

(** The clock shows 5, the flag stays set, and the command that kills the
    applications is missing at the second pass over [overlap_registry] (the
    call of [block_apps] is its fifth operation). *)
Definition missing_command_env : Env :=
  {| RUNNING := fun _ => true;
     now := fun _ _ => 5;
     fault := fun k p =>
       if (Nat.eqb k 1 && Nat.eqb p 4)%bool then Some FileNotFoundError
       else None |}.

(** The state of the run of [overlap_env] over [overlap_registry] after
    its first pass, which blocked for the long event. *)
Definition after_first_pass : World :=
  {| trace := [BlockApps ["a"]; BlockWebsites ["a.com"]];
     tick := 1; pc := 0 |}.

(** A value that is empty or made of white space only. *)
Fixpoint blank (s : string) : bool :=
  match s with
  | EmptyString => true
  | String c s' => PyStr.is_space c && blank s'
  end.

(** Descriptions with one marker only, with the two keys in either order,
    and with a key that has no value. *)
Definition one_marker_desc : string :=
  "##blocking block_apps: a; block_websites: b;".
Definition apps_first_desc : string :=
  "##blocking block_apps: a; block_websites: b.com; ##blocking".
Definition websites_first_desc : string :=
  "##blocking block_websites: b.com; block_apps: a; ##blocking".
Definition empty_value_desc : string :=
  "##blocking block_apps: ; block_websites: x.com; ##blocking".

(** The session of the specification: one event from 09:00 to 11:00 on
    2024-06-03, looked at at 10:00 and at 11:01. *)
Definition focus_session : Task :=
  Task_init (libs := plain_text_libs) 0 "Focus" 1717405200 1717412400
    "##blocking block_apps: slack, discord; block_websites: youtube.com, reddit.com; ##blocking"
    None.

Definition focus_session_env : Env :=
  {| RUNNING := fun k => Nat.ltb k 2;
     now := fun k _ => nth k [1717408800; 1717412460] 0;
     fault := fun _ _ => None |}.

(** ** Vocabulary of the proofs on the loop *)

(** A piece of the program that stays within the current pass, comes to an
    end, and makes only calls among [allowed]. *)
Definition quiet {A : Type} (allowed : Event -> Prop) (c : M A) : Prop :=
  forall w,
    tick (snd (c w)) = tick w
    /\ fst (c w) <> OutOfFuel
    /\ exists evs, trace (snd (c w)) = trace w ++ evs /\ Forall allowed evs.

(** A piece of the program that raises instances of [Exception] only. *)
Definition raises_Exception {A : Type} (c : M A) : Prop :=
  forall w e, fst (c w) = Raise e -> is_Exception e = true.

(** Settles [quiet] for one call to the backend, whatever the outside makes
    of it. *)
Ltac quiet_call :=
  let w := fresh "w" in
  intros w; cbv beta delta [Blocker_block_apps Blocker_block_websites
                              Blocker_unblock_websites];
  cbv zeta;
  repeat match goal with
         | |- context [match ?x with _ => _ end] => destruct x; simpl
         end;
  (split; [reflexivity|]; split; [discriminate|];
   eexists; split; [reflexivity | constructor; [assumption | constructor]]).


(** ** Vocabulary of the further properties of the loop *)

(** A pass in which no operation fails and every reading of the clock
    gives [c]. *)
Definition calm_pass (env : Env) (k : nat) (c : Z) : Prop :=
  forall p, fault env k p = None /\ now env k p = c.

(** The first task of the registry that is active at [c] and blocks. *)
Definition found_at (c : Z) (tasks : list Task) : option Task :=
  List.find (fun task => active_at task c && does_block_anything task) tasks.

(** The tracked task is a task of the registry that blocks. *)
Definition tracked_ok (tasks : list Task) (current_task : option Task)
    : Prop :=
  match current_task with
  | Some t => In t tasks /\ does_block_anything t = true
  | None => True
  end.

(** A call that names the lists of a task of the registry; a call that
    blocks names those of a task that blocks. *)
Definition registry_event (tasks : list Task) (ev : Event) : Prop :=
  match ev with
  | BlockApps l =>
      exists t, In t tasks /\ does_block_anything t = true
                /\ l = block_apps (blocking_info t)
  | BlockWebsites l =>
      exists t, In t tasks /\ does_block_anything t = true
                /\ l = block_websites (blocking_info t)
  | UnblockWebsites l =>
      exists t, In t tasks /\ l = block_websites (blocking_info t)
  end.

(** A piece of the program that makes only calls among [allowed]. *)
Definition emits {A : Type} (allowed : Event -> Prop) (c : M A) : Prop :=
  forall w,
    exists evs, trace (snd (c w)) = trace w ++ evs /\ Forall allowed evs.

(** A piece of the program whose value, when it returns one, satisfies
    [P]. *)
Definition returns {A : Type} (P : A -> Prop) (c : M A) : Prop :=
  forall w a, fst (c w) = Ok a -> P a.

(** ** Tests on strings *)

(** [sub in s]. *)
Definition str_in (sub s : string) : bool :=
  match String.index 0 sub s with
  | Some _ => true
  | None => false
  end.

(** The character [c] occurs in [s]. *)
Fixpoint has_char (c : ascii) (s : string) : bool :=
  match s with
  | EmptyString => false
  | String a s' => Ascii.eqb a c || has_char c s'
  end.

(** ** Vocabulary of the further properties of the parser *)

(** A template with no rule, or with a rule [rrulestr] accepts. *)
Definition rule_accepted {libs : ExternalLibs} (a : Task_Args) : Prop :=
  match args_repetition a with
  | None => True
  | Some rep => exists rule, rrulestr rep (args_start_time a) = inr rule
  end.

(** The task [t] has the title, the description, the rule, the duration and
    the directive of the template [a]. *)
Definition from_template {libs : ExternalLibs} (a : Task_Args) (t : Task)
    : Prop :=
  title t = args_title a
  /\ description t = args_description a
  /\ repetition t = args_repetition a
  /\ end_time t - start_time t = args_end_time a - args_start_time a
  /\ blocking_info t = extract_blocking_info (args_description a).



(** A task that starts on day 0 and ends on day 2. *)
Definition three_day_task : Task :=
  Task_init (libs := plain_text_libs) 0 "Retreat" 100 200000
    "##blocking block_apps: a; block_websites: a.com; ##blocking" None.

(** ** [BlockingApps/blocker.py]: the hosts file *)

(** The text of the hosts file is the text Python reads and writes in text
    mode: its lines end with a line feed. A call that cannot open the file
    raises inside its [try], the [except Exception] clause prints, and the
    file is as it was; the functions below give the text after a call that
    opens it. The commands that flush the name cache touch no text. *)
Module Hosts.

Definition LF : string := String (ascii_of_nat 10) EmptyString.

Definition redirect_ip : string := "127.0.0.1".

(** What one [hosts_file.write] adds: [f"\n{self.redirect_ip} {site}"]. *)
Definition entry (site : string) : string :=
  (LF ++ redirect_ip ++ " " ++ site)%string.

(** The text of an entry after its line feed. *)
Definition entry_line (site : string) : string :=
  (redirect_ip ++ " " ++ site)%string.

(** [file.readlines()]: the lines, each with the line feed that ends it;
    the last one may have none. *)
Fixpoint readlines (text : string) : list string :=
  match text with
  | EmptyString => []
  | String c rest =>
      if Ascii.eqb c (ascii_of_nat 10) then LF :: readlines rest
      else match readlines rest with
           | [] => [String c EmptyString]
           | line :: lines => String c line :: lines
           end
  end.

(** [any(site in line for site in websites_to_unblock)]. *)
Definition names_a_site (sites : list string) (line : string) : bool :=
  existsb (fun site => str_in site line) sites.

(** [Windows_Blocker.block_websites]: the file is opened to append. *)
Definition Windows_block_websites (content : string)
    (websites_to_block : list string) : string :=
  fold_left (fun file site => (file ++ entry site)%string)
            websites_to_block content.

(** [MAC_Blocker.block_websites]: the file is read, then a site is written
    at its end unless the text that was read holds it. *)
Definition MAC_block_websites (content : string)
    (websites_to_block : list string) : string :=
  fold_left (fun file site =>
               if str_in site content then file
               else (file ++ entry site)%string)
            websites_to_block content.

(** [unblock_website], the same in both classes: the file is read, emptied,
    and the lines that hold none of the sites are written back. *)
Definition unblock_website (content : string)
    (websites_to_unblock : list string) : string :=
  fold_left (fun file line =>
               if negb (names_a_site websites_to_unblock line)
               then (file ++ line)%string
               else file)
            (readlines content) EmptyString.

(** The classes of [SYSTEM_MAPPING]. *)
Inductive IBlocker : Type :=
| Windows_Blocker
| MAC_Blocker.

Definition block_websites_of (blocker : IBlocker) (content : string)
    (sites : list string) : string :=
  match blocker with
  | Windows_Blocker => Windows_block_websites content sites
  | MAC_Blocker => MAC_block_websites content sites
  end.

(** What a call of the facade [Blocker] does to the text of the file: the
    calls that block applications leave it alone. *)
Definition apply_event (blocker : IBlocker) (content : string) (ev : Event)
    : string :=
  match ev with
  | BlockApps _ => content
  | BlockWebsites sites => block_websites_of blocker content sites
  | UnblockWebsites sites => unblock_website content sites
  end.

(** The text of the file after the calls of a run, in their order. *)
Definition replay (blocker : IBlocker) (events : list Event)
    (content : string) : string :=
  fold_left (apply_event blocker) events content.

(** The lines put end to end. *)
Definition join (lines : list string) : string :=
  fold_right String.append EmptyString lines.

(** The lists [readlines] can give: lines without a line feed inside, each
    ended by one, but for the last, which may have none and is then not
    empty. *)
Inductive well_cut : list string -> Prop :=
| cut_nil : well_cut []
| cut_last (line : string) :
    line <> EmptyString -> has_char (ascii_of_nat 10) line = false ->
    well_cut [line]
| cut_cons (body : string) (lines : list string) :
    has_char (ascii_of_nat 10) body = false -> well_cut lines ->
    well_cut ((body ++ LF)%string :: lines).

End Hosts.

(** A hosts file of two lines. *)
Definition small_hosts : string :=
  ("127.0.0.1 localhost" ++ Hosts.LF ++ "10.0.0.7 intranet" ++ Hosts.LF)%string.

(** A task whose description names applications and no websites, open from
    0 to 100. *)
Definition apps_only_task : Task :=
  Task_init (libs := plain_text_libs) 0 "Mail" 0 100
    "##blocking block_apps: mail; ##blocking" None.

(** ** [BlockingApps/taskParser.py]: content lines and containers *)

(** A [ContentLine] as its constructor leaves it: the name is in upper
    case. The lines are those the grammar of the calendar library accepted;
    [unescape_string] and [iso_to_arrow] are functions of that library. *)
Record ContentLine : Type := {
  line_name : string;
  line_params : list (string * list string);
  line_value : string
}.

(** The two functions of [ics.utils] that the parser calls.
    [iso_to_arrow line] stands for [iso_to_arrow(line).datetime], the
    instant read or the exception raised. A [ContentLine] is the object
    once built: its name is in upper case. *)
Class IcsLibs : Type := {
  unescape_string : string -> string;
  iso_to_arrow : ContentLine -> exn + Z
}.

(** What a [Container] holds: content lines and containers. [Box name
    items] is the container [name]. *)
#[warnings="-register-all"]
Inductive Item : Type :=
| Line (line : ContentLine)
| Box (name : string) (items : list Item).

(** [ParseError("Expected END:{}, got END:{}")]. *)
Inductive parse_error : Type :=
| ParseError (expected got : string).

(** [Container.parse(name, tokenized_lines)]: the items of the container
    and what is left of the iterator, which the caller goes on reading. The
    iterator is shared with the inner calls, so the recursion is on a bound
    of the number of lines read: [None] says the bound was too small. *)
Fixpoint Container_parse (fuel : nat) (name : string)
    (tokenized_lines : list ContentLine)
    : option (parse_error + (list Item * list ContentLine)) :=
  match fuel with
  | O => None
  | S fuel' =>
      match tokenized_lines with
      | [] => Some (inr ([], []))
      | line :: rest =>
          if String.eqb (line_name line) "BEGIN" then
            match Container_parse fuel' (line_value line) rest with
            | Some (inr (inner, rest')) =>
                match Container_parse fuel' name rest' with
                | Some (inr (items, rest'')) =>
                    Some (inr (Box (line_value line) inner :: items, rest''))
                | other => other
                end
            | other => other
            end
          else if String.eqb (line_name line) "END" then
            if negb (String.eqb (line_value line) name)
            then Some (inl (ParseError name (line_value line)))
            else Some (inr ([], rest))
          else
            match Container_parse fuel' name rest with
            | Some (inr (items, rest')) => Some (inr (Line line :: items, rest'))
            | other => other
            end
      end
  end.

(** [Parser._parse]. *)
Fixpoint _parse (fuel : nat) (tokenized_lines : list ContentLine)
    : option (parse_error + list Item) :=
  match fuel with
  | O => None
  | S fuel' =>
      match tokenized_lines with
      | [] => Some (inr [])
      | line :: rest =>
          if String.eqb (line_name line) "BEGIN" then
            match Container_parse fuel' (line_value line) rest with
            | Some (inr (inner, rest')) =>
                match _parse fuel' rest' with
                | Some (inr res) => Some (inr (Box (line_value line) inner :: res))
                | other => other
                end
            | Some (inl e) => Some (inl e)
            | None => None
            end
          else
            match _parse fuel' rest with
            | Some (inr res) => Some (inr (Line line :: res))
            | other => other
            end
      end
  end.

(** [_parse] with a bound that is enough: one more than the number of
    lines. *)
Definition parse_lines (tokenized_lines : list ContentLine)
    : option (parse_error + list Item) :=
  _parse (S (List.length tokenized_lines)) tokenized_lines.

(** The lines [BEGIN:name] and [END:name] that [Container.__str__] writes
    around the items. *)
Definition begin_line (name : string) : ContentLine :=
  {| line_name := "BEGIN"; line_params := []; line_value := name |}.

Definition end_line (name : string) : ContentLine :=
  {| line_name := "END"; line_params := []; line_value := name |}.

(** The lines of an item, in the order [Container.__str__] writes them. *)
Fixpoint lines_of (item : Item) : list ContentLine :=
  match item with
  | Line line => [line]
  | Box name items =>
      begin_line name :: flat_map lines_of items ++ [end_line name]
  end.

(** A line that neither opens nor closes a container. *)
Definition plain_line (line : ContentLine) : bool :=
  negb (String.eqb (line_name line) "BEGIN")
  && negb (String.eqb (line_name line) "END").

(** An item whose lines, at any depth, are plain. *)
Fixpoint plain_item (item : Item) : bool :=
  match item with
  | Line line => plain_line line
  | Box _ items => forallb plain_item items
  end.

(** The dictionary [args] of [_container_to_task_args]. *)
Record Args_dict : Type := {
  d_title : option string;
  d_start_time : option Z;
  d_end_time : option Z;
  d_repetition : option string;
  d_description : option string
}.

Definition no_args : Args_dict :=
  {| d_title := None; d_start_time := None; d_end_time := None;
     d_repetition := None; d_description := None |}.

Section ContainerPy.
Context {ics : IcsLibs}.

(** The loop of [_container_to_task_args], lines 276 to 288: an exception
    of [iso_to_arrow] is not caught. *)
Fixpoint gather_args (container : list Item) (args : Args_dict)
    : exn + Args_dict :=
  match container with
  | [] => inr args
  | Box _ _ :: rest => gather_args rest args
  | Line line :: rest =>
      if String.eqb (line_name line) "SUMMARY" then
        gather_args rest
          {| d_title := Some (unescape_string (line_value line));
             d_start_time := d_start_time args;
             d_end_time := d_end_time args;
             d_repetition := d_repetition args;
             d_description := d_description args |}
      else if String.eqb (line_name line) "DTSTART" then
        match iso_to_arrow line with
        | inl e => inl e
        | inr d =>
            gather_args rest
              {| d_title := d_title args;
                 d_start_time := Some d;
                 d_end_time := d_end_time args;
                 d_repetition := d_repetition args;
                 d_description := d_description args |}
        end
      else if String.eqb (line_name line) "DTEND" then
        match iso_to_arrow line with
        | inl e => inl e
        | inr d =>
            gather_args rest
              {| d_title := d_title args;
                 d_start_time := d_start_time args;
                 d_end_time := Some d;
                 d_repetition := d_repetition args;
                 d_description := d_description args |}
        end
      else if String.eqb (line_name line) "RRULE" then
        gather_args rest
          {| d_title := d_title args;
             d_start_time := d_start_time args;
             d_end_time := d_end_time args;
             d_repetition := Some (line_value line);
             d_description := d_description args |}
      else if String.eqb (line_name line) "DESCRIPTION" then
        gather_args rest
          {| d_title := d_title args;
             d_start_time := d_start_time args;
             d_end_time := d_end_time args;
             d_repetition := d_repetition args;
             d_description := Some (line_value line) |}
      else gather_args rest args
  end.

(** The [try] of lines 291 to 303: a missing key raises [KeyError], which
    becomes [AttributeError]. *)
Definition args_type (args : Args_dict) : exn + Task_Args :=
  match d_title args, d_start_time args, d_end_time args with
  | Some title, Some start_time, Some end_time =>
      inr {| args_title := title;
             args_start_time := start_time;
             args_end_time := end_time;
             args_description :=
               match d_description args with Some d => d | None => "" end;
             args_repetition := d_repetition args |}
  | _, _, _ => inl AttributeError
  end.

(** [Parser._container_to_task_args]. *)
Definition _container_to_task_args (container : list Item)
    : exn + Task_Args :=
  match gather_args container no_args with
  | inl e => inl e
  | inr args => args_type args
  end.

(** The first loop of [Parser.get_tasks], lines 325 to 333, over the items
    of the calendar. *)
Fixpoint task_args_of (containers : list Item) : exn + list Task_Args :=
  match containers with
  | [] => inr []
  | Line _ :: rest => task_args_of rest
  | Box name content :: rest =>
      if (List.length content <=? 1)%nat then task_args_of rest
      else if negb (String.eqb name "VEVENT") then task_args_of rest
      else
        match _container_to_task_args content with
        | inl e => inl e
        | inr task_args =>
            match task_args_of rest with
            | inl e => inl e
            | inr task_args_list => inr (task_args :: task_args_list)
            end
        end
  end.

End ContainerPy.

(** The last line named [name] among the lines of a container that are not
    inside an inner container. *)
Fixpoint last_line (name : string) (container : list Item)
    : option ContentLine :=
  match container with
  | [] => None
  | Line line :: rest =>
      match last_line name rest with
      | Some l => Some l
      | None => if String.eqb (line_name line) name then Some line else None
      end
  | Box _ _ :: rest => last_line name rest
  end.

(** The events of a calendar that the first loop of [get_tasks] counts. *)
Definition counted_event (item : Item) : bool :=
  match item with
  | Line _ => false
  | Box name content =>
      negb (List.length content <=? 1)%nat && String.eqb name "VEVENT"
  end.

(** A calendar library that reads a date as the number of its value's
    characters, and leaves the strings as they are; and a few lines. *)
Definition toy_ics : IcsLibs :=
  {| unescape_string := fun s => s;
     iso_to_arrow := fun line => inr (Z.of_nat (String.length (line_value line))) |}.

Definition content_line (name value : string) : ContentLine :=
  {| line_name := name; line_params := []; line_value := value |}.

Definition toy_event : Item :=
  Box "VEVENT"
    [Line (content_line "SUMMARY" "Focus");
     Line (content_line "DTSTART" "2024");
     Box "VALARM" [Line (content_line "DESCRIPTION" "ring")];
     Line (content_line "DTEND" "202406");
     Line (content_line "SUMMARY" "Deep focus")].

(** [Parser.get_tasks] from the items of the calendar on, lines 325 to
    366: the first loop, then the second. *)
Definition get_tasks_of_calendar {libs : ExternalLibs} {ics : IcsLibs}
    (clock : nat -> Z * Z) (containers : list Item) : exn + list Task :=
  match task_args_of containers with
  | inl e => inl e
  | inr task_args_list => get_tasks clock task_args_list
  end.

(** An event with no [DTEND] line, and a calendar that holds it between
    a line and a full event. *)
Definition open_ended_event : list Item :=
  [Line (content_line "SUMMARY" "Focus");
   Line (content_line "DTSTART" "2024")].

Definition toy_calendar : list Item :=
  [Line (content_line "VERSION" "2.0");
   Box "VTIMEZONE" [Line (content_line "TZID" "UTC");
                    Line (content_line "X-LIC-LOCATION" "UTC")];
   Box "VEVENT" [Line (content_line "SUMMARY" "Stub")];
   toy_event].


(** ** Unfolding the physical lines of a calendar *)

Module Lines.

Definition CR_char : ascii := ascii_of_nat 13.
Definition TAB : ascii := ascii_of_nat 9.

(** [s.strip(c)] for one character [c]. *)
Fixpoint lstrip_char (ch : ascii) (s : string) : string :=
  match s with
  | EmptyString => EmptyString
  | String c s' => if Ascii.eqb c ch then lstrip_char ch s' else s
  end.

Fixpoint rstrip_char (ch : ascii) (s : string) : string :=
  match s with
  | EmptyString => EmptyString
  | String c s' =>
      match rstrip_char ch s' with
      | EmptyString =>
          if Ascii.eqb c ch then EmptyString else String c EmptyString
      | r => String c r
      end
  end.

Definition strip_char (ch : ascii) (s : string) : string :=
  rstrip_char ch (lstrip_char ch s).

(** The loop of [Parser._unfold_lines] from the physical line number [nr]
    on, with [with_linenr=True] as [_lines_to_container] calls it: the
    pairs the generator yields, in order. [None] is the [IndexError] of
    [line[0]] on an empty line. *)
Fixpoint unfold_from (nr : Z) (physical_lines : list string)
    (current_nr : Z) (current_line : string) : option (list (Z * string)) :=
  match physical_lines with
  | [] =>
      if String.eqb current_line "" then Some []
      else Some [(current_nr, current_line)]
  | line :: rest =>
      if PyStr.len (PyStr.strip line) =? 0 then
        unfold_from (nr + 1) rest current_nr current_line
      else if String.eqb current_line "" then
        unfold_from (nr + 1) rest nr (strip_char CR_char line)
      else
        match line with
        | EmptyString => None
        | String first tail =>
            if Ascii.eqb first " " || Ascii.eqb first TAB then
              unfold_from (nr + 1) rest current_nr
                (current_line ++ strip_char CR_char tail)%string
            else
              match unfold_from (nr + 1) rest nr (strip_char CR_char line) with
              | Some out => Some ((current_nr, current_line) :: out)
              | None => None
              end
        end
  end.

(** [Parser._unfold_lines(physical_lines, with_linenr=True)]. *)
Definition _unfold_lines (physical_lines : list string)
    : option (list (Z * string)) :=
  unfold_from 0 physical_lines (-1) "".

(** A logical line cut in pieces, [(first, continuations)], written as
    physical lines: each continuation after the character [indent], each
    physical line ended by [eol]. *)
Definition folded (eol : string) (indent : ascii)
    (logical : string * list string) : list string :=
  (fst logical ++ eol)%string
  :: map (fun piece => String indent (piece ++ eol)) (snd logical).

Definition indented (s : string) : bool :=
  match s with
  | EmptyString => false
  | String first _ => Ascii.eqb first " " || Ascii.eqb first TAB
  end.

(** The pieces [folded] can be read back from: none is blank, none holds a
    carriage return, and the first does not begin with a space or a
    tab. *)
Definition foldable (logical : string * list string) : bool :=
  negb (blank (fst logical))
  && negb (has_char CR_char (fst logical))
  && negb (indented (fst logical))
  && forallb (fun piece => negb (blank piece) && negb (has_char CR_char piece))
       (snd logical).

(** The logical lines, each with the number of its first physical line. *)
Fixpoint numbered (nr : Z) (logicals : list (string * list string))
    : list (Z * string) :=
  match logicals with
  | [] => []
  | logical :: rest =>
      (nr, (fst logical ++ Hosts.join (snd logical))%string)
      :: numbered (nr + 1 + Z.of_nat (List.length (snd logical))) rest
  end.

End Lines.

(** A description folded in two physical lines, and the line after it. *)
Definition folded_event : list (string * list string) :=
  [("DESCRIPTION:block_apps: steam;", ["block_websites: x.com;"]);
   ("END:VEVENT", [])].


(** ** Further inputs *)

(** A block with the key of the websites first and an empty value for the
    applications. *)
Definition websites_first_empty_value_desc : string :=
  "##blocking block_websites: x.com; block_apps: ; ##blocking".

(** Sunday 2024-06-09, 23:30:00, and Monday 2024-06-10, 00:30:00: one
    instant on two wall clocks an hour apart. *)
Definition sunday_2330 : Z := 1717975800.
Definition monday_0030 : Z := 1717979400.

(** Two events that name the same website. The one that begins first ends
    last but one and comes second in the feed. Three passes, at the
    instants 5, 12 and 25, then the flag is cleared; nothing fails. *)
Definition twin_first : Task :=
  Task_init (libs := plain_text_libs) 0 "B" 10 20
    "##blocking block_apps: b; block_websites: x.com; ##blocking" None.

Definition twin_second : Task :=
  Task_init (libs := plain_text_libs) 1 "A" 0 15
    "##blocking block_apps: a; block_websites: x.com; ##blocking" None.

Definition twin_registry : list Task := [twin_first; twin_second].

Definition twin_env : Env :=
  {| RUNNING := fun k => Nat.ltb k 3;
     now := fun k _ => nth k [5; 12; 25] 0;
     fault := fun _ _ => None |}.




(** * Properties *)

(** ** The active-task lookup *)

Section Lookup.
Variable env : Env.

Lemma is_active_cases (t : Task) (w : World) :
  (exists e, is_active env t w = (Raise e, next_op w))
  \/ is_active env t w
     = (Ok (active_at t (now env (tick w) (pc w))), next_op w).
Proof.
  unfold is_active, bind, datetime_now, ret.
  destruct (fault env (tick w) (pc w)) as [e|]; [left; eauto | right; reflexivity].
Qed.

Lemma get_active_task_sound (tasks : list Task) :
  forall w t w',
    get_active_task env tasks w = (Ok (Some t), w') ->
    In t tasks /\ does_block_anything t = true.
Proof.
  induction tasks as [|task rest IH]; intros w t w' H; simpl in H.
  - discriminate.
  - unfold bind in H.
    destruct (is_active_cases task w) as [[e He] | He]; rewrite He in H.
    + discriminate.
    + destruct (active_at task _ && does_block_anything task) eqn:Hc.
      * unfold ret in H. injection H as Ht _. subst t.
        apply andb_true_iff in Hc. split; [left; reflexivity | apply Hc].
      * apply IH in H. split; [right|]; apply H.
Qed.



End Lookup.

Lemma does_block_anything_iff (t : Task) :
  does_block_anything t = true <->
  block_apps (blocking_info t) <> [] /\ block_websites (blocking_info t) <> [].
Proof.
  unfold does_block_anything.
  destruct (block_apps (blocking_info t)), (block_websites (blocking_info t));
    simpl; split; intros H; try discriminate; try reflexivity;
    try (split; discriminate); destruct H as [H1 H2]; congruence.
Qed.

(** C2. An occurrence is returned by [get_active_task] only if both its
    list of applications and its list of websites are non-empty: whatever
    the registry, the clock and the state of the run, an occurrence with an
    empty list of applications or an empty list of websites is not the
    result of the lookup. *)
Theorem C2_active_needs_both_lists :
  forall (env : Env) (tasks : list Task) (w : World) (t : Task),
    block_apps (blocking_info t) = [] \/ block_websites (blocking_info t) = [] ->
    fst (get_active_task env tasks w) <> Ok (Some t).
Proof.
  intros env tasks w t Hempty Hres.
  destruct (get_active_task env tasks w) as [r w'] eqn:Hrun. simpl in Hres.
  subst r. apply get_active_task_sound in Hrun. destruct Hrun as [_ Hb].
  apply does_block_anything_iff in Hb. destruct Hb as [Ha Hw].
  destruct Hempty; contradiction.
Qed.

(** The occurrence [websites_only] is inside its window at 50 and is not
    returned. *)
Lemma C2_witness :
  (block_apps (blocking_info websites_only) = []
   \/ block_websites (blocking_info websites_only) = [])
  /\ active_at websites_only 50 = true
  /\ fst (get_active_task (calm_env 1) [websites_only] init_world)
     <> Ok (Some websites_only).
Proof.
  split; [left; reflexivity |].
  split; [reflexivity |].
  apply (C2_active_needs_both_lists (calm_env 1) [websites_only] init_world
           websites_only).
  left; reflexivity.
Defined.

(** ** Identity of occurrences *)

Section Identity.
Context {libs : ExternalLibs}.

Lemma occurrence_tasks_length (a : Task_Args) (occs : list Z) :
  forall id, List.length (occurrence_tasks id a occs) = List.length occs.
Proof.
  induction occs as [|occ rest IH]; intros id; simpl; [|rewrite IH]; reflexivity.
Qed.

Lemma occurrence_tasks_oid (a : Task_Args) (occs : list Z) :
  forall id, map oid (occurrence_tasks id a occs) = seq id (List.length occs).
Proof.
  induction occs as [|occ rest IH]; intros id; simpl; [|rewrite IH]; reflexivity.
Qed.

(** The identity of a task built by [get_tasks] is its position. *)
Lemma get_tasks_loop_oid (clock : nat -> Z * Z) (l : list Task_Args) :
  forall k acc res,
    map oid acc = seq 0 (List.length acc) ->
    get_tasks_loop clock k acc l = inr res ->
    map oid res = seq 0 (List.length res).
Proof.
  induction l as [|a rest IH]; intros k acc res Hacc H; simpl in H.
  - injection H as <-. exact Hacc.
  - destruct (args_repetition a) as [rep|].
    + destruct (rrulestr rep (args_start_time a)) as [e|rule]; [discriminate|].
      eapply IH; [|exact H].
      rewrite map_app, length_app, seq_app, Hacc, occurrence_tasks_oid,
        occurrence_tasks_length.
      reflexivity.
    + eapply IH; [|exact H].
      rewrite map_app, length_app, seq_app, Hacc. reflexivity.
Qed.

(** Keeping some tasks of a list keeps their identities distinct. *)
Lemma filter_oid_NoDup (keep : Task -> bool) (tasks : list Task) :
  NoDup (map oid tasks) -> NoDup (map oid (filter keep tasks)).
Proof.
  intros Hnd. induction tasks as [|t tasks IH]; simpl in *; [constructor|].
  apply NoDup_cons_iff in Hnd. destruct Hnd as [Hfresh Hnd].
  destruct (keep t); simpl; [|apply IH; exact Hnd].
  apply NoDup_cons_iff. split; [|apply IH; exact Hnd].
  rewrite in_map_iff. intros [t' [Hoid Hin]].
  apply filter_In in Hin. apply Hfresh.
  rewrite in_map_iff. exists t'. tauto.
Qed.

Lemma registry_oid_NoDup (clock : nat -> Z * Z) (args : list Task_Args)
    (tasks : list Task) (today : Z) :
  get_tasks clock args = inr tasks ->
  NoDup (map oid (filter_task_by_today today tasks)).
Proof.
  intros H. unfold filter_task_by_today. apply filter_oid_NoDup.
  erewrite get_tasks_loop_oid; [apply seq_NoDup | | exact H]. reflexivity.
Qed.

(** C8, as the code has it. Two occurrences of the registry compare equal
    exactly when they are the same object, that is the same entry of the
    registry; two equal occurrences have then the same title and the same
    start, and nothing more is compared. *)
Theorem C8_equality_is_identity :
  forall (clock : nat -> Z * Z) (args : list Task_Args) (tasks : list Task)
         (today : Z) (i j : nat) (a b : Task),
    get_tasks clock args = inr tasks ->
    nth_error (filter_task_by_today today tasks) i = Some a ->
    nth_error (filter_task_by_today today tasks) j = Some b ->
    (task_eq a b = true <-> i = j)
    /\ (task_eq a b = true -> title a = title b /\ start_time a = start_time b).
Proof.
  intros clock args tasks today i j a b Hget Ha Hb.
  pose proof (registry_oid_NoDup clock args tasks today Hget) as Hnd.
  assert (Hiff : task_eq a b = true <-> i = j).
  { unfold task_eq. rewrite Nat.eqb_eq. split.
    - intros Hoid.
      rewrite NoDup_nth_error in Hnd. apply Hnd.
      + rewrite length_map. apply nth_error_Some. congruence.
      + rewrite (map_nth_error oid _ _ Ha), (map_nth_error oid _ _ Hb).
        congruence.
    - intros ->. congruence. }
  split; [exact Hiff|].
  intros Heq. apply Hiff in Heq. subst j.
  assert (a = b) by congruence. subst b. split; reflexivity.
Qed.

End Identity.

(** The two tasks built from the same event listed twice. *)
Lemma C8_witness :
  (task_eq focus_first focus_second = true <-> 0%nat = 1%nat)
  /\ (task_eq focus_first focus_second = true ->
      title focus_first = title focus_second
      /\ start_time focus_first = start_time focus_second).
Proof.
  apply (C8_equality_is_identity (libs := plain_text_libs)
           (fun _ => (0, 0)) [focus_args; focus_args]
           [focus_first; focus_second] 150 0%nat 1%nat
           focus_first focus_second); reflexivity.
Defined.

(** C8, as the specification states it, fails: the two tasks built from a feed that
    holds the same event twice have the same title and the same start and
    are not equal. *)
Lemma C8_counterexample :
  get_tasks (libs := plain_text_libs) (fun _ => (0, 0))
    [focus_args; focus_args] = inr [focus_first; focus_second]
  /\ title focus_first = title focus_second
  /\ start_time focus_first = start_time focus_second
  /\ task_eq focus_first focus_second = false
  /\ task_ne focus_first (Some focus_second) = true.
Proof. repeat split; reflexivity. Qed.

(** ** The horizon of the expansion *)

Lemma weekday_range (d : Z) : 0 <= weekday d < 7.
Proof. unfold weekday. apply Z.mod_pos_bound. lia. Qed.

Lemma date_add_days (t d : Z) : date (t + seconds_per_day * d) = date t + d.
Proof.
  unfold date, seconds_per_day.
  rewrite (Z.mul_comm 86400 d), Z.div_add by lia. reflexivity.
Qed.

(** C7, as the code has it. The horizon is worked out from the clock at
    each call: it is the instant read in the zone of the program, moved
    forward by a whole number of days, and its time of day is the one read,
    not the end of the day. The number of days comes from the day of the
    week of the machine's own date, so the horizon falls on a Sunday exactly
    when the two readings of the clock fall on the same day of the week. *)
Theorem C7_horizon_is_a_sunday_at_the_same_time :
  forall now today : Z,
    exists d : Z,
      0 <= d
      /\ _get_this_weeks_sunday now today = now + seconds_per_day * d
      /\ _get_this_weeks_sunday now today mod seconds_per_day
         = now mod seconds_per_day
      /\ (weekday (_get_this_weeks_sunday now today) = 6
          <-> weekday today = weekday now).
Proof.
  intros now today.
  exists ((6 - weekday today) mod 7 + 7).
  pose proof (weekday_range now) as Hn.
  pose proof (weekday_range today) as Ht.
  assert (Hm : (6 - weekday today) mod 7 = 6 - weekday today)
    by (apply Z.mod_small; lia).
  unfold _get_this_weeks_sunday. rewrite Hm.
  split; [lia|]. split; [reflexivity|]. split.
  - unfold seconds_per_day.
    rewrite (Z.mul_comm 86400), Z.mod_add by lia. reflexivity.
  - unfold weekday at 1. rewrite date_add_days.
    set (wt := weekday today) in *.
    unfold weekday in Hn |- *.
    set (x := date now) in *.
    pose proof (Z.div_mod (x + 3) 7 ltac:(lia)) as Hx.
    set (q := (x + 3) / 7) in *. set (wn := (x + 3) mod 7) in *.
    replace (x + (6 - wt + 7) + 3) with (wn + 13 - wt + q * 7) by lia.
    rewrite Z.mod_add by lia.
    pose proof (Z.div_mod (wn + 13 - wt) 7 ltac:(lia)) as Hd.
    pose proof (Z.mod_pos_bound (wn + 13 - wt) 7 ltac:(lia)) as Hb.
    set (k := (wn + 13 - wt) / 7) in *. set (r := (wn + 13 - wt) mod 7) in *.
    lia.
Qed.

(** Monday 2024-06-03 at 10:00 on both clocks: the horizon is a Sunday at
    10:00. *)
Lemma C7_witness :
  (exists d : Z,
      0 <= d
      /\ _get_this_weeks_sunday monday_10h monday_10h
         = monday_10h + seconds_per_day * d
      /\ _get_this_weeks_sunday monday_10h monday_10h mod seconds_per_day
         = monday_10h mod seconds_per_day
      /\ (weekday (_get_this_weeks_sunday monday_10h monday_10h) = 6
          <-> weekday monday_10h = weekday monday_10h))
  /\ weekday (_get_this_weeks_sunday monday_10h monday_10h) = 6.
Proof.
  split.
  - apply (C7_horizon_is_a_sunday_at_the_same_time monday_10h monday_10h).
  - reflexivity.
Defined.

(** C7, as the specification states it, fails: on Monday 2024-06-03 at 10:00 the
    horizon is Sunday 2024-06-16 at 10:00, thirteen days ahead, where the
    next Sunday is six days ahead, and it is not at the end of that day.
    And it need not be a Sunday: when the zone of the program shows Sunday
    2024-06-09 at 23:30 and the machine's own clock Monday 2024-06-10 at
    00:30, the horizon is Saturday 2024-06-22 at 23:30. *)
Lemma C7_counterexample :
  weekday monday_10h = 0
  /\ _get_this_weeks_sunday monday_10h monday_10h = 1718532000
  /\ date (_get_this_weeks_sunday monday_10h monday_10h) = date monday_10h + 13
  /\ _get_this_weeks_sunday monday_10h monday_10h mod seconds_per_day = 36000
  /\ ~ spec_end_of_current_week monday_10h
         (_get_this_weeks_sunday monday_10h monday_10h)
  /\ weekday sunday_2330 = 6
  /\ weekday monday_0030 = 0
  /\ monday_0030 - sunday_2330 = 3600
  /\ _get_this_weeks_sunday sunday_2330 monday_0030
     = sunday_2330 + seconds_per_day * 13
  /\ weekday (_get_this_weeks_sunday sunday_2330 monday_0030) = 5.
Proof.
  split; [reflexivity|]. split; [reflexivity|]. split; [reflexivity|].
  split; [reflexivity|]. split.
  - intros [Hd _]. vm_compute in Hd. discriminate.
  - repeat split; reflexivity.
Qed.

(** ** Expansion of the templates *)




Section Expansion.
Context {libs : ExternalLibs}.




Lemma get_tasks_loop_malformed (clock : nat -> Z * Z) (l : list Task_Args) :
  forall k acc a e,
    In a l -> malformed_rule a e ->
    exists e' a', get_tasks_loop clock k acc l = inl e'
                  /\ In a' l /\ malformed_rule a' e'.
Proof.
  induction l as [|a0 rest IH]; intros k acc a e Hin Hbad; [contradiction|].
  simpl. destruct (args_repetition a0) as [rep0|] eqn:Hrep0.
  - destruct (rrulestr rep0 (args_start_time a0)) as [e0|rule0] eqn:Hr0.
    + exists e0, a0. split; [reflexivity|]. split; [left; reflexivity|].
      exists rep0. auto.
    + destruct Hin as [-> | Hin].
      * destruct Hbad as [rep [Hrep Hr]]. congruence.
      * destruct (IH (S k)
                    (acc ++ occurrence_tasks (List.length acc) a0
                       (between rule0 (args_start_time a0)
                          (_get_this_weeks_sunday (fst (clock k))
                             (snd (clock k)))))%list
                    a e Hin Hbad) as [e' [a' [H1 [H2 H3]]]].
        exists e', a'. split; [exact H1|]. split; [right; exact H2 | exact H3].
  - destruct Hin as [-> | Hin].
    + destruct Hbad as [rep [Hrep Hr]]. congruence.
    + destruct (IH k
                  (acc ++ [Task_init (List.length acc) (args_title a0)
                             (args_start_time a0) (args_end_time a0)
                             (args_description a0) None])%list
                  a e Hin Hbad) as [e' [a' [H1 [H2 H3]]]].
      exists e', a'. split; [exact H1|]. split; [right; exact H2 | exact H3].
Qed.

(** C4. When a template of the feed has a rule that [rrulestr] rejects,
    [get_tasks] gives no list of tasks: it ends with the exception raised
    for a rejected rule of the feed, which nothing in it catches. A
    template with no rule adds exactly one task, whose title, start and end
    are those of the template. *)
Theorem C4_malformed_rule_propagates :
  forall (clock : nat -> Z * Z) (task_args_list : list Task_Args)
         (a : Task_Args) (e : exn),
    In a task_args_list ->
    malformed_rule a e ->
    (exists e' a',
        get_tasks clock task_args_list = inl e'
        /\ In a' task_args_list /\ malformed_rule a' e')
    /\ (forall (k : nat) (task_list : list Task) (b : Task_Args)
               (rest : list Task_Args),
           args_repetition b = None ->
           exists t,
             get_tasks_loop clock k task_list (b :: rest)
             = get_tasks_loop clock k (task_list ++ [t]) rest
             /\ title t = args_title b
             /\ start_time t = args_start_time b
             /\ end_time t = args_end_time b)
    /\ (forall b : Task_Args,
           args_repetition b = None ->
           exists t,
             get_tasks clock [b] = inr [t]
             /\ title t = args_title b
             /\ start_time t = args_start_time b
             /\ end_time t = args_end_time b).
Proof.
  intros clock l a e Hin Hbad. split; [|split].
  - unfold get_tasks. eapply get_tasks_loop_malformed; eassumption.
  - intros k task_list b rest Hnone. eexists. simpl. rewrite Hnone.
    split; [reflexivity|]. repeat split.
  - intros b Hnone. eexists. unfold get_tasks. simpl. rewrite Hnone.
    split; [reflexivity|]. repeat split.
Qed.

End Expansion.


(** A feed with one sound event and one event whose rule is rejected: no
    task comes out of it. *)
Lemma C4_witness :
  In broken_args [focus_args; broken_args]
  /\ malformed_rule (libs := plain_text_libs) broken_args ValueError
  /\ get_tasks (libs := plain_text_libs) (fun _ => (0, 0))
       [focus_args; broken_args] = inl ValueError
  /\ ((exists e' a',
          get_tasks (libs := plain_text_libs) (fun _ => (0, 0))
            [focus_args; broken_args] = inl e'
          /\ In a' [focus_args; broken_args]
          /\ malformed_rule (libs := plain_text_libs) a' e')
      /\ (forall (k : nat) (task_list : list Task) (b : Task_Args)
                 (rest : list Task_Args),
             args_repetition b = None ->
             exists t,
               get_tasks_loop (libs := plain_text_libs) (fun _ => (0, 0)) k
                 task_list (b :: rest)
               = get_tasks_loop (libs := plain_text_libs) (fun _ => (0, 0)) k
                   (task_list ++ [t]) rest
               /\ title t = args_title b
               /\ start_time t = args_start_time b
               /\ end_time t = args_end_time b)
      /\ (forall b : Task_Args,
             args_repetition b = None ->
             exists t,
               get_tasks (libs := plain_text_libs) (fun _ => (0, 0)) [b]
               = inr [t]
               /\ title t = args_title b
               /\ start_time t = args_start_time b
               /\ end_time t = args_end_time b)).
Proof.
  split; [right; left; reflexivity|].
  split; [exists "FREQ="; split; reflexivity|].
  split; [reflexivity|].
  apply (C4_malformed_rule_propagates (libs := plain_text_libs)
           (fun _ => (0, 0)) [focus_args; broken_args] broken_args ValueError).
  - right; left; reflexivity.
  - exists "FREQ=". split; reflexivity.
Defined.

(** ** The polling loop *)

Section Loop.
Variable env : Env.

Lemma quiet_ret {A : Type} (allowed : Event -> Prop) (a : A) :
  quiet allowed (ret a).
Proof.
  intros w. simpl. split; [reflexivity|]. split; [discriminate|].
  exists []. rewrite app_nil_r. split; [reflexivity | constructor].
Qed.

Lemma quiet_bind {A B : Type} (allowed : Event -> Prop) (c : M A)
    (f : A -> M B) :
  quiet allowed c -> (forall a, quiet allowed (f a)) -> quiet allowed (bind c f).
Proof.
  intros Hc Hf w. unfold bind.
  destruct (Hc w) as [Ht [Hr [evs [Htr Hall]]]].
  destruct (c w) as [[a|e|] w1]; simpl in *.
  - destruct (Hf a w1) as [Ht2 [Hr2 [evs2 [Htr2 Hall2]]]].
    split; [congruence|]. split; [assumption|].
    exists (evs ++ evs2). split.
    + rewrite Htr2, Htr, app_assoc. reflexivity.
    + apply Forall_app. split; assumption.
  - split; [assumption|]. split; [discriminate|]. exists evs. auto.
  - contradiction.
Qed.

Lemma quiet_operation (allowed : Event -> Prop) : quiet allowed (operation env).
Proof.
  intros w. unfold operation.
  destruct (fault env (tick w) (pc w)); simpl;
    (split; [reflexivity|]; split; [discriminate|];
     exists []; rewrite app_nil_r; split; [reflexivity | constructor]).
Qed.

Lemma quiet_is_active (allowed : Event -> Prop) (t : Task) :
  quiet allowed (is_active env t).
Proof.
  intros w. unfold is_active, bind, datetime_now, ret.
  destruct (fault env (tick w) (pc w)); simpl;
    (split; [reflexivity|]; split; [discriminate|];
     exists []; rewrite app_nil_r; split; [reflexivity | constructor]).
Qed.

Lemma quiet_block_apps (allowed : Event -> Prop) (l : list string) :
  allowed (BlockApps l) -> quiet allowed (Blocker_block_apps env l).
Proof. intros Hl. quiet_call. Qed.

Lemma quiet_block_websites (allowed : Event -> Prop) (l : list string) :
  allowed (BlockWebsites l) -> quiet allowed (Blocker_block_websites env l).
Proof. intros Hl. quiet_call. Qed.

Lemma quiet_unblock_websites (allowed : Event -> Prop) (l : list string) :
  allowed (UnblockWebsites l) -> quiet allowed (Blocker_unblock_websites env l).
Proof. intros Hl. quiet_call. Qed.

Lemma quiet_get_active_task (allowed : Event -> Prop) (tasks : list Task) :
  quiet allowed (get_active_task env tasks).
Proof.
  induction tasks as [|task rest IH]; simpl.
  - apply quiet_ret.
  - apply quiet_bind; [apply quiet_is_active|].
    intros active. destruct (active && does_block_anything task);
      [apply quiet_ret | exact IH].
Qed.

Lemma quiet_elif_branches (current_task : option Task) :
  quiet (pass_allowed current_task) (elif_branches env current_task).
Proof.
  destruct current_task as [current|]; simpl; [|apply quiet_ret].
  apply quiet_bind; [apply quiet_is_active|].
  intros active. destruct (negb active).
  - apply quiet_bind; [apply quiet_operation|]. intros _.
    apply quiet_bind; [|intros _; apply quiet_ret].
    apply quiet_unblock_websites. simpl. eauto.
  - apply quiet_bind; [|intros _; apply quiet_ret].
    apply quiet_block_apps. exact I.
Qed.

(** A pass of the loop ends, within the pass, and unblocks no websites but
    those of the occurrence tracked when it starts. *)
Lemma quiet_loop_body (tasks : list Task) (current_task : option Task) :
  quiet (pass_allowed current_task) (loop_body env tasks current_task).
Proof.
  unfold loop_body.
  apply quiet_bind; [apply quiet_operation|]. intros _.
  apply quiet_bind; [apply quiet_get_active_task|]. intros active_task.
  apply quiet_bind.
  - destruct active_task as [active|]; [|apply quiet_elif_branches].
    destruct (task_ne active current_task); [|apply quiet_elif_branches].
    apply quiet_bind; [apply quiet_operation|]. intros _.
    apply quiet_bind; [apply quiet_block_apps; exact I|]. intros _.
    apply quiet_bind; [apply quiet_block_websites; exact I|]. intros _.
    apply quiet_ret.
  - intros cur. apply quiet_bind; [apply quiet_operation|]. intros _.
    apply quiet_ret.
Qed.

(** Once the flag is read as cleared at the test number [k], the loop ends
    within [k] passes or so. *)
Lemma while_RUNNING_terminates (tasks : list Task) (k : nat) :
  RUNNING env k = false ->
  forall fuel current_task w,
    (tick w <= k)%nat -> (k - tick w < fuel)%nat ->
    fst (while_RUNNING env fuel tasks current_task w) <> OutOfFuel.
Proof.
  intros Hk. induction fuel as [|fuel IH]; intros cur w Hle Hlt; [lia|].
  simpl. destruct (RUNNING env (tick w)) eqn:Hrun; [|simpl; discriminate].
  assert (tick w <> k) by congruence.
  destruct (quiet_loop_body tasks cur w) as [Ht [Hr _]].
  destruct (loop_body env tasks cur w) as [[cur'|e|] w']; simpl in *.
  - apply IH; simpl; lia.
  - discriminate.
  - contradiction.
Qed.

(** *** When every exception is an [Exception] *)

Hypothesis faults_are_Exceptions :
  forall k p e, fault env k p = Some e -> is_Exception e = true.

Lemma raises_ret {A : Type} (a : A) : raises_Exception (ret a).
Proof. intros w e H. discriminate. Qed.

Lemma raises_bind {A B : Type} (c : M A) (f : A -> M B) :
  raises_Exception c -> (forall a, raises_Exception (f a)) ->
  raises_Exception (bind c f).
Proof.
  intros Hc Hf w e. unfold bind. specialize (Hc w).
  destruct (c w) as [[a|e1|] w1]; simpl in *.
  - apply Hf.
  - intros H. injection H as <-. apply Hc. reflexivity.
  - discriminate.
Qed.

Lemma raises_operation : raises_Exception (operation env).
Proof.
  intros w e. unfold operation.
  destruct (fault env (tick w) (pc w)) as [e1|] eqn:Hf; simpl;
    intros H; [|discriminate].
  injection H as <-. eapply faults_are_Exceptions; eassumption.
Qed.

Lemma raises_is_active (t : Task) : raises_Exception (is_active env t).
Proof.
  intros w e. unfold is_active, bind, datetime_now, ret.
  destruct (fault env (tick w) (pc w)) as [e1|] eqn:Hf; simpl;
    intros H; [|discriminate].
  injection H as <-. eapply faults_are_Exceptions; eassumption.
Qed.

Lemma raises_block_apps (l : list string) :
  raises_Exception (Blocker_block_apps env l).
Proof.
  intros w e. unfold Blocker_block_apps.
  destruct (fault env (tick w) (pc w)) as [e1|] eqn:Hf; simpl;
    [|discriminate].
  apply faults_are_Exceptions in Hf.
  destruct e1; simpl in *; try discriminate; intros H; injection H as <-;
    reflexivity.
Qed.

(** Under [except Exception], [block_websites] and [unblock_websites]
    return. *)
Lemma block_websites_returns (l : list string) (w : World) :
  Blocker_block_websites env l w = (Ok tt, next_op (log (BlockWebsites l) w)).
Proof.
  unfold Blocker_block_websites.
  destruct (fault env (tick w) (pc w)) as [e1|] eqn:Hf; [|reflexivity].
  rewrite (faults_are_Exceptions _ _ _ Hf). reflexivity.
Qed.

Lemma unblock_websites_returns (l : list string) (w : World) :
  Blocker_unblock_websites env l w
  = (Ok tt, next_op (log (UnblockWebsites l) w)).
Proof.
  unfold Blocker_unblock_websites.
  destruct (fault env (tick w) (pc w)) as [e1|] eqn:Hf; [|reflexivity].
  rewrite (faults_are_Exceptions _ _ _ Hf). reflexivity.
Qed.

Lemma raises_get_active_task (tasks : list Task) :
  raises_Exception (get_active_task env tasks).
Proof.
  induction tasks as [|task rest IH]; simpl.
  - apply raises_ret.
  - apply raises_bind; [apply raises_is_active|].
    intros active. destruct (active && does_block_anything task);
      [apply raises_ret | exact IH].
Qed.

Lemma raises_of_returns {A : Type} (c : M A) :
  (forall w, exists a w', c w = (Ok a, w')) -> raises_Exception c.
Proof.
  intros H w e. destruct (H w) as [a [w' ->]]. discriminate.
Qed.

Lemma raises_elif_branches (current_task : option Task) :
  raises_Exception (elif_branches env current_task).
Proof.
  destruct current_task as [current|]; simpl; [|apply raises_ret].
  apply raises_bind; [apply raises_is_active|].
  intros active. destruct (negb active).
  - apply raises_bind; [apply raises_operation|]. intros _.
    apply raises_bind; [|intros _; apply raises_ret].
    apply raises_of_returns. intros w. rewrite unblock_websites_returns. eauto.
  - apply raises_bind; [apply raises_block_apps | intros _; apply raises_ret].
Qed.

Lemma raises_loop_body (tasks : list Task) (current_task : option Task) :
  raises_Exception (loop_body env tasks current_task).
Proof.
  unfold loop_body.
  apply raises_bind; [apply raises_operation|]. intros _.
  apply raises_bind; [apply raises_get_active_task|]. intros active_task.
  apply raises_bind.
  - destruct active_task as [active|]; [|apply raises_elif_branches].
    destruct (task_ne active current_task); [|apply raises_elif_branches].
    apply raises_bind; [apply raises_operation|]. intros _.
    apply raises_bind; [apply raises_block_apps|]. intros _.
    apply raises_bind; [|intros _; apply raises_ret].
    apply raises_of_returns. intros w. rewrite block_websites_returns. eauto.
  - intros cur. apply raises_bind; [apply raises_operation|]. intros _.
    apply raises_ret.
Qed.

Lemma raises_while_RUNNING (tasks : list Task) :
  forall fuel current_task,
    raises_Exception (while_RUNNING env fuel tasks current_task).
Proof.
  induction fuel as [|fuel IH]; intros cur w e; simpl.
  - destruct (RUNNING env (tick w)); simpl; discriminate.
  - destruct (RUNNING env (tick w)); [|simpl; discriminate].
    pose proof (raises_loop_body tasks cur w) as Hb.
    destruct (loop_body env tasks cur w) as [[cur'|e1|] w']; simpl in *.
    + apply IH.
    + intros H. injection H as <-. apply Hb. reflexivity.
    + discriminate.
Qed.

(** The cleanup makes one call for each task and returns. *)
Lemma unblock_all_tasks_returns (tasks : list Task) :
  forall w, exists w',
    unblock_all_tasks env tasks w = (Ok tt, w')
    /\ trace w' = trace w ++ cleanup_events tasks.
Proof.
  induction tasks as [|task rest IH]; intros w; simpl.
  - exists w. rewrite app_nil_r. split; reflexivity.
  - unfold bind. rewrite unblock_websites_returns.
    destruct (IH (next_op (log (UnblockWebsites
                                  (block_websites (blocking_info task))) w)))
      as [w' [Hrun Htr]].
    exists w'. split; [exact Hrun|].
    rewrite Htr. simpl. rewrite <- app_assoc. reflexivity.
Qed.

(** However the loop ends, [main] returns after the cleanup. *)
Lemma main_cleans_up (tasks : list Task) (fuel : nat) (w : World) :
  fst (while_RUNNING env fuel tasks None w) <> OutOfFuel ->
  exists w',
    main env fuel tasks w = (Ok tt, w')
    /\ trace w'
       = trace (snd (while_RUNNING env fuel tasks None w))
         ++ cleanup_events tasks.
Proof.
  intros Hend. unfold main, try_except_Exception, bind.
  pose proof (raises_while_RUNNING tasks fuel None w) as Hexc.
  destruct (while_RUNNING env fuel tasks None w) as [[[]|e|] w1];
    simpl in *.
  - destruct (unblock_all_tasks_returns tasks w1) as [w' [Hrun Htr]].
    rewrite Hrun. exists w'. split; [reflexivity | exact Htr].
  - rewrite (Hexc e eq_refl).
    destruct (unblock_all_tasks_returns tasks w1) as [w' [Hrun Htr]].
    rewrite Hrun. exists w'. split; [reflexivity | exact Htr].
  - contradiction.
Qed.

End Loop.

(** The cleanup the code does run. Take a run in which every exception met
    is an instance of [Exception], the class the handler of [main] names.
    Then, whenever the loop ends, by the flag read as cleared or by an
    exception raised in a pass, [main] returns, and the calls it made are
    those of the loop followed by the calls of the cleanup:
    [unblock_websites] with the list of websites of each task of the
    registry, once for each task, in the order of the registry, whether the
    task was ever active or not. The loop does end once the flag is read as
    cleared. *)
Theorem cleanup_on_Exception_exit :
  forall (env : Env) (tasks : list Task),
    (forall k p e, fault env k p = Some e -> is_Exception e = true) ->
    (forall fuel,
        fst (while_RUNNING env fuel tasks None init_world) <> OutOfFuel ->
        exists w',
          main env fuel tasks init_world = (Ok tt, w')
          /\ trace w'
             = trace (snd (while_RUNNING env fuel tasks None init_world))
               ++ cleanup_events tasks)
    /\ (forall k fuel,
           RUNNING env k = false -> (k < fuel)%nat ->
           fst (while_RUNNING env fuel tasks None init_world) <> OutOfFuel)
    /\ List.length (cleanup_events tasks) = List.length tasks
    /\ (forall t, In t tasks ->
                  In (UnblockWebsites (block_websites (blocking_info t)))
                     (cleanup_events tasks)).
Proof.
  intros env tasks Hexc. split; [|split; [|split]].
  - intros fuel Hend. apply main_cleans_up; assumption.
  - intros k fuel Hk Hlt.
    apply (while_RUNNING_terminates env tasks k Hk); simpl; lia.
  - apply length_map.
  - intros t Hin. unfold cleanup_events.
    apply (in_map (fun task =>
                     UnblockWebsites (block_websites (blocking_info task)))).
    exact Hin.
Qed.

(** The command that kills the applications is missing at the second pass:
    [block_apps] raises [SystemError], the handler runs the cleanup, [main]
    returns. *)
Example cleanup_after_missing_command :
  main missing_command_env 10 overlap_registry init_world
  = (Ok tt,
     {| trace := [BlockApps ["a"]; BlockWebsites ["a.com"]; BlockApps ["a"];
                  UnblockWebsites ["b.com"]; UnblockWebsites ["a.com"]];
        tick := 1; pc := 7 |})
  /\ fst (while_RUNNING missing_command_env 10 overlap_registry None init_world)
     = Raise SystemError.
Proof. split; reflexivity. Qed.

(** The run of [overlap_env], which ends by the flag: the loop unblocks the
    websites of the long event when its window is over, and the cleanup
    then unblocks the websites of each task once. *)
Example cleanup_after_overlap_run :
  main overlap_env 10 overlap_registry init_world
  = (Ok tt,
     {| trace := [BlockApps ["a"]; BlockWebsites ["a.com"];
                  BlockApps ["b"]; BlockWebsites ["b.com"];
                  BlockApps ["a"]; BlockWebsites ["a.com"];
                  UnblockWebsites ["a.com"];
                  UnblockWebsites ["b.com"]; UnblockWebsites ["a.com"]];
        tick := 4; pc := 2 |}).
Proof. reflexivity. Qed.

(** C1 fails in the code, against the comments of lines 109 and 112 and the
    note of [unblock_all_tasks]. The handler of [main] names [Exception]:
    when a pass of the loop raises an exception that is not an instance of
    it, such as the [KeyboardInterrupt] of Ctrl-C, [main] ends with that
    exception in the state the loop left, and makes no call of the
    cleanup: what the loop blocked stays blocked. *)
Theorem C1_interrupt_skips_cleanup :
  forall (env : Env) (tasks : list Task) (fuel : nat) (e : exn),
    fst (while_RUNNING env fuel tasks None init_world) = Raise e ->
    is_Exception e = false ->
    main env fuel tasks init_world
    = (Raise e, snd (while_RUNNING env fuel tasks None init_world))
    /\ trace (snd (main env fuel tasks init_world))
       = trace (snd (while_RUNNING env fuel tasks None init_world)).
Proof.
  intros env tasks fuel e Hloop Hexc.
  assert (Hmain : main env fuel tasks init_world
                  = (Raise e,
                     snd (while_RUNNING env fuel tasks None init_world))).
  { unfold main, try_except_Exception, bind.
    destruct (while_RUNNING env fuel tasks None init_world) as [r w'].
    simpl in Hloop. subst r. simpl. rewrite Hexc. reflexivity. }
  split; [exact Hmain|]. rewrite Hmain. reflexivity.
Qed.

(** The run of [interrupt_env]: the user interrupts the program during the
    sleep of the first pass, after the websites of the active task were
    blocked. [KeyboardInterrupt] is raised inside the body of the loop, the
    handler lets it through, and [unblock_websites] is never called. *)
Lemma C1_witness :
  get_active_task interrupt_env [long_task] (next_op init_world)
  = (Ok (Some long_task), {| trace := []; tick := 0; pc := 2 |})
  /\ time_sleep interrupt_env
       {| trace := [BlockApps ["a"]; BlockWebsites ["a.com"]];
          tick := 0; pc := 5 |}
     = (Raise KeyboardInterrupt,
        {| trace := [BlockApps ["a"]; BlockWebsites ["a.com"]];
           tick := 0; pc := 6 |})
  /\ fst (while_RUNNING interrupt_env 10 [long_task] None init_world)
     = Raise KeyboardInterrupt
  /\ is_Exception KeyboardInterrupt = false
  /\ main interrupt_env 10 [long_task] init_world
     = (Raise KeyboardInterrupt,
        {| trace := [BlockApps ["a"]; BlockWebsites ["a.com"]];
           tick := 0; pc := 6 |})
  /\ trace (snd (main interrupt_env 10 [long_task] init_world))
     = [BlockApps ["a"]; BlockWebsites ["a.com"]].
Proof.
  split; [reflexivity|]. split; [reflexivity|]. split; [reflexivity|].
  split; [reflexivity|].
  destruct (C1_interrupt_skips_cleanup interrupt_env [long_task] 10
              KeyboardInterrupt eq_refl eq_refl) as [Hmain Htrace].
  split.
  - rewrite Hmain. reflexivity.
  - rewrite Htrace. reflexivity.
Defined.

(** ** The switch from one occurrence to another *)

Section Switch.
Variable env : Env.







End Switch.



(** Two events with the same list of websites, the run of [twin_env]: the
    first pass tracks the second of the registry; the second pass finds the
    first of the registry and switches to it; the third finds it over and
    unblocks its list, which is also the list of the occurrence left at the
    switch, never tracked again. *)
Example twin_run_unblocks_shared_list :
  block_websites (blocking_info twin_first) = ["x.com"]
  /\ block_websites (blocking_info twin_second) = ["x.com"]
  /\ fst (loop_body twin_env twin_registry None init_world)
     = Ok (Some twin_second)
  /\ fst (loop_body twin_env twin_registry (Some twin_second)
            {| trace := [BlockApps ["a"]; BlockWebsites ["x.com"]];
               tick := 1; pc := 0 |})
     = Ok (Some twin_first)
  /\ trace (snd (while_RUNNING twin_env 10 twin_registry None init_world))
     = [BlockApps ["a"]; BlockWebsites ["x.com"];
        BlockApps ["b"]; BlockWebsites ["x.com"];
        UnblockWebsites ["x.com"]].
Proof. repeat split; vm_compute; reflexivity. Qed.


(** ** Facts on the methods of [str] *)

Module PyStrFacts.

Lemma substring_nil (n m : nat) : String.substring n m "" = "".
Proof. destruct n, m; reflexivity. Qed.

Lemma substring_zero (s : string) : forall n, String.substring n 0 s = "".
Proof.
  induction s as [|c s IH]; intros n; [apply substring_nil|].
  destruct n; simpl; [reflexivity | apply IH].
Qed.

Lemma substring_split (s : string) :
  forall n a b,
    String.substring n (a + b) s
    = (String.substring n a s ++ String.substring (n + a) b s)%string.
Proof.
  induction s as [|c s IH]; intros n a b.
  - rewrite !substring_nil. reflexivity.
  - destruct n as [|n]; simpl.
    + destruct a as [|a]; simpl; [reflexivity|].
      rewrite (IH 0%nat a b). reflexivity.
    + apply IH.
Qed.

Lemma substring_length (s : string) :
  forall n m,
    String.length (String.substring n m s) = Nat.min m (String.length s - n).
Proof.
  induction s as [|c s IH]; intros n m.
  - rewrite substring_nil. simpl. lia.
  - destruct n as [|n]; simpl.
    + destruct m as [|m]; simpl; [reflexivity|].
      rewrite (IH 0%nat m). lia.
    + apply IH.
Qed.

(** Where [index] finds a non-empty needle, the needle fits. *)
Lemma index_fits (n m : nat) (sub s : string) :
  String.index n sub s = Some m -> sub <> "" ->
  (m + String.length sub <= String.length s)%nat.
Proof.
  intros Hidx Hne.
  pose proof (String.index_correct1 n m sub s Hidx) as Hsub.
  pose proof (substring_length s m (String.length sub)) as Hlen.
  rewrite Hsub in Hlen.
  assert (0 < String.length sub)%nat
    by (destruct sub; [contradiction | simpl; lia]).
  lia.
Qed.

Lemma clamp_inside (n x : Z) : 0 <= x <= n -> PyStr.clamp n x = x.
Proof.
  intros H. unfold PyStr.clamp.
  destruct (x <? 0) eqn:Hx; [apply Z.ltb_lt in Hx; lia | lia].
Qed.

(** What [find] answers when it answers a position. *)
Lemma find_found (s sub : string) (start i : Z) :
  PyStr.find s sub start = i -> 0 <= i -> sub <> "" ->
  String.substring (Z.to_nat i) (String.length sub) s = sub
  /\ i + PyStr.len sub <= PyStr.len s.
Proof.
  unfold PyStr.find. intros Hfind Hpos Hne.
  destruct (String.index (Z.to_nat (PyStr.clamp (PyStr.len s) start)) sub s)
    as [m|] eqn:Hidx; [|lia].
  subst i. rewrite Nat2Z.id. split.
  - eapply String.index_correct1; eassumption.
  - pose proof (index_fits _ _ _ _ Hidx Hne). unfold PyStr.len. lia.
Qed.

(** The slice from a key found at [i] to a position [j] after it is the
    key followed by the slice from the end of the key to [j]. *)
Lemma slice_from_key (s key : string) (i j : Z) :
  String.substring (Z.to_nat i) (String.length key) s = key ->
  0 <= i -> 0 < PyStr.len key -> i + PyStr.len key <= j -> j <= PyStr.len s ->
  PyStr.slice s i j = (key ++ PyStr.slice s (i + PyStr.len key) j)%string.
Proof.
  intros Hkey Hi Hk Hj Hlen. unfold PyStr.slice.
  rewrite !clamp_inside by lia.
  replace (i <? j) with true by (symmetry; apply Z.ltb_lt; lia).
  replace (Z.to_nat (j - i))
    with (String.length key + Z.to_nat (j - (i + PyStr.len key)))%nat
    by (unfold PyStr.len in *; lia).
  rewrite substring_split, Hkey. f_equal.
  destruct (i + PyStr.len key <? j) eqn:Hlt.
  - f_equal. unfold PyStr.len. lia.
  - apply Z.ltb_ge in Hlt.
    replace (Z.to_nat (j - (i + PyStr.len key))) with 0%nat by lia.
    apply substring_zero.
Qed.

Lemma replace_from_skip (old new : string) (u : string) :
  forall t,
    PyStr.replace_from old new (String.length u) (u ++ t)
    = PyStr.replace_from old new 0 t.
Proof.
  induction u as [|c u IH]; intros t; simpl.
  - destruct t; reflexivity.
  - apply IH.
Qed.

Lemma prefix_append (u t : string) : String.prefix u (u ++ t) = true.
Proof.
  induction u as [|c u IH]; simpl.
  - destruct t; reflexivity.
  - destruct (ascii_dec c c); [exact IH | contradiction].
Qed.

(** [replace] on a text that starts with the needle. *)
Lemma replace_head (old new t : string) :
  old <> "" ->
  PyStr.replace old new (old ++ t)
  = (new ++ PyStr.replace old new t)%string.
Proof.
  intros Hne. unfold PyStr.replace.
  destruct old as [|c old]; [contradiction|].
  change (String c old ++ t)%string with (String c (old ++ t)).
  cbn [PyStr.replace_from].
  change (String c (old ++ t)) with (String c old ++ t)%string.
  rewrite prefix_append.
  replace (String.length (String c old) - 1)%nat with (String.length old)
    by (simpl; lia).
  rewrite replace_from_skip. reflexivity.
Qed.

(** [replace] leaves a blank text alone when the needle starts with a
    character that is not white space. *)
Lemma replace_blank (c : ascii) (old new s : string) :
  PyStr.is_space c = false -> blank s = true ->
  PyStr.replace (String c old) new s = s.
Proof.
  intros Hc. unfold PyStr.replace.
  induction s as [|a s IH]; intros Hs; [reflexivity|].
  simpl in Hs. apply andb_true_iff in Hs. destruct Hs as [Ha Hs].
  cbn [PyStr.replace_from].
  replace (String.prefix (String c old) (String a s)) with false.
  - rewrite IH by assumption. reflexivity.
  - simpl. destruct (ascii_dec c a) as [->|]; [congruence | reflexivity].
Qed.

Lemma lstrip_blank (s : string) : blank s = true -> PyStr.lstrip s = "".
Proof.
  induction s as [|a s IH]; intros Hs; [reflexivity|].
  simpl in *. apply andb_true_iff in Hs. destruct Hs as [Ha Hs].
  rewrite Ha. auto.
Qed.

Lemma strip_blank (s : string) : blank s = true -> PyStr.strip s = "".
Proof. intros Hs. unfold PyStr.strip. rewrite lstrip_blank; auto. Qed.

(** [split] never gives the empty list. *)
Lemma split_not_nil (sep : ascii) (s : string) : PyStr.split sep s <> [].
Proof.
  destruct s as [|c s]; simpl; [discriminate|].
  destruct (Ascii.eqb c sep); [discriminate|].
  destruct (PyStr.split sep s); discriminate.
Qed.

End PyStrFacts.

(** ** Extraction of the directive *)

Section Extraction.
Context {libs : ExternalLibs}.

(** An exception in the body of the [try] gives the empty directive. *)
Lemma extract_exception (desc : string) (e : exn) :
  extract_try desc = inl e -> extract_blocking_info desc = no_blocking.
Proof. unfold extract_blocking_info. intros ->. reflexivity. Qed.

(** An empty block between the markers gives the empty directive. *)
Lemma extract_empty_block (desc cleaned : string) :
  _clean_description desc = inr cleaned ->
  important_part (PyStr.lower cleaned) = "" ->
  extract_blocking_info desc = no_blocking.
Proof.
  intros Hc Hp. unfold extract_blocking_info, extract_try.
  rewrite Hc, Hp. reflexivity.
Qed.

(** A description with no marker gives the empty directive. *)
Lemma extract_no_marker (desc cleaned : string) :
  _clean_description desc = inr cleaned ->
  PyStr.find (PyStr.lower cleaned) "##blocking" 0 = -1 ->
  extract_blocking_info desc = no_blocking.
Proof.
  intros Hc Hfind. apply (extract_empty_block desc cleaned Hc).
  unfold important_part. rewrite Hfind.
  change (-1 + 1) with 0. rewrite Hfind.
  unfold PyStr.slice. rewrite Z.ltb_irrefl. reflexivity.
Qed.

(** Outside these cases the directive holds the items of the two keys. *)
Lemma extract_block (desc cleaned : string) :
  _clean_description desc = inr cleaned ->
  important_part (PyStr.lower cleaned) <> "" ->
  extract_blocking_info desc
  = {| block_apps :=
         items_of (desc_block_apps (important_part (PyStr.lower cleaned)));
       block_websites :=
         items_of (desc_block_websites (important_part (PyStr.lower cleaned)))
    |}.
Proof.
  intros Hc Hp. unfold extract_blocking_info, extract_try. rewrite Hc.
  apply String.eqb_neq in Hp. rewrite Hp. reflexivity.
Qed.

Lemma items_of_not_nil (value : string) : items_of value <> [].
Proof.
  unfold items_of. intros H. apply map_eq_nil in H.
  exact (PyStrFacts.split_not_nil _ _ H).
Qed.

(** The value of a key found at [i], with the semicolon the code looks for
    at [j]: when what stands between the key and the semicolon is blank,
    nothing is left of it. *)
Lemma value_blank (part key : string) (c : ascii) (key' : string) (i j : Z) :
  key = String c key' -> PyStr.is_space c = false ->
  String.substring (Z.to_nat i) (String.length key) part = key ->
  0 <= i -> i + PyStr.len key <= j -> j <= PyStr.len part ->
  blank (PyStr.slice part (i + PyStr.len key) j) = true ->
  PyStr.strip
    (PyStr.replace ";" "" (PyStr.replace key "" (PyStr.slice part i j))) = "".
Proof.
  intros Hkey Hc Hsub Hi Hj Hlen Hblank.
  rewrite (PyStrFacts.slice_from_key part key i j Hsub Hi); try lia.
  - rewrite PyStrFacts.replace_head by (subst key; discriminate).
    simpl. subst key.
    rewrite (PyStrFacts.replace_blank c key' "" _ Hc Hblank).
    rewrite (PyStrFacts.replace_blank ";" "" "" _ eq_refl Hblank).
    apply PyStrFacts.strip_blank. exact Hblank.
  - subst key. unfold PyStr.len. simpl. lia.
Qed.

Lemma desc_block_apps_blank (part : string) (i j : Z) :
  PyStr.find part "block_apps:" 0 = i -> PyStr.find part ";" 0 = j ->
  0 <= i -> i + 11 <= j ->
  blank (PyStr.slice part (i + 11) j) = true ->
  desc_block_apps part = "".
Proof.
  intros Hi Hj Hpos Hle Hblank. unfold desc_block_apps. rewrite Hi, Hj.
  destruct (PyStrFacts.find_found part "block_apps:" 0 i Hi Hpos)
    as [Hsub _]; [discriminate|].
  destruct (PyStrFacts.find_found part ";" 0 j Hj) as [_ Hfit];
    [lia | discriminate |].
  change (PyStr.len ";") with 1 in Hfit.
  apply (value_blank part "block_apps:" "b" "lock_apps:" i j); auto.
  lia.
Qed.

Lemma desc_block_websites_blank (part : string) (i j : Z) :
  PyStr.find part "block_websites:" 0 = i -> PyStr.find part ";" i = j ->
  0 <= i -> i + 15 <= j ->
  blank (PyStr.slice part (i + 15) j) = true ->
  desc_block_websites part = "".
Proof.
  intros Hi Hj Hpos Hle Hblank. unfold desc_block_websites. rewrite Hi, Hj.
  destruct (PyStrFacts.find_found part "block_websites:" 0 i Hi Hpos)
    as [Hsub _]; [discriminate|].
  destruct (PyStrFacts.find_found part ";" i j Hj) as [_ Hfit];
    [lia | discriminate |].
  change (PyStr.len ";") with 1 in Hfit.
  apply (value_blank part "block_websites:" "b" "lock_websites:" i j); auto.
  lia.
Qed.

(** A character that a key does not hold stands before the key or after
    it. *)
Lemma has_char_middle (c : ascii) (u v : string) :
  has_char c (u ++ String c v) = true.
Proof.
  induction u as [|a u IH]; simpl.
  - rewrite Ascii.eqb_refl. reflexivity.
  - rewrite IH. apply orb_true_r.
Qed.

Lemma key_without_char (s key : string) (c : ascii) (i j : nat) :
  String.substring i (String.length key) s = key ->
  String.substring j 1 s = String c "" ->
  has_char c key = false ->
  (i <= j)%nat -> (i + String.length key <= j)%nat.
Proof.
  intros Hkey Hc Hno Hij.
  destruct (le_lt_dec (i + String.length key) j) as [Hle|Hlt]; [exact Hle|].
  exfalso.
  replace (String.length key)
    with ((j - i) + (1 + (String.length key - (j - i) - 1)))%nat in Hkey
    by lia.
  rewrite !PyStrFacts.substring_split in Hkey.
  replace (i + (j - i))%nat with j in Hkey by lia.
  rewrite Hc in Hkey. simpl append in Hkey.
  rewrite <- Hkey in Hno. rewrite has_char_middle in Hno. discriminate.
Qed.

(** [index] looks from its start on. *)
Lemma index_from (sub s : string) :
  forall n m, String.index n sub s = Some m -> (n <= m)%nat.
Proof.
  induction s as [|a s IH]; intros n m H.
  - destruct n; simpl in H; [lia | discriminate].
  - destruct n as [|n]; [lia|]. simpl in H.
    destruct (String.index n sub s) as [k|] eqn:Hk; [|discriminate].
    injection H as <-. specialize (IH n k Hk). lia.
Qed.

Lemma find_from (s sub : string) (start j : Z) :
  PyStr.find s sub start = j -> 0 <= j -> 0 <= start <= PyStr.len s ->
  start <= j.
Proof.
  unfold PyStr.find. intros Hfind Hj Hstart.
  rewrite PyStrFacts.clamp_inside in Hfind by exact Hstart.
  destruct (String.index (Z.to_nat start) sub s) as [m|] eqn:Hidx; [|lia].
  apply index_from in Hidx. lia.
Qed.

(** Where the keys and the semicolon stand. *)
Lemma semicolon_after_key (part key : string) (i j start : Z) :
  PyStr.find part key 0 = i -> PyStr.find part ";" start = j ->
  0 <= i -> key <> "" -> has_char ";" key = false ->
  i <= j -> i + PyStr.len key <= j.
Proof.
  intros Hi Hj Hpos Hne Hno Hij.
  destruct (PyStrFacts.find_found part key 0 i Hi Hpos Hne) as [Hsub _].
  destruct (PyStrFacts.find_found part ";" start j Hj) as [Hsemi _];
    [lia | discriminate |].
  pose proof (key_without_char part key ";" (Z.to_nat i) (Z.to_nat j)
                Hsub Hsemi Hno ltac:(lia)).
  unfold PyStr.len. lia.
Qed.

(** The first semicolon of the block stands before the key of the
    applications: the slice is empty. *)
Lemma desc_block_apps_semicolon_first (part : string) (i j : Z) :
  PyStr.find part "block_apps:" 0 = i -> PyStr.find part ";" 0 = j ->
  0 <= j -> j < i ->
  desc_block_apps part = "".
Proof.
  intros Hi Hj Hpos Hlt. unfold desc_block_apps. rewrite Hi, Hj.
  destruct (PyStrFacts.find_found part "block_apps:" 0 i Hi) as [_ Hfit];
    [lia | discriminate |].
  change (PyStr.len "block_apps:") with 11 in Hfit.
  unfold PyStr.slice. rewrite !PyStrFacts.clamp_inside by lia.
  replace (i <? j) with false by (symmetry; apply Z.ltb_ge; lia).
  reflexivity.
Qed.

(** C10. Take a description with a block between the markers, in which the
    key of the applications and a semicolon are found. When the first
    semicolon of the block stands before the key, or when what stands
    between the key and that semicolon is empty or white space, the list of
    applications extracted is the list of one empty string. When the key of
    the websites is found, with a semicolon after it, and what stands
    between them is empty or white space, the list of websites extracted is
    the list of one empty string. Neither list is ever empty, so a task
    built from such a description passes [does_block_anything]. *)
Theorem C10_empty_value_is_one_empty_item :
  forall (desc cleaned part : string),
    _clean_description desc = inr cleaned ->
    part = important_part (PyStr.lower cleaned) ->
    part <> "" ->
    (forall i j : Z,
        PyStr.find part "block_apps:" 0 = i -> PyStr.find part ";" 0 = j ->
        0 <= i -> 0 <= j ->
        (i <= j -> blank (PyStr.slice part (i + 11) j) = true) ->
        block_apps (extract_blocking_info desc) = [""])
    /\ (forall i j : Z,
           PyStr.find part "block_websites:" 0 = i ->
           PyStr.find part ";" i = j ->
           0 <= i -> 0 <= j ->
           blank (PyStr.slice part (i + 15) j) = true ->
           block_websites (extract_blocking_info desc) = [""])
    /\ block_apps (extract_blocking_info desc) <> []
    /\ block_websites (extract_blocking_info desc) <> []
    /\ (forall (id : nat) (title : string) (start_time end_time : Z)
               (repetition : option string),
           does_block_anything
             (Task_init id title start_time end_time desc repetition) = true).
Proof.
  intros desc cleaned part Hc Hpart Hne. subst part.
  pose proof (extract_block desc cleaned Hc Hne) as Hex.
  split; [|split; [|split; [|split]]].
  - intros i j Hi Hj Hpos Hsemi Hblank. rewrite Hex. simpl.
    destruct (Z_lt_le_dec j i) as [Hlt|Hle].
    + rewrite (desc_block_apps_semicolon_first _ i j Hi Hj Hsemi Hlt).
      reflexivity.
    + pose proof (semicolon_after_key _ "block_apps:" i j 0 Hi Hj Hpos
                    ltac:(discriminate) eq_refl Hle) as Hkey.
      change (PyStr.len "block_apps:") with 11 in Hkey.
      rewrite (desc_block_apps_blank _ i j Hi Hj Hpos Hkey (Hblank Hle)).
      reflexivity.
  - intros i j Hi Hj Hpos Hsemi Hblank. rewrite Hex. simpl.
    destruct (PyStrFacts.find_found _ "block_websites:" 0 i Hi Hpos)
      as [_ Hfit]; [discriminate|].
    change (PyStr.len "block_websites:") with 15 in Hfit.
    pose proof (find_from _ ";" i j Hj Hsemi ltac:(lia)) as Hle.
    pose proof (semicolon_after_key _ "block_websites:" i j i Hi Hj Hpos
                  ltac:(discriminate) eq_refl Hle) as Hkey.
    change (PyStr.len "block_websites:") with 15 in Hkey.
    rewrite (desc_block_websites_blank _ i j Hi Hj Hpos Hkey Hblank).
    reflexivity.
  - rewrite Hex. apply items_of_not_nil.
  - rewrite Hex. apply items_of_not_nil.
  - intros id ti st en rep. apply does_block_anything_iff.
    unfold Task_init. simpl. rewrite Hex. simpl.
    split; apply items_of_not_nil.
Qed.

End Extraction.

(** The description [block_apps: ;] with the key of the applications
    first, then with the key of the websites first: in both the list of
    applications is the list of one empty string, and the task blocks. *)
Lemma C10_witness :
  extract_blocking_info (libs := plain_text_libs) empty_value_desc
  = {| block_apps := [""]; block_websites := ["x.com"] |}
  /\ block_apps (extract_blocking_info (libs := plain_text_libs)
                   empty_value_desc) = [""]
  /\ does_block_anything
       (Task_init (libs := plain_text_libs) 0 "Focus" 0 100 empty_value_desc
          None) = true
  /\ PyStr.find "block_websites: x.com; block_apps: ;" "block_apps:" 0 = 23
  /\ PyStr.find "block_websites: x.com; block_apps: ;" ";" 0 = 21
  /\ extract_blocking_info (libs := plain_text_libs)
       websites_first_empty_value_desc
     = {| block_apps := [""]; block_websites := ["x.com"] |}
  /\ block_apps (extract_blocking_info (libs := plain_text_libs)
                   websites_first_empty_value_desc) = [""].
Proof.
  split; [reflexivity|].
  destruct (C10_empty_value_is_one_empty_item (libs := plain_text_libs)
              empty_value_desc empty_value_desc
              "block_apps: ; block_websites: x.com;")
    as [Happs [_ [_ [_ Hblocks]]]].
  - reflexivity.
  - reflexivity.
  - discriminate.
  - split; [|split; [|split; [|split; [|split]]]].
    + apply (Happs 0 12);
        [reflexivity | reflexivity | lia | lia | intros _; reflexivity].
    + apply Hblocks.
    + reflexivity.
    + reflexivity.
    + reflexivity.
    + destruct (C10_empty_value_is_one_empty_item (libs := plain_text_libs)
                  websites_first_empty_value_desc
                  websites_first_empty_value_desc
                  "block_websites: x.com; block_apps: ;")
        as [Happs' _].
      * reflexivity.
      * reflexivity.
      * discriminate.
      * apply (Happs' 23 21);
          [reflexivity | reflexivity | lia | lia | intros Hle; lia].
Defined.

(** C5 at a description with one marker only: the second search answers
    [-1], the slice runs from the marker to the last character but one, and
    the directive extracted is not the empty one; the task built from the
    description blocks. *)
Theorem C5_one_marker_is_not_empty :
  PyStr.find one_marker_desc "##blocking" 0 = 0
  /\ PyStr.find one_marker_desc "##blocking" 1 = -1
  /\ important_part one_marker_desc = "block_apps: a; block_websites: b"
  /\ extract_blocking_info (libs := plain_text_libs) one_marker_desc
     = {| block_apps := ["a"]; block_websites := [""] |}
  /\ does_block_anything
       (Task_init (libs := plain_text_libs) 0 "Focus" 0 100 one_marker_desc
          None) = true.
Proof. repeat split; reflexivity. Qed.

(** C6 at the same block with its two keys in either order: with the
    applications first both values are read; with the websites first the
    value of the applications is cut at the first semicolon of the block,
    which stands before the key, and the list of applications is the list
    of one empty string. *)
Theorem C6_key_order_matters :
  extract_blocking_info (libs := plain_text_libs) apps_first_desc
  = {| block_apps := ["a"]; block_websites := ["b.com"] |}
  /\ extract_blocking_info (libs := plain_text_libs) websites_first_desc
     = {| block_apps := [""]; block_websites := ["b.com"] |}
  /\ important_part websites_first_desc
     = "block_websites: b.com; block_apps: a;"
  /\ PyStr.find "block_websites: b.com; block_apps: a;" "block_apps:" 0 = 23
  /\ PyStr.find "block_websites: b.com; block_apps: a;" ";" 0 = 21.
Proof. repeat split; reflexivity. Qed.

(** ** A whole session *)

(** The event [Focus] is blocked at 10:00 and unblocked at 11:01; the
    cleanup unblocks its websites once more when the flag is cleared. *)
Example focus_session_run :
  blocking_info focus_session
  = {| block_apps := ["slack"; "discord"];
       block_websites := ["youtube.com"; "reddit.com"] |}
  /\ main focus_session_env 5 [focus_session] init_world
     = (Ok tt,
        {| trace := [BlockApps ["slack"; "discord"];
                     BlockWebsites ["youtube.com"; "reddit.com"];
                     UnblockWebsites ["youtube.com"; "reddit.com"];
                     UnblockWebsites ["youtube.com"; "reddit.com"]];
           tick := 2; pc := 1 |}).
Proof. split; reflexivity. Qed.

(** ** Further properties of the polling loop *)

Section Passes.
Variable env : Env.

Lemma operation_calm (c : Z) (w : World) :
  calm_pass env (tick w) c -> operation env w = (Ok tt, next_op w).
Proof.
  intros Hcalm. unfold operation. destruct (Hcalm (pc w)) as [-> _].
  reflexivity.
Qed.

Lemma is_active_calm (c : Z) (t : Task) (w : World) :
  calm_pass env (tick w) c ->
  is_active env t w = (Ok (active_at t c), next_op w).
Proof.
  intros Hcalm. unfold is_active, bind, datetime_now, ret.
  destruct (Hcalm (pc w)) as [-> ->]. reflexivity.
Qed.

Lemma block_apps_calm (c : Z) (l : list string) (w : World) :
  calm_pass env (tick w) c ->
  Blocker_block_apps env l w = (Ok tt, next_op (log (BlockApps l) w)).
Proof.
  intros Hcalm. unfold Blocker_block_apps.
  destruct (Hcalm (pc w)) as [-> _]. reflexivity.
Qed.

Lemma block_websites_calm (c : Z) (l : list string) (w : World) :
  calm_pass env (tick w) c ->
  Blocker_block_websites env l w = (Ok tt, next_op (log (BlockWebsites l) w)).
Proof.
  intros Hcalm. unfold Blocker_block_websites.
  destruct (Hcalm (pc w)) as [-> _]. reflexivity.
Qed.

Lemma unblock_websites_calm (c : Z) (l : list string) (w : World) :
  calm_pass env (tick w) c ->
  Blocker_unblock_websites env l w
  = (Ok tt, next_op (log (UnblockWebsites l) w)).
Proof.
  intros Hcalm. unfold Blocker_unblock_websites.
  destruct (Hcalm (pc w)) as [-> _]. reflexivity.
Qed.

(** In a calm pass the lookup is a search of the registry from its head. *)
Lemma get_active_task_calm (c : Z) (tasks : list Task) :
  forall w,
    calm_pass env (tick w) c ->
    exists w',
      get_active_task env tasks w = (Ok (found_at c tasks), w')
      /\ tick w' = tick w /\ trace w' = trace w.
Proof.
  induction tasks as [|task rest IH]; intros w Hcalm; simpl.
  - exists w. repeat split.
  - unfold bind. rewrite (is_active_calm c task w Hcalm).
    destruct (active_at task c && does_block_anything task).
    + exists (next_op w). repeat split.
    + destruct (IH (next_op w) Hcalm) as [w' [Hrun [Ht Htr]]].
      exists w'. repeat split; assumption.
Qed.

End Passes.

(** X1. In a pass where no operation fails and the clock does not move,
    [get_active_task] returns the first task, in the order of the registry,
    that is active and blocks, and [None] when there is none; it makes no
    call to the backend. *)
Theorem get_active_task_first_match :
  forall (env : Env) (tasks : list Task) (w : World) (c : Z),
    calm_pass env (tick w) c ->
    fst (get_active_task env tasks w)
    = Ok (List.find
            (fun task => active_at task c && does_block_anything task) tasks)
    /\ trace (snd (get_active_task env tasks w)) = trace w.
Proof.
  intros env tasks w c Hcalm.
  destruct (get_active_task_calm env c tasks w Hcalm) as [w' [Hrun [_ Htr]]].
  rewrite Hrun. split; [reflexivity | exact Htr].
Qed.

(** At 15 both events of [overlap_registry] are active: the short one,
    first in the registry, is returned. *)
Lemma get_active_task_first_match_witness :
  active_at long_task 15 = true
  /\ fst (get_active_task overlap_env overlap_registry after_first_pass)
     = Ok (Some short_task)
  /\ (fst (get_active_task overlap_env overlap_registry after_first_pass)
      = Ok (List.find
              (fun task => active_at task 15 && does_block_anything task)
              overlap_registry)
      /\ trace (snd (get_active_task overlap_env overlap_registry
                       after_first_pass))
         = trace after_first_pass).
Proof.
  split; [reflexivity|]. split; [reflexivity|].
  apply (get_active_task_first_match overlap_env overlap_registry
           after_first_pass 15).
  intros p. split; reflexivity.
Defined.

(** X2. From the idle state, in a pass where no operation fails and the
    clock does not move: when a task is active and blocks, the pass calls
    [block_apps] then [block_websites] with the lists of the first such task
    and tracks it; when none is, the pass makes no call and stays idle. *)
Theorem pass_from_idle :
  forall (env : Env) (tasks : list Task) (w : World) (c : Z),
    calm_pass env (tick w) c ->
    exists w',
      loop_body env tasks None w = (Ok (found_at c tasks), w')
      /\ trace w'
         = trace w
           ++ match found_at c tasks with
              | Some b => [BlockApps (block_apps (blocking_info b));
                           BlockWebsites (block_websites (blocking_info b))]
              | None => []
              end.
Proof.
  intros env tasks w c Hcalm.
  unfold loop_body, bind, py_print, time_sleep.
  rewrite (operation_calm env c w Hcalm).
  destruct (get_active_task_calm env c tasks (next_op w) Hcalm)
    as [w1 [Hrun [Ht Htr]]].
  rewrite Hrun.
  assert (Hcalm1 : calm_pass env (tick w1) c) by (rewrite Ht; exact Hcalm).
  destruct (found_at c tasks) as [b|]; simpl.
  - rewrite (operation_calm env c w1 Hcalm1).
    rewrite (block_apps_calm env c) by exact Hcalm1.
    rewrite (block_websites_calm env c) by exact Hcalm1.
    unfold ret. rewrite (operation_calm env c) by exact Hcalm1.
    eexists. split; [reflexivity|]. simpl.
    rewrite Htr, <- app_assoc. reflexivity.
  - unfold ret. rewrite (operation_calm env c w1 Hcalm1).
    eexists. split; [reflexivity|]. simpl.
    rewrite Htr, app_nil_r. reflexivity.
Qed.

(** The first pass of the run of [overlap_env]: only the long event is
    active at 5. *)
Lemma pass_from_idle_witness :
  found_at 5 overlap_registry = Some long_task
  /\ exists w',
       loop_body overlap_env overlap_registry None init_world
       = (Ok (found_at 5 overlap_registry), w')
       /\ trace w'
          = trace init_world
            ++ match found_at 5 overlap_registry with
               | Some b => [BlockApps (block_apps (blocking_info b));
                            BlockWebsites (block_websites (blocking_info b))]
               | None => []
               end.
Proof.
  split; [reflexivity|].
  apply (pass_from_idle overlap_env overlap_registry init_world 5).
  intros p. split; reflexivity.
Defined.

(** X3. While the tracked task is the first task that is active and blocks,
    a pass where no operation fails and the clock does not move calls
    [block_apps] with its applications, makes no other call (the websites
    are not blocked again), and keeps tracking it. *)
Theorem pass_in_steady_state :
  forall (env : Env) (tasks : list Task) (A : Task) (w : World) (c : Z),
    calm_pass env (tick w) c ->
    found_at c tasks = Some A ->
    exists w',
      loop_body env tasks (Some A) w = (Ok (Some A), w')
      /\ trace w' = trace w ++ [BlockApps (block_apps (blocking_info A))].
Proof.
  intros env tasks A w c Hcalm Hfound.
  assert (Hact : active_at A c = true).
  { unfold found_at in Hfound. apply find_some in Hfound.
    destruct Hfound as [_ H]. apply andb_true_iff in H. apply H. }
  unfold loop_body, bind, py_print, time_sleep.
  rewrite (operation_calm env c w Hcalm).
  destruct (get_active_task_calm env c tasks (next_op w) Hcalm)
    as [w1 [Hrun [Ht Htr]]].
  rewrite Hrun, Hfound.
  assert (Hcalm1 : calm_pass env (tick w1) c) by (rewrite Ht; exact Hcalm).
  unfold task_ne, task_eq. rewrite Nat.eqb_refl. simpl. unfold bind.
  rewrite (is_active_calm env c A w1 Hcalm1), Hact. simpl.
  rewrite (block_apps_calm env c) by exact Hcalm1.
  unfold ret. rewrite (operation_calm env c) by exact Hcalm1.
  eexists. split; [reflexivity|]. simpl.
  rewrite Htr. reflexivity.
Qed.

(** The long event is tracked and still the only one active at 5. *)
Lemma pass_in_steady_state_witness :
  exists w',
    loop_body overlap_env overlap_registry (Some long_task) init_world
    = (Ok (Some long_task), w')
    /\ trace w'
       = trace init_world ++ [BlockApps (block_apps (blocking_info long_task))].
Proof.
  apply (pass_in_steady_state overlap_env overlap_registry long_task
           init_world 5).
  - intros p. split; reflexivity.
  - reflexivity.
Defined.

(** X4. When the window of the tracked task is over and no task is active
    and blocks, a pass where no operation fails and the clock does not move
    calls [unblock_websites] with the websites of the tracked task, makes no
    other call, and goes back to the idle state. *)
Theorem pass_after_window :
  forall (env : Env) (tasks : list Task) (A : Task) (w : World) (c : Z),
    calm_pass env (tick w) c ->
    found_at c tasks = None ->
    active_at A c = false ->
    exists w',
      loop_body env tasks (Some A) w = (Ok None, w')
      /\ trace w'
         = trace w ++ [UnblockWebsites (block_websites (blocking_info A))].
Proof.
  intros env tasks A w c Hcalm Hfound Hact.
  unfold loop_body, bind, py_print, time_sleep.
  rewrite (operation_calm env c w Hcalm).
  destruct (get_active_task_calm env c tasks (next_op w) Hcalm)
    as [w1 [Hrun [Ht Htr]]].
  rewrite Hrun, Hfound.
  assert (Hcalm1 : calm_pass env (tick w1) c) by (rewrite Ht; exact Hcalm).
  simpl. unfold bind.
  rewrite (is_active_calm env c A w1 Hcalm1), Hact. simpl.
  unfold py_print. rewrite (operation_calm env c) by exact Hcalm1.
  rewrite (unblock_websites_calm env c) by exact Hcalm1.
  unfold ret. rewrite (operation_calm env c) by exact Hcalm1.
  eexists. split; [reflexivity|]. simpl.
  rewrite Htr. reflexivity.
Qed.

(** The fourth pass of the run of [overlap_env], at 105: both windows are
    over and the long event is tracked. *)
Lemma pass_after_window_witness :
  exists w',
    loop_body overlap_env overlap_registry (Some long_task)
      {| trace := []; tick := 3; pc := 0 |}
    = (Ok None, w')
    /\ trace w'
       = trace {| trace := []; tick := 3; pc := 0 |}
         ++ [UnblockWebsites (block_websites (blocking_info long_task))].
Proof.
  apply (pass_after_window overlap_env overlap_registry long_task
           {| trace := []; tick := 3; pc := 0 |} 105).
  - intros p. split; reflexivity.
  - reflexivity.
  - reflexivity.
Defined.

Section Registry.
Variable env : Env.
Variable tasks : list Task.

Lemma quiet_emits {A : Type} (allowed : Event -> Prop) (c : M A) :
  quiet allowed c -> emits allowed c.
Proof. intros H w. destruct (H w) as [_ [_ Hev]]. exact Hev. Qed.

Lemma quiet_bind_returns {A B : Type} (allowed : Event -> Prop)
    (P : A -> Prop) (c : M A) (f : A -> M B) :
  quiet allowed c -> returns P c -> (forall a, P a -> quiet allowed (f a)) ->
  quiet allowed (bind c f).
Proof.
  intros Hc Hp Hf w. unfold bind.
  destruct (Hc w) as [Ht [Hr [evs [Htr Hall]]]].
  specialize (Hp w).
  destruct (c w) as [[a|e|] w1]; simpl in *.
  - destruct (Hf a (Hp a eq_refl) w1) as [Ht2 [Hr2 [evs2 [Htr2 Hall2]]]].
    split; [congruence|]. split; [assumption|].
    exists (evs ++ evs2). split.
    + rewrite Htr2, Htr, app_assoc. reflexivity.
    + apply Forall_app. split; assumption.
  - split; [assumption|]. split; [discriminate|]. exists evs. auto.
  - contradiction.
Qed.

Lemma returns_ret {A : Type} (P : A -> Prop) (a : A) : P a -> returns P (ret a).
Proof. intros Ha w a' H. injection H as <-. exact Ha. Qed.

Lemma returns_bind {A B : Type} (P : A -> Prop) (Q : B -> Prop) (c : M A)
    (f : A -> M B) :
  returns P c -> (forall a, P a -> returns Q (f a)) -> returns Q (bind c f).
Proof.
  intros Hc Hf w b. unfold bind. specialize (Hc w).
  destruct (c w) as [[a|e|] w1]; simpl in *; try discriminate.
  apply Hf. apply Hc. reflexivity.
Qed.

Lemma returns_any {A : Type} (c : M A) : returns (fun _ => True) c.
Proof. intros w a _. exact I. Qed.

Lemma returns_get_active_task :
  returns (tracked_ok tasks) (get_active_task env tasks).
Proof.
  intros w r Hr. destruct r as [t|]; [|exact I].
  destruct (get_active_task env tasks w) as [r' w'] eqn:Hrun.
  simpl in Hr. subst r'. exact (get_active_task_sound env tasks w t w' Hrun).
Qed.

Lemma quiet_elif_registry (current_task : option Task) :
  tracked_ok tasks current_task ->
  quiet (registry_event tasks) (elif_branches env current_task).
Proof.
  intros Hok. destruct current_task as [current|]; simpl; [|apply quiet_ret].
  destruct Hok as [Hin Hblocks].
  apply quiet_bind; [apply quiet_is_active|].
  intros active. destruct (negb active).
  - apply quiet_bind; [apply quiet_operation|]. intros _.
    apply quiet_bind; [|intros _; apply quiet_ret].
    apply quiet_unblock_websites. simpl. exists current. auto.
  - apply quiet_bind; [|intros _; apply quiet_ret].
    apply quiet_block_apps. simpl. exists current. auto.
Qed.

Lemma returns_elif_branches (current_task : option Task) :
  tracked_ok tasks current_task ->
  returns (tracked_ok tasks) (elif_branches env current_task).
Proof.
  intros Hok. destruct current_task as [current|]; simpl;
    [|apply returns_ret; exact I].
  apply (returns_bind (fun _ => True)); [apply returns_any|].
  intros active _. destruct (negb active).
  - apply (returns_bind (fun _ => True)); [apply returns_any|]. intros _ _.
    apply (returns_bind (fun _ => True)); [apply returns_any|]. intros _ _.
    apply returns_ret. exact I.
  - apply (returns_bind (fun _ => True)); [apply returns_any|]. intros _ _.
    apply returns_ret. exact Hok.
Qed.

Lemma quiet_loop_body_registry (current_task : option Task) :
  tracked_ok tasks current_task ->
  quiet (registry_event tasks) (loop_body env tasks current_task).
Proof.
  intros Hok. unfold loop_body.
  apply quiet_bind; [apply quiet_operation|]. intros _.
  apply (quiet_bind_returns (registry_event tasks) (tracked_ok tasks));
    [apply quiet_get_active_task | apply returns_get_active_task |].
  intros active_task Hact.
  apply quiet_bind.
  - destruct active_task as [active|]; [|apply quiet_elif_registry; exact Hok].
    destruct (task_ne active current_task);
      [|apply quiet_elif_registry; exact Hok].
    destruct Hact as [Hin Hblocks].
    apply quiet_bind; [apply quiet_operation|]. intros _.
    apply quiet_bind;
      [apply quiet_block_apps; simpl; exists active; auto|]. intros _.
    apply quiet_bind;
      [apply quiet_block_websites; simpl; exists active; auto|]. intros _.
    apply quiet_ret.
  - intros cur. apply quiet_bind; [apply quiet_operation|]. intros _.
    apply quiet_ret.
Qed.

Lemma returns_loop_body (current_task : option Task) :
  tracked_ok tasks current_task ->
  returns (tracked_ok tasks) (loop_body env tasks current_task).
Proof.
  intros Hok. unfold loop_body.
  apply (returns_bind (fun _ => True)); [apply returns_any|]. intros _ _.
  apply (returns_bind (tracked_ok tasks)); [apply returns_get_active_task|].
  intros active_task Hact.
  apply (returns_bind (tracked_ok tasks)).
  - destruct active_task as [active|];
      [|apply returns_elif_branches; exact Hok].
    destruct (task_ne active current_task);
      [|apply returns_elif_branches; exact Hok].
    apply (returns_bind (fun _ => True)); [apply returns_any|]. intros _ _.
    apply (returns_bind (fun _ => True)); [apply returns_any|]. intros _ _.
    apply (returns_bind (fun _ => True)); [apply returns_any|]. intros _ _.
    apply returns_ret. exact Hact.
  - intros cur Hcur.
    apply (returns_bind (fun _ => True)); [apply returns_any|]. intros _ _.
    apply returns_ret. exact Hcur.
Qed.

Lemma emits_while_RUNNING :
  forall fuel current_task,
    tracked_ok tasks current_task ->
    emits (registry_event tasks) (while_RUNNING env fuel tasks current_task).
Proof.
  induction fuel as [|fuel IH]; intros cur Hok w; simpl.
  - destruct (RUNNING env (tick w)); simpl; exists [];
      rewrite app_nil_r; split; (reflexivity || constructor).
  - destruct (RUNNING env (tick w));
      [|simpl; exists []; rewrite app_nil_r; split;
        (reflexivity || constructor)].
    destruct (quiet_loop_body_registry cur Hok w) as [_ [_ [evs [Htr Hall]]]].
    pose proof (returns_loop_body cur Hok w) as Hret.
    destruct (loop_body env tasks cur w) as [[cur'|e|] w1]; simpl in *.
    + destruct (IH cur' (Hret cur' eq_refl) (next_tick w1))
        as [evs2 [Htr2 Hall2]].
      exists (evs ++ evs2). split.
      * rewrite Htr2. simpl. rewrite Htr, app_assoc. reflexivity.
      * apply Forall_app. split; assumption.
    + exists evs. auto.
    + exists evs. auto.
Qed.

Lemma emits_unblock_all_tasks (some : list Task) :
  incl some tasks ->
  emits (registry_event tasks) (unblock_all_tasks env some).
Proof.
  induction some as [|t rest IH]; intros Hincl; simpl.
  - apply quiet_emits, quiet_ret.
  - intros w. unfold bind.
    assert (Hq : quiet (registry_event tasks)
                   (Blocker_unblock_websites env
                      (block_websites (blocking_info t)))).
    { apply quiet_unblock_websites. simpl. exists t. split; [|reflexivity].
      apply Hincl. left. reflexivity. }
    destruct (Hq w) as [_ [_ [evs [Htr Hall]]]].
    destruct (Blocker_unblock_websites env _ w) as [[[]|e|] w1]; simpl in *.
    + destruct (IH (fun x Hx => Hincl x (or_intror Hx)) w1)
        as [evs2 [Htr2 Hall2]].
      exists (evs ++ evs2). split.
      * rewrite Htr2, Htr, app_assoc. reflexivity.
      * apply Forall_app. split; assumption.
    + exists evs. auto.
    + exists evs. auto.
Qed.

(** The body of the [try] of [main]. *)
Lemma emits_try_body (fuel : nat) :
  emits (registry_event tasks)
    (bind (while_RUNNING env fuel tasks None)
       (fun _ => unblock_all_tasks env tasks)).
Proof.
  intros w. unfold bind.
  destruct (emits_while_RUNNING fuel None I w) as [evs [Htr Hall]].
  destruct (while_RUNNING env fuel tasks None w) as [[[]|e|] w1]; simpl in *.
  - destruct (emits_unblock_all_tasks tasks (incl_refl tasks) w1)
      as [evs2 [Htr2 Hall2]].
    exists (evs ++ evs2). split.
    + rewrite Htr2, Htr, app_assoc. reflexivity.
    + apply Forall_app. split; assumption.
  - exists evs. auto.
  - exists evs. auto.
Qed.

Lemma emits_main (fuel : nat) :
  emits (registry_event tasks) (main env fuel tasks).
Proof.
  intros w. unfold main, try_except_Exception.
  destruct (emits_try_body fuel w) as [evs [Htr Hall]].
  destruct (bind (while_RUNNING env fuel tasks None)
              (fun _ => unblock_all_tasks env tasks) w) as [[[]|e|] w1];
    simpl in *.
  - exists evs. auto.
  - destruct (is_Exception e); [|exists evs; auto].
    destruct (emits_unblock_all_tasks tasks (incl_refl tasks) w1)
      as [evs2 [Htr2 Hall2]].
    exists (evs ++ evs2). split.
    + rewrite Htr2, Htr, app_assoc. reflexivity.
    + apply Forall_app. split; assumption.
  - exists evs. auto.
Qed.

(** When the cleanup returns, it has made its calls, one for each task. *)
Lemma unblock_all_tasks_ok (some : list Task) :
  forall w w',
    unblock_all_tasks env some w = (Ok tt, w') ->
    trace w' = trace w ++ cleanup_events some.
Proof.
  induction some as [|t rest IH]; intros w w' H; simpl in *.
  - unfold ret in H. injection H as <-. rewrite app_nil_r. reflexivity.
  - unfold bind, Blocker_unblock_websites in H.
    destruct (fault env (tick w) (pc w)) as [e|].
    + destruct (is_Exception e); [|discriminate].
      apply IH in H. rewrite H. simpl. rewrite <- app_assoc. reflexivity.
    + apply IH in H. rewrite H. simpl. rewrite <- app_assoc. reflexivity.
Qed.

End Registry.

(** X5. Whatever the clock, the flag and the failures, every call [main]
    makes to the backend carries a list of a task of the registry:
    [block_apps] and [block_websites] are called only with the lists of a
    task that blocks, [unblock_websites] only with the websites of a task. *)
Theorem main_calls_name_registry_tasks :
  forall (env : Env) (tasks : list Task) (fuel : nat),
    Forall (registry_event tasks)
           (trace (snd (main env fuel tasks init_world))).
Proof.
  intros env tasks fuel.
  destruct (emits_main env tasks fuel init_world) as [evs [Htr Hall]].
  rewrite Htr. exact Hall.
Qed.

(** When [main] returns, its calls end with those of the cleanup, and the
    calls before them name tasks of the registry. *)
Lemma main_returns_trace (env : Env) (tasks : list Task) (fuel : nat)
    (w' : World) :
  main env fuel tasks init_world = (Ok tt, w') ->
  exists before,
    trace w' = before ++ cleanup_events tasks
    /\ Forall (registry_event tasks) before.
Proof.
  intros Hmain.
  unfold main, try_except_Exception in Hmain.
  destruct (emits_try_body env tasks fuel init_world) as [evs [Htr Hall]].
  unfold bind in Hmain, Htr.
  destruct (emits_while_RUNNING env tasks fuel None I init_world)
    as [evs0 [Htr0 Hall0]].
  destruct (while_RUNNING env fuel tasks None init_world)
    as [[[]|e|] w1]; simpl in *.
  - destruct (unblock_all_tasks env tasks w1) as [[[]|e|] w2] eqn:Hclean.
    + injection Hmain as <-. exists evs0. split; [|exact Hall0].
      rewrite (unblock_all_tasks_ok env tasks w1 w2 Hclean), Htr0.
      reflexivity.
    + destruct (is_Exception e); [|discriminate].
      exists evs. split; [|exact Hall].
      rewrite (unblock_all_tasks_ok env tasks w2 w' Hmain). simpl in Htr.
      rewrite Htr. reflexivity.
    + discriminate.
  - destruct (is_Exception e); [|discriminate].
    exists evs0. split; [|exact Hall0].
    rewrite (unblock_all_tasks_ok env tasks w1 w' Hmain), Htr0.
    reflexivity.
  - discriminate.
Qed.

(** X6. When [main] returns, the calls it made end with the calls of the
    cleanup, and every list of websites that [block_websites] was called
    with is unblocked by one of them: no call that blocks websites is left
    without a later call that unblocks the same list. *)
Theorem main_returns_with_websites_unblocked :
  forall (env : Env) (tasks : list Task) (fuel : nat) (w' : World),
    main env fuel tasks init_world = (Ok tt, w') ->
    exists before,
      trace w' = before ++ cleanup_events tasks
      /\ forall l, In (BlockWebsites l) (trace w') ->
                   In (BlockWebsites l) before
                   /\ In (UnblockWebsites l) (cleanup_events tasks).
Proof.
  intros env tasks fuel w' Hmain.
  destruct (main_returns_trace env tasks fuel w' Hmain)
    as [before [Htr Hreg]].
  exists before. split; [exact Htr|].
  intros l Hin. rewrite Htr in Hin. apply in_app_or in Hin.
  destruct Hin as [Hin | Hin].
  - split; [exact Hin|].
    rewrite Forall_forall in Hreg. destruct (Hreg _ Hin) as [t [Ht [_ ->]]].
    unfold cleanup_events.
    apply (in_map (fun task =>
                     UnblockWebsites (block_websites (blocking_info task)))).
    exact Ht.
  - unfold cleanup_events in Hin. apply in_map_iff in Hin.
    destruct Hin as [t [Heq _]]. discriminate.
Qed.

(** The run of [overlap_env]: both lists that were blocked are unblocked by
    the cleanup. *)
Lemma main_returns_with_websites_unblocked_witness :
  exists before,
    [BlockApps ["a"]; BlockWebsites ["a.com"];
     BlockApps ["b"]; BlockWebsites ["b.com"];
     BlockApps ["a"]; BlockWebsites ["a.com"];
     UnblockWebsites ["a.com"];
     UnblockWebsites ["b.com"]; UnblockWebsites ["a.com"]]
    = before ++ cleanup_events overlap_registry
    /\ forall l,
         In (BlockWebsites l)
            [BlockApps ["a"]; BlockWebsites ["a.com"];
             BlockApps ["b"]; BlockWebsites ["b.com"];
             BlockApps ["a"]; BlockWebsites ["a.com"];
             UnblockWebsites ["a.com"];
             UnblockWebsites ["b.com"]; UnblockWebsites ["a.com"]] ->
         In (BlockWebsites l) before
         /\ In (UnblockWebsites l) (cleanup_events overlap_registry).
Proof.
  apply (main_returns_with_websites_unblocked overlap_env overlap_registry 10
           {| trace := [BlockApps ["a"]; BlockWebsites ["a.com"];
                        BlockApps ["b"]; BlockWebsites ["b.com"];
                        BlockApps ["a"]; BlockWebsites ["a.com"];
                        UnblockWebsites ["a.com"];
                        UnblockWebsites ["b.com"]; UnblockWebsites ["a.com"]];
              tick := 4; pc := 2 |}).
  reflexivity.
Defined.

(** X7. The flag is looked at by the test of the [while] only: when the
    loop returns, the test that ended it read the flag as cleared, and
    every earlier test of the run read it as set, one pass for each. *)
Theorem while_RUNNING_stops_at_first_cleared_flag :
  forall (env : Env) (fuel : nat) (tasks : list Task)
         (current_task : option Task) (w w' : World),
    while_RUNNING env fuel tasks current_task w = (Ok tt, w') ->
    RUNNING env (tick w') = false
    /\ (tick w <= tick w')%nat
    /\ forall k, (tick w <= k < tick w')%nat -> RUNNING env k = true.
Proof.
  intros env fuel tasks.
  induction fuel as [|fuel IH]; intros cur w w' H; simpl in H.
  - destruct (RUNNING env (tick w)) eqn:Hrun; [discriminate|].
    injection H as <-. split; [exact Hrun|]. split; [lia|]. intros k Hk. lia.
  - destruct (RUNNING env (tick w)) eqn:Hrun.
    + destruct (quiet_loop_body env tasks cur w) as [Ht _].
      destruct (loop_body env tasks cur w) as [[cur'|e|] w1];
        try discriminate.
      simpl in Ht. apply IH in H. simpl in H. rewrite Ht in H.
      destruct H as [Hstop [Hle Hall]].
      split; [exact Hstop|]. split; [lia|].
      intros k Hk. destruct (Nat.eq_dec k (tick w)) as [-> | Hne];
        [exact Hrun | apply Hall; lia].
    + injection H as <-. split; [exact Hrun|]. split; [lia|].
      intros k Hk. lia.
Qed.

(** The run of [overlap_env]: four passes, the fifth test reads the flag
    as cleared. *)
Lemma while_RUNNING_stops_at_first_cleared_flag_witness :
  RUNNING overlap_env 4 = false
  /\ (0 <= 4)%nat
  /\ forall k, (0 <= k < 4)%nat -> RUNNING overlap_env k = true.
Proof.
  apply (while_RUNNING_stops_at_first_cleared_flag overlap_env 10
           overlap_registry None init_world
           {| trace := [BlockApps ["a"]; BlockWebsites ["a.com"];
                        BlockApps ["b"]; BlockWebsites ["b.com"];
                        BlockApps ["a"]; BlockWebsites ["a.com"];
                        UnblockWebsites ["a.com"]];
              tick := 4; pc := 0 |}).
  reflexivity.
Defined.

(** ** Further facts on the methods of [str] *)

Module PyStrMore.

Lemma substring_all (s : string) : String.substring 0 (String.length s) s = s.
Proof. induction s as [|c s IH]; simpl; [|rewrite IH]; reflexivity. Qed.

Lemma substring_at_append (pre sub post : string) :
  String.substring (String.length pre) (String.length sub) (pre ++ sub ++ post)
  = sub.
Proof.
  induction pre as [|c pre IH]; simpl; [|exact IH].
  induction sub as [|c sub IHs]; simpl.
  - destruct post; reflexivity.
  - rewrite IHs. reflexivity.
Qed.

(** [sub in s] holds exactly when [s] is some text, then [sub], then some
    text. *)
Lemma str_in_occurs (sub s : string) :
  sub <> "" ->
  (str_in sub s = true <-> exists pre post, s = (pre ++ sub ++ post)%string).
Proof.
  intros Hne. unfold str_in. split.
  - destruct (String.index 0 sub s) as [m|] eqn:Hidx; [|discriminate].
    intros _.
    pose proof (String.index_correct1 0 m sub s Hidx) as Hsub.
    pose proof (PyStrFacts.index_fits 0 m sub s Hidx Hne) as Hfit.
    exists (String.substring 0 m s),
           (String.substring (m + String.length sub)
              (String.length s - (m + String.length sub)) s).
    rewrite <- (substring_all s) at 1.
    replace (String.length s)
      with (m + (String.length sub
                 + (String.length s - (m + String.length sub))))%nat
      at 1 by lia.
    rewrite (PyStrFacts.substring_split s 0 m). simpl Nat.add.
    rewrite (PyStrFacts.substring_split s m (String.length sub)).
    rewrite Hsub. reflexivity.
  - intros [pre [post ->]].
    destruct (String.index 0 sub (pre ++ sub ++ post)) as [m|] eqn:Hidx;
      [reflexivity|].
    exfalso.
    apply (String.index_correct3 0 (String.length pre) sub _ Hidx Hne);
      [lia|].
    apply substring_at_append.
Qed.

Lemma has_char_append (c : ascii) (u t : string) :
  has_char c (u ++ t) = has_char c u || has_char c t.
Proof.
  induction u as [|a u IH]; simpl; [reflexivity|].
  rewrite IH, orb_assoc. reflexivity.
Qed.

(** What [replace] gives holds a character only if the text or the
    replacement does. *)
Lemma has_char_replace_from (c : ascii) (old new : string) (s : string) :
  forall k,
    has_char c (PyStr.replace_from old new k s) = true ->
    has_char c s = true \/ has_char c new = true.
Proof.
  induction s as [|a s IH]; intros k H; [destruct k; discriminate|].
  cbn [PyStr.replace_from] in H. cbn [has_char].
  destruct k as [|k].
  - destruct (String.prefix old (String a s)).
    + rewrite has_char_append in H. apply orb_true_iff in H.
      destruct H as [H | H]; [right; exact H|].
      apply IH in H. destruct H as [H | H]; [left | right; exact H].
      rewrite H. apply orb_true_r.
    + cbn [has_char] in H. apply orb_true_iff in H. destruct H as [H | H].
      * left. rewrite H. reflexivity.
      * apply IH in H. destruct H as [H | H]; [left | right; exact H].
        rewrite H. apply orb_true_r.
  - apply IH in H. destruct H as [H | H]; [left | right; exact H].
    rewrite H. apply orb_true_r.
Qed.

Lemma prefix_nil (s : string) : String.prefix "" s = true.
Proof. destruct s; reflexivity. Qed.

(** [replace] of one character by a text that does not hold it leaves
    none. *)
Lemma replace_char_gone (c : ascii) (new s : string) :
  has_char c new = false ->
  has_char c (PyStr.replace (String c "") new s) = false.
Proof.
  intros Hnew. unfold PyStr.replace.
  induction s as [|a s IH]; [reflexivity|].
  cbn [PyStr.replace_from]. simpl String.prefix.
  destruct (ascii_dec c a) as [-> | Hne].
  - rewrite prefix_nil. simpl String.length. simpl Nat.sub.
    rewrite has_char_append, Hnew, IH. reflexivity.
  - simpl. rewrite IH.
    replace (Ascii.eqb a c) with false; [reflexivity|].
    symmetry. apply Ascii.eqb_neq. congruence.
Qed.

Lemma has_char_lstrip (c : ascii) (s : string) :
  has_char c (PyStr.lstrip s) = true -> has_char c s = true.
Proof.
  induction s as [|a s IH]; simpl; [discriminate|].
  destruct (PyStr.is_space a); [|exact (fun H => H)].
  intros H. rewrite (IH H). apply orb_true_r.
Qed.

Lemma has_char_rstrip (c : ascii) (s : string) :
  has_char c (PyStr.rstrip s) = true -> has_char c s = true.
Proof.
  induction s as [|a s IH]; simpl; [discriminate|].
  destruct (PyStr.rstrip s) as [|b r].
  - destruct (PyStr.is_space a); simpl; [discriminate|].
    rewrite orb_false_r. intros ->. reflexivity.
  - simpl in *. intros H. apply orb_true_iff in H. destruct H as [-> | H].
    + reflexivity.
    + rewrite (IH H). apply orb_true_r.
Qed.

Lemma has_char_strip (c : ascii) (s : string) :
  has_char c (PyStr.strip s) = true -> has_char c s = true.
Proof.
  unfold PyStr.strip. intros H.
  apply has_char_lstrip, has_char_rstrip. exact H.
Qed.

(** The pieces of [split] hold nothing the text does not hold, and not the
    separator. *)
Lemma has_char_split (c sep : ascii) (s : string) :
  forall x, In x (PyStr.split sep s) ->
            has_char sep x = false
            /\ (has_char c x = true -> has_char c s = true).
Proof.
  induction s as [|a s IH]; intros x Hin; simpl in Hin.
  - destruct Hin as [<- | []]. split; [reflexivity | discriminate].
  - destruct (Ascii.eqb a sep) eqn:Ha.
    + destruct Hin as [<- | Hin].
      * split; [reflexivity | discriminate].
      * destruct (IH x Hin) as [H1 H2]. split; [exact H1|].
        intros H. simpl. rewrite (H2 H). apply orb_true_r.
    + destruct (PyStr.split sep s) as [|h t] eqn:Hs.
      * exfalso. exact (PyStrFacts.split_not_nil sep s Hs).
      * destruct Hin as [<- | Hin].
        -- destruct (IH h (or_introl eq_refl)) as [H1 H2]. split.
           ++ simpl. rewrite Ha, H1. reflexivity.
           ++ simpl. intros H. apply orb_true_iff in H.
              destruct H as [-> | H]; [reflexivity|].
              rewrite (H2 H). apply orb_true_r.
        -- destruct (IH x (or_intror Hin)) as [H1 H2]. split; [exact H1|].
           intros H. simpl. rewrite (H2 H). apply orb_true_r.
Qed.

Lemma lower_char_idem (a : ascii) :
  PyStr.lower_char (PyStr.lower_char a) = PyStr.lower_char a.
Proof. destruct a as [[] [] [] [] [] [] [] []]; reflexivity. Qed.

Lemma is_space_lower_char (a : ascii) :
  PyStr.is_space (PyStr.lower_char a) = PyStr.is_space a.
Proof. destruct a as [[] [] [] [] [] [] [] []]; reflexivity. Qed.

Lemma lower_idem (s : string) : PyStr.lower (PyStr.lower s) = PyStr.lower s.
Proof.
  induction s as [|a s IH]; simpl; [reflexivity|].
  rewrite lower_char_idem, IH. reflexivity.
Qed.

(** A character that no letter is lowered to occurs in [s.lower()] only if
    it occurs in [s]. *)
Lemma has_char_lower (c : ascii) (s : string) :
  (forall a, PyStr.lower_char a = c -> a = c) ->
  has_char c (PyStr.lower s) = true -> has_char c s = true.
Proof.
  intros Hc. induction s as [|a s IH]; simpl; [discriminate|].
  intros H. apply orb_true_iff in H. destruct H as [H | H].
  - apply Ascii.eqb_eq in H. apply Hc in H. subst a.
    rewrite Ascii.eqb_refl. reflexivity.
  - rewrite (IH H). apply orb_true_r.
Qed.

Lemma lstrip_lower (s : string) :
  PyStr.lstrip (PyStr.lower s) = PyStr.lower (PyStr.lstrip s).
Proof.
  induction s as [|a s IH]; simpl; [reflexivity|].
  rewrite is_space_lower_char. destruct (PyStr.is_space a);
    [exact IH | reflexivity].
Qed.

Lemma rstrip_lower (s : string) :
  PyStr.rstrip (PyStr.lower s) = PyStr.lower (PyStr.rstrip s).
Proof.
  induction s as [|a s IH]; simpl; [reflexivity|].
  rewrite IH, is_space_lower_char.
  destruct (PyStr.rstrip s); simpl; [|reflexivity].
  destruct (PyStr.is_space a); reflexivity.
Qed.

Lemma rstrip_idem (s : string) : PyStr.rstrip (PyStr.rstrip s) = PyStr.rstrip s.
Proof.
  induction s as [|a s IH]; simpl; [reflexivity|].
  destruct (PyStr.rstrip s) as [|b r] eqn:Hr.
  - destruct (PyStr.is_space a) eqn:Ha; simpl; [reflexivity|].
    rewrite Ha. reflexivity.
  - cbn [PyStr.rstrip] in *. rewrite IH. reflexivity.
Qed.

(** What [lstrip] leaves does not start with white space. *)
Lemma lstrip_head (s : string) :
  PyStr.lstrip s = ""
  \/ exists a t, PyStr.lstrip s = String a t /\ PyStr.is_space a = false.
Proof.
  induction s as [|a s IH]; simpl; [left; reflexivity|].
  destruct (PyStr.is_space a) eqn:Ha; [exact IH|].
  right. exists a, s. split; [reflexivity | exact Ha].
Qed.

Lemma rstrip_keeps_head (a : ascii) (t : string) :
  PyStr.is_space a = false ->
  exists r, PyStr.rstrip (String a t) = String a r.
Proof.
  intros Ha. simpl. destruct (PyStr.rstrip t) as [|b r].
  - rewrite Ha. exists "". reflexivity.
  - exists (String b r). reflexivity.
Qed.

Lemma strip_idem (s : string) : PyStr.strip (PyStr.strip s) = PyStr.strip s.
Proof.
  unfold PyStr.strip.
  destruct (lstrip_head s) as [-> | [a [t [-> Ha]]]]; [reflexivity|].
  destruct (rstrip_keeps_head a t Ha) as [r Hr]. rewrite Hr.
  cbn [PyStr.lstrip]. rewrite Ha. rewrite <- Hr. apply rstrip_idem.
Qed.

Lemma strip_lower (s : string) :
  PyStr.strip (PyStr.lower s) = PyStr.lower (PyStr.strip s).
Proof. unfold PyStr.strip. rewrite lstrip_lower, rstrip_lower. reflexivity. Qed.

End PyStrMore.

(** ** Further properties of the extraction *)

Section ExtractionMore.
Context {libs : ExternalLibs}.

Lemma find_absent (s sub : string) :
  str_in sub s = false -> PyStr.find s sub 0 = -1.
Proof.
  unfold str_in, PyStr.find. intros H.
  rewrite PyStrFacts.clamp_inside by (unfold PyStr.len; lia).
  change (Z.to_nat 0) with 0%nat.
  destruct (String.index 0 sub s); [discriminate | reflexivity].
Qed.

(** X8. A description in which the marker [##blocking] does not occur, once
    cleaned and put in lower case, gives the empty directive, and a task
    built from it does not block. *)
Theorem extract_without_marker :
  forall (desc cleaned : string),
    _clean_description desc = inr cleaned ->
    str_in "##blocking" (PyStr.lower cleaned) = false ->
    extract_blocking_info desc = no_blocking
    /\ forall (id : nat) (title : string) (start_time end_time : Z)
              (repetition : option string),
         does_block_anything
           (Task_init id title start_time end_time desc repetition) = false.
Proof.
  intros desc cleaned Hc Hin.
  assert (Hex : extract_blocking_info desc = no_blocking).
  { apply (extract_no_marker desc cleaned Hc). apply find_absent. exact Hin. }
  split; [exact Hex|].
  intros id ti st en rep. unfold does_block_anything, Task_init. simpl.
  rewrite Hex. reflexivity.
Qed.

(** X9. The two lists of a directive are empty together: extraction gives
    either the empty directive or two non-empty lists. So, for a task built
    from a description, the test of [does_block_anything] on both lists
    amounts to the test on either of them. *)
Theorem extracted_lists_are_empty_together :
  forall (desc : string),
    (block_apps (extract_blocking_info desc) = []
     <-> block_websites (extract_blocking_info desc) = [])
    /\ forall (id : nat) (title : string) (start_time end_time : Z)
              (repetition : option string),
         does_block_anything
           (Task_init id title start_time end_time desc repetition)
         = list_ne_nil (block_websites (extract_blocking_info desc))
         /\ does_block_anything
              (Task_init id title start_time end_time desc repetition)
            = list_ne_nil (block_apps (extract_blocking_info desc)).
Proof.
  intros desc.
  assert (Hcases :
            extract_blocking_info desc = no_blocking
            \/ (block_apps (extract_blocking_info desc) <> []
                /\ block_websites (extract_blocking_info desc) <> [])).
  { unfold extract_blocking_info, extract_try.
    destruct (_clean_description desc) as [e|cleaned]; [left; reflexivity|].
    destruct (String.eqb (important_part (PyStr.lower cleaned)) "");
      [left; reflexivity|].
    right. simpl. split; apply items_of_not_nil. }
  destruct Hcases as [Hex | [Ha Hw]].
  - split.
    + rewrite Hex. simpl. tauto.
    + intros. unfold does_block_anything, Task_init. simpl. rewrite Hex.
      split; reflexivity.
  - split.
    + split; intros H; contradiction.
    + intros. unfold does_block_anything, Task_init. simpl.
      destruct (block_apps (extract_blocking_info desc)); [contradiction|].
      destruct (block_websites (extract_blocking_info desc));
        [contradiction|].
      split; reflexivity.
Qed.

Lemma lower_char_comma (a : ascii) : PyStr.lower_char a = ","%char -> a = ","%char.
Proof.
  destruct a as [[] [] [] [] [] [] [] []]; intros H;
    first [reflexivity | discriminate H].
Qed.

Lemma lower_char_semicolon (a : ascii) :
  PyStr.lower_char a = ";"%char -> a = ";"%char.
Proof.
  destruct a as [[] [] [] [] [] [] [] []]; intros H;
    first [reflexivity | discriminate H].
Qed.

Lemma items_of_normalised (value x : string) :
  has_char ";" value = false ->
  In x (items_of value) ->
  PyStr.lower x = x /\ PyStr.strip x = x
  /\ has_char "," x = false /\ has_char ";" x = false.
Proof.
  intros Hsemi Hin. unfold items_of in Hin. apply in_map_iff in Hin.
  destruct Hin as [y [<- Hy]].
  destruct (PyStrMore.has_char_split ";" "," value y Hy) as [Hcomma Hfrom].
  split; [apply PyStrMore.lower_idem|].
  split; [rewrite PyStrMore.strip_lower, PyStrMore.strip_idem; reflexivity|].
  split.
  - destruct (has_char "," (PyStr.lower (PyStr.strip y))) eqn:H;
      [|reflexivity].
    apply (PyStrMore.has_char_lower _ _ lower_char_comma) in H.
    apply PyStrMore.has_char_strip in H. congruence.
  - destruct (has_char ";" (PyStr.lower (PyStr.strip y))) eqn:H;
      [|reflexivity].
    apply (PyStrMore.has_char_lower _ _ lower_char_semicolon) in H.
    apply PyStrMore.has_char_strip in H. apply Hfrom in H. congruence.
Qed.

Lemma value_without_semicolon (key text : string) :
  has_char ";"
    (PyStr.strip (PyStr.replace ";" "" (PyStr.replace key "" text))) = false.
Proof.
  destruct (has_char ";" (PyStr.strip _)) eqn:H; [|reflexivity].
  apply PyStrMore.has_char_strip in H.
  rewrite (PyStrMore.replace_char_gone ";" "" _ eq_refl) in H. discriminate.
Qed.

(** X10. Every item of an extracted list is in lower case, has no white
    space at either end, and holds neither a comma nor a semicolon. *)
Theorem extracted_items_are_normalised :
  forall (desc x : string),
    In x (block_apps (extract_blocking_info desc)
          ++ block_websites (extract_blocking_info desc)) ->
    PyStr.lower x = x /\ PyStr.strip x = x
    /\ has_char "," x = false /\ has_char ";" x = false.
Proof.
  intros desc x Hin. unfold extract_blocking_info, extract_try in Hin.
  destruct (_clean_description desc) as [e|cleaned]; [contradiction|].
  destruct (String.eqb (important_part (PyStr.lower cleaned)) "");
    [contradiction|].
  simpl in Hin. apply in_app_or in Hin. destruct Hin as [Hin | Hin].
  - apply (items_of_normalised _ x (value_without_semicolon _ _) Hin).
  - apply (items_of_normalised _ x (value_without_semicolon _ _) Hin).
Qed.

(** X11. The text [_clean_description] returns holds no backslash and no
    carriage return, whatever the markup parser gave. *)
Theorem clean_description_has_no_backslash :
  forall (text cleaned : string),
    _clean_description text = inr cleaned ->
    has_char "\" cleaned = false
    /\ has_char (ascii_of_nat 13) cleaned = false.
Proof.
  intros text cleaned H. unfold _clean_description in H.
  destruct (get_text text) as [e|t]; [discriminate|].
  injection H as <-. split.
  - apply PyStrMore.replace_char_gone. reflexivity.
  - destruct (has_char (ascii_of_nat 13) (PyStr.replace "\" " " _)) eqn:H;
      [|reflexivity].
    unfold PyStr.replace at 1 in H.
    apply PyStrMore.has_char_replace_from in H.
    destruct H as [H | H]; [|discriminate].
    unfold PyStr.replace at 1 in H.
    apply PyStrMore.has_char_replace_from in H.
    destruct H as [H | H]; [|discriminate].
    unfold CR in H.
    rewrite (PyStrMore.replace_char_gone (ascii_of_nat 13) "" _ eq_refl) in H.
    discriminate.
Qed.

End ExtractionMore.

(** A description that names nothing to block. *)
Lemma extract_without_marker_witness :
  extract_blocking_info (libs := plain_text_libs) "Lunch with Sam"
  = no_blocking
  /\ forall (id : nat) (title : string) (start_time end_time : Z)
            (repetition : option string),
       does_block_anything
         (Task_init (libs := plain_text_libs) id title start_time end_time
            "Lunch with Sam" repetition) = false.
Proof.
  apply (extract_without_marker (libs := plain_text_libs)
           "Lunch with Sam" "Lunch with Sam"); reflexivity.
Defined.

(** The directive of [focus_session]: its item [slack]. *)
Lemma extracted_items_are_normalised_witness :
  PyStr.lower "slack" = "slack" /\ PyStr.strip "slack" = "slack"
  /\ has_char "," "slack" = false /\ has_char ";" "slack" = false.
Proof.
  apply (extracted_items_are_normalised (libs := plain_text_libs)
           (description focus_session) "slack").
  vm_compute. left. reflexivity.
Defined.

(** A description with a line break written as backslash and n. *)
Lemma clean_description_has_no_backslash_witness :
  has_char "\" "first second" = false
  /\ has_char (ascii_of_nat 13) "first second" = false.
Proof.
  apply (clean_description_has_no_backslash (libs := plain_text_libs)
           "first\nsecond" "first second").
  reflexivity.
Defined.

(** ** Further properties of the parser *)

Section ParserMore.
Context {libs : ExternalLibs}.

Lemma occurrence_tasks_from_template (a : Task_Args) (occs : list Z) :
  forall id, Forall (from_template a) (occurrence_tasks id a occs).
Proof.
  induction occs as [|occ rest IH]; intros id; simpl; constructor.
  - unfold from_template. simpl. repeat split. lia.
  - apply IH.
Qed.

Lemma get_tasks_loop_accepted (clock : nat -> Z * Z) (l : list Task_Args) :
  forall k acc,
    Forall rule_accepted l ->
    exists tasks,
      get_tasks_loop clock k acc l = inr (acc ++ tasks)
      /\ Forall (fun t => exists a, In a l /\ from_template a t) tasks.
Proof.
  induction l as [|a rest IH]; intros k acc Hacc; simpl.
  - exists []. rewrite app_nil_r. split; [reflexivity | constructor].
  - inversion Hacc as [|? ? Ha Hrest]; subst.
    unfold rule_accepted in Ha.
    destruct (args_repetition a) as [rep|] eqn:Hrep.
    + destruct Ha as [rule Hrule]. rewrite Hrule.
      set (new := occurrence_tasks (List.length acc) a
                    (between rule (args_start_time a)
                       (_get_this_weeks_sunday (fst (clock k))
                          (snd (clock k))))).
      destruct (IH (S k) (acc ++ new) Hrest) as [tasks [Hrun Hfrom]].
      exists (new ++ tasks). split.
      * rewrite Hrun, app_assoc. reflexivity.
      * apply Forall_app. split.
        -- eapply Forall_impl;
             [|apply (occurrence_tasks_from_template a _ (List.length acc))].
           intros t Ht. exists a. split; [left; reflexivity | exact Ht].
        -- eapply Forall_impl; [|exact Hfrom].
           intros t [a' [Hin Ht]]. exists a'. split; [right|]; assumption.
    + set (new := Task_init (List.length acc) (args_title a)
                    (args_start_time a) (args_end_time a)
                    (args_description a) None).
      destruct (IH k (acc ++ [new]) Hrest) as [tasks [Hrun Hfrom]].
      exists (new :: tasks). split.
      * rewrite Hrun, <- app_assoc. reflexivity.
      * constructor.
        -- exists a. split; [left; reflexivity|].
           unfold from_template, new. simpl. rewrite Hrep. repeat split.
        -- eapply Forall_impl; [|exact Hfrom].
           intros t [a' [Hin Ht]]. exists a'. split; [right|]; assumption.
Qed.

(** A feed [get_tasks] returns on has no rule that [rrulestr] refuses. *)
Lemma get_tasks_rules_accepted :
  forall (clock : nat -> Z * Z) (task_args_list : list Task_Args)
         (tasks : list Task),
    get_tasks clock task_args_list = inr tasks ->
    Forall rule_accepted task_args_list.
Proof.
  intros clock l tasks Hrun. apply Forall_forall. intros a Hin.
  unfold rule_accepted.
  destruct (args_repetition a) as [rep|] eqn:Hrep; [|exact I].
  destruct (rrulestr rep (args_start_time a)) as [e|rule] eqn:Hrule;
    [|exists rule; reflexivity].
  exfalso.
  destruct (get_tasks_loop_malformed clock l 0 [] a e Hin)
    as [e' [a' [Hfail _]]].
  - exists rep. split; assumption.
  - unfold get_tasks in Hrun. congruence.
Qed.

(** X12. [get_tasks] returns a list of tasks exactly when [rrulestr]
    accepts the rule of every template of the feed that has one; otherwise
    it ends with an exception and returns nothing. *)
Theorem get_tasks_returns_iff_rules_accepted :
  forall (clock : nat -> Z * Z) (task_args_list : list Task_Args),
    (exists tasks, get_tasks clock task_args_list = inr tasks)
    <-> Forall rule_accepted task_args_list.
Proof.
  intros clock l. split.
  - intros [tasks Hrun]. exact (get_tasks_rules_accepted clock l tasks Hrun).
  - intros Hacc.
    destruct (get_tasks_loop_accepted clock l 0 [] Hacc) as [tasks [Hrun _]].
    exists tasks. exact Hrun.
Qed.





End ParserMore.

(** X15. [filter_task_by_today] looks at the day of the start and at the day
    of the end only: a task that started before today and ends after today
    is active now and is not kept, so the loop never blocks for it. *)
Theorem filter_drops_task_spanning_today :
  forall (now : Z) (tasks : list Task) (t : Task),
    date (start_time t) < date now ->
    date now < date (end_time t) ->
    active_at t now = true
    /\ ~ In t (filter_task_by_today now tasks).
Proof.
  intros now tasks t Hs He. unfold date, seconds_per_day in *. split.
  - unfold active_at. apply andb_true_iff. split; apply Z.leb_le.
    + destruct (Z_le_gt_dec (start_time t) now) as [H|H]; [exact H|].
      exfalso. pose proof (Z.div_le_mono now (start_time t) 86400). lia.
    + destruct (Z_le_gt_dec now (end_time t)) as [H|H]; [exact H|].
      exfalso. pose proof (Z.div_le_mono (end_time t) now 86400). lia.
  - unfold filter_task_by_today. rewrite filter_In. intros [_ H].
    unfold date, seconds_per_day in H. apply orb_true_iff in H.
    destruct H as [H | H]; apply Z.eqb_eq in H; lia.
Qed.



(** A task from day 0 to day 2, looked at on day 1. *)
Lemma filter_drops_task_spanning_today_witness :
  active_at three_day_task 100000 = true
  /\ ~ In three_day_task (filter_task_by_today 100000 [three_day_task]).
Proof.
  apply (filter_drops_task_spanning_today 100000 [three_day_task]
           three_day_task); reflexivity.
Defined.

(** ** The hosts file *)

Module HostsFacts.
Import Hosts.

Lemma append_assoc (a b c : string) :
  ((a ++ b) ++ c)%string = (a ++ (b ++ c))%string.
Proof. induction a as [|x a IH]; simpl; [|rewrite IH]; reflexivity. Qed.

Lemma append_nil_r (a : string) : (a ++ "")%string = a.
Proof. induction a as [|x a IH]; simpl; [|rewrite IH]; reflexivity. Qed.

Lemma join_app (l1 l2 : list string) :
  join (l1 ++ l2) = (join l1 ++ join l2)%string.
Proof.
  induction l1 as [|x l1 IH]; simpl; [reflexivity|].
  rewrite IH, append_assoc. reflexivity.
Qed.

(** The lines put end to end give the text back. *)
Lemma join_readlines (text : string) : join (readlines text) = text.
Proof.
  induction text as [|c rest IH]; simpl; [reflexivity|].
  destruct (Ascii.eqb c (ascii_of_nat 10)) eqn:Hc.
  - apply Ascii.eqb_eq in Hc. subst c. simpl. rewrite IH. reflexivity.
  - destruct (readlines rest) as [|line lines]; simpl in *.
    + rewrite <- IH. reflexivity.
    + rewrite IH. reflexivity.
Qed.

Lemma readlines_nil (text : string) : readlines text = [] -> text = "".
Proof.
  destruct text as [|c rest]; [reflexivity|]. simpl.
  destruct (Ascii.eqb c (ascii_of_nat 10)); [discriminate|].
  destruct (readlines rest); discriminate.
Qed.

(** A text with no line feed is one line. *)
Lemma readlines_line (line : string) :
  line <> "" -> has_char (ascii_of_nat 10) line = false ->
  readlines line = [line].
Proof.
  induction line as [|c rest IH]; intros Hne Hlf; [contradiction|].
  simpl in *. apply orb_false_iff in Hlf. destruct Hlf as [Hc Hrest].
  rewrite Hc. destruct rest as [|d rest']; [reflexivity|].
  rewrite IH; [reflexivity | discriminate | exact Hrest].
Qed.

(** A line with its line feed, then a text. *)
Lemma readlines_complete (body text : string) :
  has_char (ascii_of_nat 10) body = false ->
  readlines (body ++ LF ++ text) = (body ++ LF)%string :: readlines text.
Proof.
  change (LF ++ text)%string with (String (ascii_of_nat 10) text).
  induction body as [|c body IH]; intros Hlf; [reflexivity|].
  cbn [has_char] in Hlf. apply orb_false_iff in Hlf.
  destruct Hlf as [Hc Hrest].
  cbn [append readlines]. rewrite Hc, (IH Hrest). reflexivity.
Qed.

(** A text ended by a line feed, then a text. *)
Lemma readlines_after_LF (content text : string) :
  readlines (content ++ LF ++ text)
  = readlines (content ++ LF) ++ readlines text.
Proof.
  change (LF ++ text)%string with (String (ascii_of_nat 10) text).
  induction content as [|c content IH]; [reflexivity|].
  cbn [append readlines]. rewrite IH.
  destruct (Ascii.eqb c (ascii_of_nat 10)); [reflexivity|].
  destruct (readlines (content ++ LF)) as [|line lines] eqn:Hl;
    [|reflexivity].
  apply readlines_nil in Hl. destruct content; discriminate.
Qed.

Lemma readlines_well_cut (text : string) : well_cut (readlines text).
Proof.
  induction text as [|c rest IH]; simpl; [constructor|].
  destruct (Ascii.eqb c (ascii_of_nat 10)) eqn:Hc.
  - apply (cut_cons "" (readlines rest)); [reflexivity | exact IH].
  - destruct (readlines rest) as [|line lines].
    + constructor; [discriminate|]. simpl. rewrite Hc. reflexivity.
    + inversion IH as [|l Hne Hlf|body ls Hlf Hls]; subst.
      * constructor; [discriminate|]. simpl. rewrite Hc, Hlf. reflexivity.
      * apply (cut_cons (String c body) lines); [|exact Hls].
        simpl. rewrite Hc, Hlf. reflexivity.
Qed.

Lemma well_cut_filter (keep : string -> bool) (lines : list string) :
  well_cut lines -> well_cut (filter keep lines).
Proof.
  induction 1 as [|line Hne Hlf|body lines Hlf Hls IH]; simpl.
  - constructor.
  - destruct (keep line); constructor; assumption.
  - destruct (keep (body ++ LF)%string); [constructor; assumption | exact IH].
Qed.

(** Reading back the lines that were written gives these lines. *)
Lemma readlines_join (lines : list string) :
  well_cut lines -> readlines (join lines) = lines.
Proof.
  induction 1 as [|line Hne Hlf|body lines Hlf Hls IH]; simpl.
  - reflexivity.
  - rewrite append_nil_r. apply readlines_line; assumption.
  - rewrite append_assoc, (readlines_complete body _ Hlf), IH. reflexivity.
Qed.

Lemma fold_write_lines (keep : string -> bool) (lines : list string) :
  forall file,
    fold_left (fun file line => if keep line then (file ++ line)%string
                                else file) lines file
    = (file ++ join (filter keep lines))%string.
Proof.
  induction lines as [|line lines IH]; intros file; simpl.
  - rewrite append_nil_r. reflexivity.
  - rewrite IH. destruct (keep line); simpl; [|reflexivity].
    rewrite append_assoc. reflexivity.
Qed.

(** [unblock_website] as a choice among the lines. *)
Lemma unblock_website_lines (content : string) (sites : list string) :
  unblock_website content sites
  = join (filter (fun line => negb (names_a_site sites line))
                 (readlines content)).
Proof. unfold unblock_website. rewrite fold_write_lines. reflexivity. Qed.

Lemma readlines_unblock_website (content : string) (sites : list string) :
  readlines (unblock_website content sites)
  = filter (fun line => negb (names_a_site sites line)) (readlines content).
Proof.
  rewrite unblock_website_lines. apply readlines_join.
  apply well_cut_filter, readlines_well_cut.
Qed.

Lemma str_in_nil (s : string) : str_in "" s = true.
Proof. unfold str_in. destruct s; reflexivity. Qed.

Lemma str_in_middle (pre sub post : string) :
  str_in sub (pre ++ sub ++ post) = true.
Proof.
  destruct sub as [|c sub]; [apply str_in_nil|].
  apply PyStrMore.str_in_occurs; [discriminate|]. eauto.
Qed.

Lemma str_in_append (sub s t : string) :
  str_in sub s = true -> str_in sub (s ++ t) = true.
Proof.
  destruct sub as [|c sub]; [intros _; apply str_in_nil|].
  intros H. apply PyStrMore.str_in_occurs in H; [|discriminate].
  destruct H as [pre [post ->]].
  rewrite !append_assoc. apply str_in_middle.
Qed.

(** The empty string is a part of every line. *)
Lemma unblock_website_empty_site (content : string) (sites : list string) :
  In "" sites -> unblock_website content sites = "".
Proof.
  intros Hin. rewrite unblock_website_lines.
  induction (readlines content) as [|l ls IH]; [reflexivity|].
  simpl.
  assert (names_a_site sites l = true) as ->; [|exact IH].
  unfold names_a_site. apply existsb_exists.
  exists "". split; [exact Hin | apply str_in_nil].
Qed.

End HostsFacts.

(** X16. After [unblock_website] the lines of the hosts file are the lines
    it had that hold none of the sites, in their order; every line that
    holds a site as a part of its text is gone, whoever wrote it, and
    unblocking the same sites again changes nothing. *)
Theorem unblock_website_leaves_no_site :
  forall (content : string) (sites : list string),
    Hosts.readlines (Hosts.unblock_website content sites)
    = filter (fun line => negb (Hosts.names_a_site sites line))
             (Hosts.readlines content)
    /\ (forall line site,
           In line (Hosts.readlines (Hosts.unblock_website content sites)) ->
           In site sites -> str_in site line = false)
    /\ Hosts.unblock_website (Hosts.unblock_website content sites) sites
       = Hosts.unblock_website content sites.
Proof.
  intros content sites.
  pose proof (HostsFacts.readlines_unblock_website content sites) as Hlines.
  split; [exact Hlines|]. split.
  - intros line site Hin Hsite. rewrite Hlines in Hin.
    apply filter_In in Hin. destruct Hin as [_ Hkeep].
    apply negb_true_iff in Hkeep. unfold Hosts.names_a_site in Hkeep.
    destruct (str_in site line) eqn:Hs; [|reflexivity].
    assert (existsb (fun s => str_in s line) sites = true)
      by (apply existsb_exists; eauto).
    congruence.
  - rewrite (HostsFacts.unblock_website_lines (Hosts.unblock_website _ _)).
    rewrite Hlines.
    rewrite (HostsFacts.unblock_website_lines content).
    f_equal. clear Hlines.
    induction (Hosts.readlines content) as [|l ls IH]; [reflexivity|].
    simpl. destruct (negb (Hosts.names_a_site sites l)) eqn:Hk; simpl.
    + rewrite Hk. simpl. rewrite IH. reflexivity.
    + exact IH.
Qed.

(** X17. When the empty string is among the sites, [unblock_website]
    empties the hosts file: the empty string is a part of every line. *)
Theorem unblock_website_with_empty_site :
  forall (content : string) (sites : list string),
    In "" sites -> Hosts.unblock_website content sites = "".
Proof. exact HostsFacts.unblock_website_empty_site. Qed.

(** A hosts file of two lines loses both. *)
Lemma unblock_website_with_empty_site_witness :
  Hosts.unblock_website small_hosts [""] = "".
Proof.
  apply (unblock_website_with_empty_site small_hosts [""]).
  left. reflexivity.
Defined.

Module HostsCycle.
Import Hosts.

Lemma fold_append_entries (sites : list string) :
  forall file,
    fold_left (fun file site => (file ++ entry site)%string) sites file
    = (file ++ join (map entry sites))%string.
Proof.
  induction sites as [|s sites IH]; intros file; simpl.
  - rewrite HostsFacts.append_nil_r. reflexivity.
  - rewrite IH, HostsFacts.append_assoc. reflexivity.
Qed.

Lemma entry_line_no_LF (site : string) :
  has_char (ascii_of_nat 10) site = false ->
  has_char (ascii_of_nat 10) (entry_line site) = false.
Proof.
  intros H. unfold entry_line. rewrite !PyStrMore.has_char_append, H.
  reflexivity.
Qed.

Lemma entry_line_names (site post : string) :
  str_in site (entry_line site ++ post) = true.
Proof.
  unfold entry_line.
  replace ((redirect_ip ++ " " ++ site) ++ post)%string
    with ((redirect_ip ++ " ") ++ site ++ post)%string
    by (rewrite !HostsFacts.append_assoc; reflexivity).
  apply HostsFacts.str_in_middle.
Qed.

(** The lines the entries make, from the text of the first one on: each
    names its site. *)
Lemma entries_lines (all : list string) (rest : list string) :
  forall first,
    (forall s, In s (first :: rest) ->
               In s all /\ has_char (ascii_of_nat 10) s = false) ->
    Forall (fun line => names_a_site all line = true)
           (readlines (entry_line first ++ join (map entry rest))).
Proof.
  induction rest as [|s rest IH]; intros first Hok.
  - destruct (Hok first (or_introl eq_refl)) as [Hin Hlf].
    cbn [map join fold_right]. rewrite HostsFacts.append_nil_r.
    rewrite HostsFacts.readlines_line;
      [| unfold entry_line, redirect_ip; simpl; discriminate
       | apply entry_line_no_LF; exact Hlf].
    constructor; [|constructor].
    unfold names_a_site. apply existsb_exists. exists first.
    split; [exact Hin|].
    rewrite <- (HostsFacts.append_nil_r (entry_line first)).
    apply entry_line_names.
  - destruct (Hok first (or_introl eq_refl)) as [Hin Hlf].
    cbn [map join fold_right]. unfold entry at 1.
    fold (entry_line s). fold (join (map entry rest)).
    rewrite !HostsFacts.append_assoc.
    rewrite HostsFacts.readlines_complete by (apply entry_line_no_LF; exact Hlf).
    constructor.
    + unfold names_a_site. apply existsb_exists. exists first.
      split; [exact Hin | apply entry_line_names].
    + apply IH. intros x Hx. apply Hok. right. exact Hx.
Qed.

Lemma filter_all_kept {A : Type} (keep : A -> bool) (l : list A) :
  (forall x, In x l -> keep x = true) -> filter keep l = l.
Proof.
  induction l as [|x l IH]; intros H; simpl; [reflexivity|].
  rewrite (H x (or_introl eq_refl)), IH; [reflexivity|].
  intros y Hy. apply H. right. exact Hy.
Qed.

Lemma filter_none_kept {A : Type} (keep : A -> bool) (l : list A) :
  Forall (fun x => keep x = false) l -> filter keep l = [].
Proof.
  induction 1 as [|x l Hx _ IH]; simpl; [reflexivity|].
  rewrite Hx. exact IH.
Qed.

Lemma fold_skip_or_append (content : string) (sites : list string) :
  forall file,
    fold_left (fun file site =>
                 if str_in site content then file
                 else (file ++ entry site)%string) sites file
    = (file ++ join (map entry
                       (filter (fun site => negb (str_in site content))
                               sites)))%string.
Proof.
  induction sites as [|s sites IH]; intros file; simpl.
  - rewrite HostsFacts.append_nil_r. reflexivity.
  - rewrite IH. destruct (str_in s content); simpl; [reflexivity|].
    rewrite HostsFacts.append_assoc. reflexivity.
Qed.

Lemma entry_in_join (site : string) (written : list string) :
  In site written ->
  exists pre post, join (map entry written) = (pre ++ site ++ post)%string.
Proof.
  induction written as [|s written IH]; intros Hin; [contradiction|].
  destruct Hin as [-> | Hin]; simpl.
  - exists (LF ++ redirect_ip ++ " ")%string, (join (map entry written)).
    unfold entry. rewrite !HostsFacts.append_assoc. reflexivity.
  - destruct (IH Hin) as [pre [post Heq]].
    exists (entry s ++ pre)%string, post.
    fold (join (map entry written)).
    rewrite Heq, !HostsFacts.append_assoc. reflexivity.
Qed.

End HostsCycle.

(** X18. On Windows, blocking a list of sites and unblocking it gives the
    hosts file back with one line feed more, when the list is not empty, no
    site holds a line feed, and no line of the file, ended by a line feed,
    holds a site. *)
Theorem windows_block_then_unblock :
  forall (content : string) (sites : list string),
    sites <> [] ->
    (forall site, In site sites -> has_char (ascii_of_nat 10) site = false) ->
    (forall line site,
        In line (Hosts.readlines (content ++ Hosts.LF)) -> In site sites ->
        str_in site line = false) ->
    Hosts.unblock_website (Hosts.Windows_block_websites content sites) sites
    = (content ++ Hosts.LF)%string.
Proof.
  intros content sites Hne Hlf Hfresh.
  destruct sites as [|first rest]; [contradiction|].
  unfold Hosts.Windows_block_websites.
  rewrite HostsCycle.fold_append_entries.
  cbn [map Hosts.join fold_right]. unfold Hosts.entry at 1.
  fold (Hosts.entry_line first).
  fold (Hosts.join (map Hosts.entry rest)).
  rewrite !HostsFacts.append_assoc.
  rewrite HostsFacts.unblock_website_lines, HostsFacts.readlines_after_LF.
  rewrite filter_app.
  rewrite HostsCycle.filter_all_kept.
  - rewrite HostsCycle.filter_none_kept.
    + rewrite app_nil_r. apply HostsFacts.join_readlines.
    + eapply Forall_impl;
        [|apply (HostsCycle.entries_lines (first :: rest) rest first)].
      * intros line Hline. cbv beta in *. rewrite Hline. reflexivity.
      * intros s Hs. split; [exact Hs | apply Hlf; exact Hs].
  - intros line Hline. apply negb_true_iff.
    destruct (Hosts.names_a_site (first :: rest) line) eqn:Hn; [|reflexivity].
    unfold Hosts.names_a_site in Hn. apply existsb_exists in Hn.
    destruct Hn as [site [Hsite Hin]].
    rewrite (Hfresh line site Hline Hsite) in Hin. discriminate.
Qed.

(** The two lines of [small_hosts] and two sites. *)
Lemma windows_block_then_unblock_witness :
  Hosts.unblock_website
    (Hosts.Windows_block_websites small_hosts ["a.com"; "b.com"])
    ["a.com"; "b.com"]
  = (small_hosts ++ Hosts.LF)%string.
Proof.
  apply (windows_block_then_unblock small_hosts ["a.com"; "b.com"]).
  - discriminate.
  - intros site [<- | [<- | []]]; reflexivity.
  - intros line site Hline Hsite. vm_compute in Hline.
    destruct Hline as [<- | [<- | [<- | []]]];
      destruct Hsite as [<- | [<- | []]]; reflexivity.
Defined.

(** X19. On macOS and Linux, after [block_websites] every site of the list
    is a part of the text of the hosts file, and blocking the same list
    again writes nothing. *)
Theorem mac_block_websites_twice :
  forall (content : string) (sites : list string),
    (forall site, In site sites ->
                  str_in site (Hosts.MAC_block_websites content sites) = true)
    /\ Hosts.MAC_block_websites (Hosts.MAC_block_websites content sites) sites
       = Hosts.MAC_block_websites content sites.
Proof.
  intros content sites.
  assert (Hin : forall site, In site sites ->
            str_in site (Hosts.MAC_block_websites content sites) = true).
  { intros site Hsite. unfold Hosts.MAC_block_websites.
    rewrite HostsCycle.fold_skip_or_append.
    destruct (str_in site content) eqn:Hs.
    - apply HostsFacts.str_in_append. exact Hs.
    - destruct (HostsCycle.entry_in_join site
                  (filter (fun s => negb (str_in s content)) sites))
        as [pre [post ->]].
      + apply filter_In. split; [exact Hsite|]. rewrite Hs. reflexivity.
      + rewrite <- HostsFacts.append_assoc. apply HostsFacts.str_in_middle. }
  split; [exact Hin|].
  set (once := Hosts.MAC_block_websites content sites) in *.
  unfold Hosts.MAC_block_websites at 1.
  rewrite HostsCycle.fold_skip_or_append.
  rewrite HostsCycle.filter_none_kept.
  - simpl. apply HostsFacts.append_nil_r.
  - apply Forall_forall. intros s Hs. rewrite (Hin s Hs). reflexivity.
Qed.

(** ** The hosts file at the end of a run *)

Module HostsRun.
Import Hosts.

Lemma unblock_lines_subset (content : string) (sites : list string)
    (line : string) :
  In line (readlines (unblock_website content sites)) ->
  In line (readlines content) /\ names_a_site sites line = false.
Proof.
  rewrite HostsFacts.readlines_unblock_website. intros H.
  apply filter_In in H. destruct H as [Hin Hk].
  apply negb_true_iff in Hk. split; assumption.
Qed.

Lemma replay_app (blocker : IBlocker) (e1 e2 : list Event) (content : string) :
  replay blocker (e1 ++ e2) content
  = replay blocker e2 (replay blocker e1 content).
Proof. unfold replay. apply fold_left_app. Qed.

(** After the calls of the cleanup the lines left are lines the file had,
    and none holds a website of a task. *)
Lemma replay_cleanup_lines (blocker : IBlocker) (tasks : list Task) :
  forall content line,
    In line (readlines (replay blocker (cleanup_events tasks) content)) ->
    In line (readlines content)
    /\ forall t, In t tasks ->
                 names_a_site (block_websites (blocking_info t)) line = false.
Proof.
  induction tasks as [|t0 tasks IH]; intros content line Hin.
  - split; [exact Hin | intros t []].
  - simpl in Hin. apply IH in Hin. destruct Hin as [Hin Hrest].
    apply unblock_lines_subset in Hin. destruct Hin as [Hin H0].
    split; [exact Hin|].
    intros t [<- | Ht]; [exact H0 | apply Hrest; exact Ht].
Qed.



End HostsRun.

(** X20. When [main] returns, and the calls to the backend could open the
    hosts file, no line of the file holds a website of a task of the
    registry, on either system and whatever the file held before. *)
Theorem hosts_file_clean_when_main_returns :
  forall (env : Env) (tasks : list Task) (fuel : nat) (w' : World)
         (blocker : Hosts.IBlocker) (content : string)
         (t : Task) (site line : string),
    main env fuel tasks init_world = (Ok tt, w') ->
    In t tasks ->
    In site (block_websites (blocking_info t)) ->
    In line (Hosts.readlines (Hosts.replay blocker (trace w') content)) ->
    str_in site line = false.
Proof.
  intros env tasks fuel w' blocker content t site line Hmain Ht Hsite Hline.
  destruct (main_returns_trace env tasks fuel w' Hmain) as [before [Htr _]].
  rewrite Htr, HostsRun.replay_app in Hline.
  apply HostsRun.replay_cleanup_lines in Hline. destruct Hline as [_ Hnone].
  specialize (Hnone t Ht). unfold Hosts.names_a_site in Hnone.
  destruct (str_in site line) eqn:Hs; [|reflexivity].
  assert (existsb (fun s => str_in s line)
                  (block_websites (blocking_info t)) = true)
    by (apply existsb_exists; eauto).
  congruence.
Qed.

(** The run of [overlap_env] on Windows, from [small_hosts]: the line of
    [localhost] is left and does not hold [a.com]. *)
Lemma hosts_file_clean_when_main_returns_witness :
  Hosts.replay Hosts.Windows_Blocker
    [BlockApps ["a"]; BlockWebsites ["a.com"];
     BlockApps ["b"]; BlockWebsites ["b.com"];
     BlockApps ["a"]; BlockWebsites ["a.com"];
     UnblockWebsites ["a.com"];
     UnblockWebsites ["b.com"]; UnblockWebsites ["a.com"]]
    small_hosts
  = (small_hosts ++ Hosts.LF)%string
  /\ str_in "a.com" ("127.0.0.1 localhost" ++ Hosts.LF) = false.
Proof.
  split; [reflexivity|].
  apply (hosts_file_clean_when_main_returns overlap_env overlap_registry 10
           {| trace := [BlockApps ["a"]; BlockWebsites ["a.com"];
                        BlockApps ["b"]; BlockWebsites ["b.com"];
                        BlockApps ["a"]; BlockWebsites ["a.com"];
                        UnblockWebsites ["a.com"];
                        UnblockWebsites ["b.com"]; UnblockWebsites ["a.com"]];
              tick := 4; pc := 2 |}
           Hosts.Windows_Blocker small_hosts long_task "a.com"
           ("127.0.0.1 localhost" ++ Hosts.LF)%string).
  - reflexivity.
  - right. left. reflexivity.
  - vm_compute. left. reflexivity.
  - vm_compute. left. reflexivity.
Defined.



Section MissingKey.
Context {libs : ExternalLibs}.

(** What [find] answers: [-1], or a place where the needle fits. *)
Lemma find_range (s sub : string) (start : Z) :
  sub <> "" ->
  PyStr.find s sub start = -1
  \/ (0 <= PyStr.find s sub start
      /\ PyStr.find s sub start + PyStr.len sub <= PyStr.len s).
Proof.
  intros Hne. unfold PyStr.find.
  destruct (String.index (Z.to_nat (PyStr.clamp (PyStr.len s) start)) sub s)
    as [m|] eqn:Hidx; [right | left; reflexivity].
  pose proof (PyStrFacts.index_fits _ _ _ _ Hidx Hne).
  unfold PyStr.len. lia.
Qed.

(** The slice from [-1] to a place where a semicolon was looked for is
    empty. *)
Lemma slice_from_last (part : string) (start : Z) :
  PyStr.slice part (-1) (PyStr.find part ";" start) = "".
Proof.
  unfold PyStr.slice.
  assert (Hlen : 0 <= PyStr.len part) by (unfold PyStr.len; lia).
  replace (PyStr.clamp (PyStr.len part) (-1) <?
           PyStr.clamp (PyStr.len part) (PyStr.find part ";" start))
    with false; [reflexivity|].
  symmetry. apply Z.ltb_ge.
  destruct (find_range part ";" start) as [-> | [H0 Hfit]];
    [discriminate | lia |].
  change (PyStr.len ";") with 1 in Hfit.
  unfold PyStr.clamp. change (-1 <? 0) with true. cbv iota.
  destruct (PyStr.find part ";" start <? 0) eqn:Hneg;
    [apply Z.ltb_lt in Hneg; lia | lia].
Qed.

(** X22. In a block between the markers where the key of the websites does
    not occur, the list of websites extracted is the list of one empty
    string, and likewise for the key of the applications: a directive that
    names only one kind still has two non-empty lists, and the other one
    holds the empty string. *)
Theorem missing_key_gives_one_empty_item :
  forall (desc cleaned part : string),
    _clean_description desc = inr cleaned ->
    part = important_part (PyStr.lower cleaned) ->
    part <> "" ->
    (str_in "block_websites:" part = false ->
     block_websites (extract_blocking_info desc) = [""])
    /\ (str_in "block_apps:" part = false ->
        block_apps (extract_blocking_info desc) = [""]).
Proof.
  intros desc cleaned part Hc -> Hne.
  rewrite (extract_block desc cleaned Hc Hne). simpl. split; intros Hkey.
  - unfold desc_block_websites. rewrite (find_absent _ _ Hkey).
    rewrite slice_from_last. reflexivity.
  - unfold desc_block_apps. rewrite (find_absent _ _ Hkey).
    rewrite slice_from_last. reflexivity.
Qed.

End MissingKey.

(** The description of [apps_only_task]. *)
Lemma missing_key_gives_one_empty_item_witness :
  (str_in "block_websites:" "block_apps: mail;" = false ->
   block_websites (extract_blocking_info (libs := plain_text_libs)
                     (description apps_only_task)) = [""])
  /\ (str_in "block_apps:" "block_apps: mail;" = false ->
      block_apps (extract_blocking_info (libs := plain_text_libs)
                    (description apps_only_task)) = [""]).
Proof.
  apply (missing_key_gives_one_empty_item (libs := plain_text_libs)
           (description apps_only_task) (description apps_only_task)
           "block_apps: mail;").
  - reflexivity.
  - reflexivity.
  - discriminate.
Defined.

(** ** Containers *)

Module ContainerFacts.

(** With a bound above the number of lines, [Container.parse] returns, and
    what it leaves of the iterator is no longer than what it got. *)
Lemma Container_parse_returns :
  forall fuel name tokens,
    (List.length tokens < fuel)%nat ->
    Container_parse fuel name tokens <> None
    /\ forall items rest,
         Container_parse fuel name tokens = Some (inr (items, rest)) ->
         (List.length rest <= List.length tokens)%nat.
Proof.
  induction fuel as [|fuel IH]; intros name tokens Hlen; [lia|].
  destruct tokens as [|line rest]; simpl.
  - split; [discriminate|]. intros items r H. injection H as _ <-.
    simpl. lia.
  - simpl in Hlen.
    destruct (String.eqb (line_name line) "BEGIN").
    + destruct (IH (line_value line) rest ltac:(lia)) as [Hsome Hrest].
      destruct (Container_parse fuel (line_value line) rest)
        as [[e|[inner rest']]|]; [split; [discriminate|]; discriminate | |
                                  contradiction].
      specialize (Hrest inner rest' eq_refl).
      destruct (IH name rest' ltac:(lia)) as [Hsome2 Hrest2].
      destruct (Container_parse fuel name rest')
        as [[e|[items rest'']]|]; [split; [discriminate|]; discriminate | |
                                   contradiction].
      specialize (Hrest2 items rest'' eq_refl).
      split; [discriminate|]. intros i r H. injection H as _ <-. lia.
    + destruct (String.eqb (line_name line) "END").
      * destruct (negb (String.eqb (line_value line) name)).
        -- split; [discriminate|]. discriminate.
        -- split; [discriminate|]. intros i r H. injection H as _ <-. lia.
      * destruct (IH name rest ltac:(lia)) as [Hsome Hrest].
        destruct (Container_parse fuel name rest)
          as [[e|[items rest']]|]; [split; [discriminate|]; discriminate | |
                                    contradiction].
        specialize (Hrest items rest' eq_refl).
        split; [discriminate|]. intros i r H. injection H as _ <-. lia.
Qed.

Lemma _parse_returns :
  forall fuel tokens,
    (List.length tokens < fuel)%nat -> _parse fuel tokens <> None.
Proof.
  induction fuel as [|fuel IH]; intros tokens Hlen; [lia|].
  destruct tokens as [|line rest]; simpl; [discriminate|].
  simpl in Hlen.
  destruct (String.eqb (line_name line) "BEGIN").
  - destruct (Container_parse_returns fuel (line_value line) rest ltac:(lia))
      as [Hsome Hrest].
    destruct (Container_parse fuel (line_value line) rest)
      as [[e|[inner rest']]|]; [discriminate | | contradiction].
    specialize (Hrest inner rest' eq_refl).
    pose proof (IH rest' ltac:(lia)) as H2.
    destruct (_parse fuel rest') as [[e|res]|];
      [discriminate | discriminate | contradiction].
  - pose proof (IH rest ltac:(lia)) as H2.
    destruct (_parse fuel rest) as [[e|res]|];
      [discriminate | discriminate | contradiction].
Qed.

Lemma plain_line_names (line : ContentLine) :
  plain_line line = true ->
  String.eqb (line_name line) "BEGIN" = false
  /\ String.eqb (line_name line) "END" = false.
Proof.
  unfold plain_line. intros H. apply andb_true_iff in H.
  destruct H as [H1 H2]. apply negb_true_iff in H1, H2. auto.
Qed.

(** [Container.parse] on the lines of plain items, then the line that
    closes the container. *)
Lemma Container_parse_lines_of :
  forall fuel items name rest,
    forallb plain_item items = true ->
    (List.length (flat_map lines_of items) < fuel)%nat ->
    Container_parse fuel name (flat_map lines_of items ++ end_line name :: rest)
    = Some (inr (items, rest)).
Proof.
  induction fuel as [|fuel IH]; intros items name rest Hplain Hlen; [lia|].
  destruct items as [|[line|inner_name inner] more].
  - simpl. rewrite String.eqb_refl. reflexivity.
  - simpl in Hplain. apply andb_true_iff in Hplain.
    destruct Hplain as [Hline Hmore].
    destruct (plain_line_names line Hline) as [Hb He].
    simpl in Hlen. cbn [flat_map lines_of app Container_parse].
    rewrite Hb, He, (IH more name rest Hmore ltac:(lia)). reflexivity.
  - simpl in Hplain. apply andb_true_iff in Hplain.
    destruct Hplain as [Hinner Hmore].
    cbn [flat_map lines_of] in *.
    rewrite length_app in Hlen. cbn [List.length] in Hlen.
    rewrite length_app in Hlen. cbn [List.length] in Hlen.
    cbn [app Container_parse begin_line line_name line_value].
    simpl String.eqb. rewrite <- !app_assoc. cbn [app].
    rewrite (IH inner inner_name _ Hinner ltac:(lia)).
    rewrite (IH more name rest Hmore ltac:(lia)). reflexivity.
Qed.

Lemma _parse_lines_of :
  forall fuel items,
    forallb plain_item items = true ->
    (List.length (flat_map lines_of items) < fuel)%nat ->
    _parse fuel (flat_map lines_of items) = Some (inr items).
Proof.
  induction fuel as [|fuel IH]; intros items Hplain Hlen; [lia|].
  destruct items as [|[line|inner_name inner] more].
  - reflexivity.
  - simpl in Hplain. apply andb_true_iff in Hplain.
    destruct Hplain as [Hline Hmore].
    destruct (plain_line_names line Hline) as [Hb He].
    simpl in Hlen. cbn [flat_map lines_of app _parse].
    rewrite Hb, (IH more Hmore ltac:(lia)). reflexivity.
  - simpl in Hplain. apply andb_true_iff in Hplain.
    destruct Hplain as [Hinner Hmore].
    cbn [flat_map lines_of] in *.
    rewrite length_app in Hlen. cbn [List.length] in Hlen.
    rewrite length_app in Hlen. cbn [List.length] in Hlen.
    cbn [app _parse begin_line line_name line_value].
    simpl String.eqb. rewrite <- !app_assoc. cbn [app].
    rewrite (Container_parse_lines_of fuel inner inner_name _ Hinner
               ltac:(lia)).
    rewrite (IH more Hmore ltac:(lia)). reflexivity.
Qed.

(** Without a line named [END], [Container.parse] takes every line. *)
Lemma Container_parse_without_END :
  forall fuel name tokens,
    forallb (fun l => negb (String.eqb (line_name l) "END")) tokens = true ->
    (List.length tokens < fuel)%nat ->
    exists items, Container_parse fuel name tokens = Some (inr (items, [])).
Proof.
  induction fuel as [|fuel IH]; intros name tokens Hno Hlen; [lia|].
  destruct tokens as [|line rest]; simpl; [eauto|].
  simpl in Hno, Hlen. apply andb_true_iff in Hno. destruct Hno as [Hl Hrest].
  apply negb_true_iff in Hl. rewrite Hl.
  destruct (String.eqb (line_name line) "BEGIN").
  - destruct (IH (line_value line) rest Hrest ltac:(lia)) as [inner ->].
    destruct (IH name [] eq_refl ltac:(simpl; lia)) as [items ->]. eauto.
  - destruct (IH name rest Hrest ltac:(lia)) as [items ->]. eauto.
Qed.

Lemma Container_parse_wrong_END :
  forall fuel name other lines rest,
    forallb plain_line lines = true ->
    String.eqb other name = false ->
    (List.length lines < fuel)%nat ->
    Container_parse fuel name (lines ++ end_line other :: rest)
    = Some (inl (ParseError name other)).
Proof.
  induction fuel as [|fuel IH]; intros name other lines rest Hplain Hne Hlen;
    [lia|].
  destruct lines as [|line lines].
  - simpl. rewrite Hne. reflexivity.
  - simpl in Hplain, Hlen. apply andb_true_iff in Hplain.
    destruct Hplain as [Hline Hlines].
    destruct (plain_line_names line Hline) as [Hb He].
    cbn [app Container_parse]. rewrite Hb, He.
    rewrite (IH name other lines rest Hlines Hne ltac:(lia)). reflexivity.
Qed.

End ContainerFacts.

(** X23. [_parse] returns whatever the lines are (the bound on the lines
    read is enough), and it is the inverse of writing containers out: on
    the lines of a list of items whose lines neither open nor close a
    container, each container written as [BEGIN], its items, [END], it
    returns that list. *)
Theorem parse_lines_of_items :
  (forall tokens : list ContentLine, parse_lines tokens <> None)
  /\ forall items : list Item,
       forallb plain_item items = true ->
       parse_lines (flat_map lines_of items) = Some (inr items).
Proof.
  split.
  - intros tokens. apply ContainerFacts._parse_returns. lia.
  - intros items Hplain. apply ContainerFacts._parse_lines_of;
      [exact Hplain | lia].
Qed.

(** The lines of [toy_event], an alarm inside an event, read back. *)
Lemma parse_lines_of_items_witness :
  forallb plain_item [toy_event] = true
  /\ parse_lines (flat_map lines_of [toy_event]) = Some (inr [toy_event]).
Proof.
  split; [reflexivity|].
  apply (proj2 parse_lines_of_items [toy_event]). reflexivity.
Defined.

(** X24. [ParseError] comes from lines named [END] only. When no line is
    named [END], [_parse] returns a list of items: a container that is
    never closed is accepted and takes the lines to the end. When plain
    lines follow the opening of a container and the line that closes them
    names another container, [_parse] raises [ParseError]. *)
Theorem parse_lines_END_lines :
  (forall tokens : list ContentLine,
      forallb (fun l => negb (String.eqb (line_name l) "END")) tokens = true ->
      exists items, parse_lines tokens = Some (inr items))
  /\ forall (name other : string) (lines rest : list ContentLine),
       forallb plain_line lines = true ->
       String.eqb other name = false ->
       parse_lines (begin_line name :: lines ++ end_line other :: rest)
       = Some (inl (ParseError name other)).
Proof.
  split.
  - assert (H : forall fuel toks,
               forallb (fun l => negb (String.eqb (line_name l) "END")) toks
               = true ->
               (List.length toks < fuel)%nat ->
               exists items, _parse fuel toks = Some (inr items)).
    { induction fuel as [|fuel IH]; intros toks Hno Hlen; [lia|].
      destruct toks as [|line rest]; simpl; [eauto|].
      simpl in Hno, Hlen. apply andb_true_iff in Hno.
      destruct Hno as [_ Hrest].
      destruct (String.eqb (line_name line) "BEGIN").
      - destruct (ContainerFacts.Container_parse_without_END fuel
                    (line_value line) rest Hrest ltac:(lia)) as [inner ->].
        destruct (IH [] eq_refl ltac:(simpl; lia)) as [res ->]. eauto.
      - destruct (IH rest Hrest ltac:(lia)) as [res ->]. eauto. }
    intros tokens Hno. unfold parse_lines. apply H; [exact Hno | lia].
  - intros name other lines rest Hplain Hne. unfold parse_lines.
    cbn [List.length _parse begin_line line_name line_value].
    simpl String.eqb.
    rewrite (ContainerFacts.Container_parse_wrong_END _ name other lines rest
               Hplain Hne); [reflexivity|].
    rewrite length_app. simpl. lia.
Qed.

(** An event that is never closed, and an event closed as a calendar. *)
Lemma parse_lines_END_lines_witness :
  parse_lines [begin_line "VEVENT"; content_line "SUMMARY" "Focus"]
  = Some (inr [Box "VEVENT" [Line (content_line "SUMMARY" "Focus")]])
  /\ (exists items,
         parse_lines [begin_line "VEVENT"; content_line "SUMMARY" "Focus"]
         = Some (inr items))
  /\ parse_lines
       (begin_line "VEVENT"
        :: [content_line "SUMMARY" "Focus"] ++ end_line "VCALENDAR" :: [])
     = Some (inl (ParseError "VEVENT" "VCALENDAR")).
Proof.
  split; [reflexivity|]. split.
  - apply (proj1 parse_lines_END_lines
             [begin_line "VEVENT"; content_line "SUMMARY" "Focus"]).
    reflexivity.
  - apply (proj2 parse_lines_END_lines "VEVENT" "VCALENDAR"
             [content_line "SUMMARY" "Focus"] []); reflexivity.
Defined.

(** ** From a container to the arguments of a task *)

Section TaskArgs.
Context {ics : IcsLibs}.

(** What the loop leaves in [args]: for each key, what the last line of
    that name gives, or what [args] held. *)
Lemma gather_args_last_line :
  forall container args args',
    gather_args container args = inr args' ->
    d_title args'
    = match last_line "SUMMARY" container with
      | Some l => Some (unescape_string (line_value l))
      | None => d_title args
      end
    /\ match last_line "DTSTART" container with
       | Some l => exists d, iso_to_arrow l = inr d
                             /\ d_start_time args' = Some d
       | None => d_start_time args' = d_start_time args
       end
    /\ match last_line "DTEND" container with
       | Some l => exists d, iso_to_arrow l = inr d
                             /\ d_end_time args' = Some d
       | None => d_end_time args' = d_end_time args
       end
    /\ d_repetition args'
       = match last_line "RRULE" container with
         | Some l => Some (line_value l)
         | None => d_repetition args
         end
    /\ d_description args'
       = match last_line "DESCRIPTION" container with
         | Some l => Some (line_value l)
         | None => d_description args
         end.
Proof.
  induction container as [|[line|name items] rest IH]; intros args args' H.
  - simpl in H. injection H as <-. simpl. auto.
  - cbn [gather_args] in H. cbn [last_line].
    destruct (String.eqb (line_name line) "SUMMARY") eqn:E1.
    { apply IH in H. destruct H as (H1 & H2 & H3 & H4 & H5).
      apply String.eqb_eq in E1. rewrite E1. cbn [String.eqb Ascii.eqb Bool.eqb].
      simpl String.eqb.
      destruct (last_line "SUMMARY" rest), (last_line "DTSTART" rest),
        (last_line "DTEND" rest), (last_line "RRULE" rest),
        (last_line "DESCRIPTION" rest); simpl in *; auto. }
    destruct (String.eqb (line_name line) "DTSTART") eqn:E2.
    { destruct (iso_to_arrow line) as [e|d] eqn:Hd; [discriminate|].
      apply IH in H. destruct H as (H1 & H2 & H3 & H4 & H5).
      apply String.eqb_eq in E2. rewrite E2. simpl String.eqb.
      destruct (last_line "SUMMARY" rest), (last_line "DTSTART" rest),
        (last_line "DTEND" rest), (last_line "RRULE" rest),
        (last_line "DESCRIPTION" rest); simpl in *; eauto 10. }
    destruct (String.eqb (line_name line) "DTEND") eqn:E3.
    { destruct (iso_to_arrow line) as [e|d] eqn:Hd; [discriminate|].
      apply IH in H. destruct H as (H1 & H2 & H3 & H4 & H5).
      apply String.eqb_eq in E3. rewrite E3. simpl String.eqb.
      destruct (last_line "SUMMARY" rest), (last_line "DTSTART" rest),
        (last_line "DTEND" rest), (last_line "RRULE" rest),
        (last_line "DESCRIPTION" rest); simpl in *; eauto 10. }
    destruct (String.eqb (line_name line) "RRULE") eqn:E4.
    { apply IH in H. destruct H as (H1 & H2 & H3 & H4 & H5).
      apply String.eqb_eq in E4. rewrite E4. simpl String.eqb.
      destruct (last_line "SUMMARY" rest), (last_line "DTSTART" rest),
        (last_line "DTEND" rest), (last_line "RRULE" rest),
        (last_line "DESCRIPTION" rest); simpl in *; auto. }
    destruct (String.eqb (line_name line) "DESCRIPTION") eqn:E5.
    { apply IH in H. destruct H as (H1 & H2 & H3 & H4 & H5).
      clear E5.
      destruct (last_line "SUMMARY" rest), (last_line "DTSTART" rest),
        (last_line "DTEND" rest), (last_line "RRULE" rest),
        (last_line "DESCRIPTION" rest); simpl in *; auto. }
    apply IH in H. destruct H as (H1 & H2 & H3 & H4 & H5).
    destruct (last_line "SUMMARY" rest), (last_line "DTSTART" rest),
      (last_line "DTEND" rest), (last_line "RRULE" rest),
      (last_line "DESCRIPTION" rest); simpl in *; auto.
  - cbn [gather_args] in H. cbn [last_line]. apply IH. exact H.
Qed.

(** The loop raises only what [iso_to_arrow] raises. *)
Lemma gather_args_returns :
  forall container args,
    (forall line, In (Line line) container ->
                  line_name line = "DTSTART" \/ line_name line = "DTEND" ->
                  exists d, iso_to_arrow line = inr d) ->
    exists args', gather_args container args = inr args'.
Proof.
  induction container as [|[line|name items] rest IH]; intros args Hiso.
  - simpl. eauto.
  - cbn [gather_args].
    assert (Hrest : forall l, In (Line l) rest ->
                              line_name l = "DTSTART" \/ line_name l = "DTEND" ->
                              exists d, iso_to_arrow l = inr d)
      by (intros l Hl; apply Hiso; right; exact Hl).
    destruct (String.eqb (line_name line) "SUMMARY"); [apply IH, Hrest|].
    destruct (String.eqb (line_name line) "DTSTART") eqn:E2.
    { apply String.eqb_eq in E2.
      destruct (Hiso line (or_introl eq_refl) (or_introl E2)) as [d ->].
      apply IH, Hrest. }
    destruct (String.eqb (line_name line) "DTEND") eqn:E3.
    { apply String.eqb_eq in E3.
      destruct (Hiso line (or_introl eq_refl) (or_intror E3)) as [d ->].
      apply IH, Hrest. }
    destruct (String.eqb (line_name line) "RRULE"); [apply IH, Hrest|].
    destruct (String.eqb (line_name line) "DESCRIPTION"); apply IH, Hrest.
  - cbn [gather_args]. apply IH. intros l Hl. apply Hiso. right. exact Hl.
Qed.

Lemma last_line_In (name : string) :
  forall container l,
    last_line name container = Some l ->
    In (Line l) container /\ line_name l = name.
Proof.
  induction container as [|[line|n items] rest IH]; intros l H;
    cbn [last_line] in H.
  - discriminate.
  - destruct (last_line name rest) as [l'|] eqn:E.
    + injection H as <-. destruct (IH l' eq_refl). split; [right|]; assumption.
    + destruct (String.eqb (line_name line) name) eqn:En; [|discriminate].
      injection H as <-. apply String.eqb_eq in En.
      split; [left; reflexivity | exact En].
  - destruct (IH l H). split; [right|]; assumption.
Qed.

(** The first loop of [get_tasks] looks at the counted events only. *)
Lemma task_args_of_filter :
  forall containers,
    task_args_of containers = task_args_of (filter counted_event containers).
Proof.
  induction containers as [|[line|name content] rest IH].
  - reflexivity.
  - simpl. exact IH.
  - cbn [task_args_of filter counted_event].
    destruct (List.length content <=? 1)%nat eqn:Elen; [exact IH|].
    destruct (String.eqb name "VEVENT") eqn:Ename; [|exact IH].
    cbn [negb andb task_args_of]. rewrite Elen, Ename. cbn [negb].
    rewrite IH. reflexivity.
Qed.

End TaskArgs.

(** X25. When [iso_to_arrow] reads the [DTSTART] and [DTEND] lines of a
    container, [_container_to_task_args] raises [AttributeError] exactly
    when the container has, outside its inner containers, no [SUMMARY]
    line, no [DTSTART] line or no [DTEND] line; otherwise it returns. *)
Theorem container_to_task_args_needs_three_lines {ics : IcsLibs}
    (container : list Item) :
  (forall line, In (Line line) container ->
                line_name line = "DTSTART" \/ line_name line = "DTEND" ->
                exists d, iso_to_arrow line = inr d) ->
  (_container_to_task_args container = inl AttributeError
   <-> (last_line "SUMMARY" container = None
        \/ last_line "DTSTART" container = None
        \/ last_line "DTEND" container = None))
  /\ (_container_to_task_args container = inl AttributeError
      \/ exists task_args, _container_to_task_args container = inr task_args).
Proof.
  intros Hiso. unfold _container_to_task_args.
  destruct (gather_args_returns container no_args Hiso) as [args' Hg].
  rewrite Hg.
  destruct (gather_args_last_line container no_args args' Hg)
    as (H1 & H2 & H3 & _).
  unfold args_type.
  destruct (last_line "SUMMARY" container) as [s|];
    destruct (last_line "DTSTART" container) as [b|];
    destruct (last_line "DTEND" container) as [e|];
    simpl in H1, H2, H3;
    try (destruct H2 as (d2 & _ & H2)); try (destruct H3 as (d3 & _ & H3));
    rewrite H1, ?H2, ?H3;
    (split; [split; [intros H; try discriminate; auto
                    | intros [H|[H|H]]; try discriminate; reflexivity]
            | try (left; reflexivity); right; eauto]).
Qed.

Lemma container_to_task_args_needs_three_lines_witness :
  (@_container_to_task_args toy_ics open_ended_event = inl AttributeError
   <-> (last_line "SUMMARY" open_ended_event = None
        \/ last_line "DTSTART" open_ended_event = None
        \/ last_line "DTEND" open_ended_event = None))
  /\ (@_container_to_task_args toy_ics open_ended_event = inl AttributeError
      \/ exists task_args,
           @_container_to_task_args toy_ics open_ended_event = inr task_args).
Proof.
  apply (@container_to_task_args_needs_three_lines toy_ics open_ended_event).
  intros line _ _. eexists. reflexivity.
Defined.

(** X26. When [_container_to_task_args] returns, each argument comes from
    the last line of its name among the lines of the container itself,
    the lines of inner containers being passed over: the title is
    [unescape_string] of the value of the last [SUMMARY] line, the start
    and the end are what [iso_to_arrow] reads in the last [DTSTART] and
    [DTEND] lines, the description is the value of the last [DESCRIPTION]
    line, or the empty string without one, and the repetition is the value
    of the last [RRULE] line, or [None] without one. *)
Theorem container_to_task_args_last_line_wins {ics : IcsLibs}
    (container : list Item) (task_args : Task_Args) :
  _container_to_task_args container = inr task_args ->
  (exists l, last_line "SUMMARY" container = Some l
             /\ args_title task_args = unescape_string (line_value l))
  /\ (exists l, last_line "DTSTART" container = Some l
                /\ iso_to_arrow l = inr (args_start_time task_args))
  /\ (exists l, last_line "DTEND" container = Some l
                /\ iso_to_arrow l = inr (args_end_time task_args))
  /\ args_description task_args
     = match last_line "DESCRIPTION" container with
       | Some l => line_value l
       | None => ""
       end
  /\ args_repetition task_args
     = option_map line_value (last_line "RRULE" container).
Proof.
  unfold _container_to_task_args. intros H.
  destruct (gather_args container no_args) as [e|args'] eqn:Hg; [discriminate|].
  destruct (gather_args_last_line container no_args args' Hg)
    as (H1 & H2 & H3 & H4 & H5).
  unfold args_type in H.
  destruct (d_title args') as [title|] eqn:Et; [|discriminate].
  destruct (d_start_time args') as [st|] eqn:Es; [|discriminate].
  destruct (d_end_time args') as [en|] eqn:Ee; [|discriminate].
  injection H as <-. cbn [args_title args_start_time args_end_time
                          args_description args_repetition].
  destruct (last_line "SUMMARY" container) as [s|]; [|discriminate].
  destruct (last_line "DTSTART" container) as [b|]; [|discriminate].
  destruct (last_line "DTEND" container) as [e|]; [|discriminate].
  destruct H2 as (d2 & Hd2 & H2). destruct H3 as (d3 & Hd3 & H3).
  injection H1 as ->. injection H2 as ->. injection H3 as ->.
  rewrite H4, H5.
  split; [eauto|]. split; [eauto|]. split; [eauto|].
  split.
  - destruct (last_line "DESCRIPTION" container); reflexivity.
  - destruct (last_line "RRULE" container); reflexivity.
Qed.

Lemma container_to_task_args_last_line_wins_witness :
  @_container_to_task_args toy_ics
     [Line (content_line "SUMMARY" "Focus");
      Line (content_line "DTSTART" "2024");
      Box "VALARM" [Line (content_line "DESCRIPTION" "ring")];
      Line (content_line "DTEND" "202406");
      Line (content_line "SUMMARY" "Deep focus")]
  = inr {| args_title := "Deep focus"; args_start_time := 4;
           args_end_time := 6; args_description := "";
           args_repetition := None |}
  /\ args_title {| args_title := "Deep focus"; args_start_time := 4;
                   args_end_time := 6; args_description := "";
                   args_repetition := None |} = "Deep focus".
Proof.
  split; [reflexivity|].
  destruct (@container_to_task_args_last_line_wins toy_ics
              [Line (content_line "SUMMARY" "Focus");
               Line (content_line "DTSTART" "2024");
               Box "VALARM" [Line (content_line "DESCRIPTION" "ring")];
               Line (content_line "DTEND" "202406");
               Line (content_line "SUMMARY" "Deep focus")]
              {| args_title := "Deep focus"; args_start_time := 4;
                 args_end_time := 6; args_description := "";
                 args_repetition := None |} eq_refl)
    as [[l [Hl Ht]] _].
  injection Hl as <-. exact Ht.
Defined.

(** X27. The first loop of [get_tasks] passes over the lines of the
    calendar, the containers with at most one item and the containers not
    named [VEVENT]: it returns a list exactly when
    [_container_to_task_args] returns on every other container, and the
    list holds their arguments in the order of the calendar. *)
Theorem task_args_of_counted_events {ics : IcsLibs}
    (containers : list Item) (task_args_list : list Task_Args) :
  task_args_of containers = inr task_args_list
  <-> Forall2 (fun item task_args =>
                 exists name content,
                   item = Box name content
                   /\ _container_to_task_args content = inr task_args)
        (filter counted_event containers) task_args_list.
Proof.
  rewrite task_args_of_filter.
  assert (Hall : Forall (fun item => counted_event item = true)
                   (filter counted_event containers))
    by (apply Forall_forall; intros x Hx; apply filter_In in Hx; apply Hx).
  revert task_args_list Hall.
  induction (filter counted_event containers) as [|[line|name content] rest IH];
    intros task_args_list Hall.
  - simpl. split.
    + intros H. injection H as <-. constructor.
    + intros H. inversion H. reflexivity.
  - inversion Hall as [|? ? Hc _]. discriminate.
  - inversion Hall as [|? ? Hc Hrest]. subst.
    cbn [counted_event] in Hc. apply andb_true_iff in Hc.
    destruct Hc as [Hlen Hname]. apply negb_true_iff in Hlen.
    cbn [task_args_of]. rewrite Hlen, Hname. cbn [negb].
    split.
    + intros H.
      destruct (_container_to_task_args content) as [e|ta] eqn:Hta;
        [discriminate|].
      destruct (task_args_of rest) as [e|tl] eqn:Htl; [discriminate|].
      injection H as <-. constructor.
      * exists name, content. auto.
      * apply IH; auto.
    + intros H. inversion H as [|? ta ? tl (n & c & Heq & Hta) Htl]. subst.
      injection Heq as <- <-. rewrite Hta.
      apply IH in Htl; [|exact Hrest]. rewrite Htl. reflexivity.
Qed.

(** X28. One event is enough to lose the calendar: when
    [_container_to_task_args] raises on a [VEVENT] container of two items
    or more, [get_tasks] raises, whatever the other events are, and gives
    no task. *)
Theorem get_tasks_fails_on_one_event {libs : ExternalLibs} {ics : IcsLibs}
    (clock : nat -> Z * Z) (containers : list Item)
    (content : list Item) (e : exn) :
  In (Box "VEVENT" content) containers ->
  (2 <= List.length content)%nat ->
  _container_to_task_args content = inl e ->
  exists e', get_tasks_of_calendar clock containers = inl e'.
Proof.
  intros Hin Hlen Hraise. unfold get_tasks_of_calendar.
  assert (H : exists e', task_args_of containers = inl e').
  { induction containers as [|[line|name c] rest IH]; [contradiction| |].
    - destruct Hin as [Heq|Hin]; [discriminate|]. simpl. apply IH, Hin.
    - cbn [task_args_of].
      destruct Hin as [Heq|Hin].
      + injection Heq as -> ->.
        destruct (Nat.leb_spec (List.length content) 1); [lia|].
        simpl. rewrite Hraise. eauto.
      + destruct (List.length c <=? 1)%nat; [apply IH, Hin|].
        destruct (negb (String.eqb name "VEVENT")); [apply IH, Hin|].
        destruct (_container_to_task_args c); [eauto|].
        destruct (IH Hin) as [e' ->]. eauto. }
  destruct H as [e' ->]. eauto.
Qed.

Lemma get_tasks_fails_on_one_event_witness :
  exists e',
    @get_tasks_of_calendar plain_text_libs toy_ics (fun _ => (0, 0))
      [toy_event; Box "VEVENT" open_ended_event] = inl e'.
Proof.
  apply (@get_tasks_fails_on_one_event plain_text_libs toy_ics
           (fun _ => (0, 0)) [toy_event; Box "VEVENT" open_ended_event]
           open_ended_event AttributeError).
  - right. left. reflexivity.
  - simpl. lia.
  - reflexivity.
Defined.

(** A look at [task_args_of] on [toy_calendar]: the line, the time zone and
    the event of one item are passed over. *)
Example toy_calendar_args :
  @task_args_of toy_ics toy_calendar
  = inr [{| args_title := "Deep focus"; args_start_time := 4;
            args_end_time := 6; args_description := "";
            args_repetition := None |}].
Proof. reflexivity. Qed.

(** ** Unfolding *)

Module LinesFacts.
Import Lines.

Lemma lstrip_not_blank (s : string) :
  blank s = false ->
  exists a t, PyStr.lstrip s = String a t /\ PyStr.is_space a = false.
Proof.
  induction s as [|a s IH]; simpl; [discriminate|].
  destruct (PyStr.is_space a) eqn:Ha; simpl; [exact IH|].
  intros _. exists a, s. auto.
Qed.

(** The test [len(line.strip()) == 0] says that the line is blank. *)
Lemma strip_test (s : string) :
  (PyStr.len (PyStr.strip s) =? 0) = blank s.
Proof.
  destruct (blank s) eqn:Hb.
  - rewrite PyStrFacts.strip_blank by exact Hb. reflexivity.
  - destruct (lstrip_not_blank s Hb) as (a & t & Hl & Ha).
    unfold PyStr.strip. rewrite Hl.
    destruct (PyStrMore.rstrip_keeps_head a t Ha) as [r ->].
    unfold PyStr.len. simpl String.length. apply Z.eqb_neq. lia.
Qed.

Lemma blank_append (s t : string) :
  blank (s ++ t) = blank s && blank t.
Proof.
  induction s as [|a s IH]; simpl; [reflexivity|].
  rewrite IH, andb_assoc. reflexivity.
Qed.

Lemma rstrip_char_absent (ch : ascii) (s : string) :
  has_char ch s = false -> rstrip_char ch s = s.
Proof.
  induction s as [|a s IH]; simpl; [reflexivity|].
  intros H. apply orb_false_iff in H. destruct H as [Ha Hs].
  rewrite (IH Hs), Ha. destruct s; reflexivity.
Qed.

Lemma rstrip_char_after (ch : ascii) (s : string) :
  has_char ch s = false ->
  rstrip_char ch (s ++ String ch "") = s.
Proof.
  induction s as [|a s IH]; simpl.
  - rewrite Ascii.eqb_refl. reflexivity.
  - intros H. apply orb_false_iff in H. destruct H as [Ha Hs].
    rewrite (IH Hs), Ha. destruct s; reflexivity.
Qed.

Lemma lstrip_char_absent (ch : ascii) (s t : string) :
  has_char ch s = false -> s <> "" ->
  lstrip_char ch (s ++ t) = (s ++ t)%string.
Proof.
  destruct s as [|a s]; [congruence|]. simpl.
  intros H _. apply orb_false_iff in H. destruct H as [-> _]. reflexivity.
Qed.

(** [strip("\r")] takes the end of line away from a piece. *)
Lemma strip_char_eol (eol s : string) :
  eol = "" \/ eol = CR ->
  has_char CR_char s = false ->
  strip_char CR_char (s ++ eol) = s.
Proof.
  intros Heol Hs. unfold strip_char.
  destruct s as [|a s].
  - destruct Heol as [-> | ->]; reflexivity.
  - rewrite lstrip_char_absent by (auto; discriminate).
    destruct Heol as [-> | ->].
    + rewrite HostsFacts.append_nil_r. apply rstrip_char_absent, Hs.
    + apply rstrip_char_after, Hs.
Qed.

Lemma blank_eol (eol : string) : eol = "" \/ eol = CR -> blank eol = true.
Proof. intros [-> | ->]; reflexivity. Qed.

Lemma eqb_empty (s : string) : s <> "" -> String.eqb s "" = false.
Proof. intros H. apply String.eqb_neq. exact H. Qed.

Lemma not_blank_not_empty (s : string) : blank s = false -> s <> "".
Proof. intros H ->. discriminate. Qed.

Section Folding.
Variable eol : string.
Variable indent : ascii.
Hypothesis Heol : eol = "" \/ eol = CR.
Hypothesis Hindent : indent = " "%char \/ indent = TAB.

Lemma indent_test : Ascii.eqb indent " " || Ascii.eqb indent TAB = true.
Proof. destruct Hindent as [-> | ->]; reflexivity. Qed.

Lemma indent_space : PyStr.is_space indent = true.
Proof. destruct Hindent as [-> | ->]; reflexivity. Qed.

(** The continuations of a logical line are added to it, and yield
    nothing. *)
Lemma unfold_continuations :
  forall pieces nr rest current_nr current_line,
    current_line <> "" ->
    forallb (fun piece => negb (blank piece) && negb (has_char CR_char piece))
      pieces = true ->
    unfold_from nr
      (map (fun piece => String indent (piece ++ eol)) pieces ++ rest)
      current_nr current_line
    = unfold_from (nr + Z.of_nat (List.length pieces)) rest current_nr
        (current_line ++ Hosts.join pieces)%string.
Proof.
  induction pieces as [|piece pieces IH];
    intros nr rest current_nr current_line Hcur Hok.
  - simpl. rewrite HostsFacts.append_nil_r, Z.add_0_r. reflexivity.
  - cbn [forallb] in Hok. apply andb_true_iff in Hok.
    destruct Hok as [Hpiece Hok]. apply andb_true_iff in Hpiece.
    destruct Hpiece as [Hb Hc]. apply negb_true_iff in Hb, Hc.
    cbn [map app unfold_from].
    rewrite strip_test. cbn [blank]. rewrite indent_space, blank_append, Hb.
    cbn [andb]. rewrite (eqb_empty _ Hcur), indent_test.
    rewrite (strip_char_eol eol piece Heol Hc).
    rewrite IH; [| destruct current_line; [congruence | discriminate] | exact Hok].
    cbn [List.length Hosts.join fold_right].
    rewrite HostsFacts.append_assoc.
    replace (nr + 1 + Z.of_nat (List.length pieces))
      with (nr + Z.of_nat (S (List.length pieces))) by lia.
    reflexivity.
Qed.

Lemma unfold_folded :
  forall logicals nr current_nr current_line,
    forallb foldable logicals = true ->
    unfold_from nr (flat_map (folded eol indent) logicals)
      current_nr current_line
    = Some ((if String.eqb current_line "" then []
             else [(current_nr, current_line)])
            ++ numbered nr logicals).
Proof.
  induction logicals as [|[first pieces] logicals IH];
    intros nr current_nr current_line Hok.
  - simpl. destruct (String.eqb current_line ""); reflexivity.
  - cbn [forallb] in Hok. apply andb_true_iff in Hok.
    destruct Hok as [Hlog Hok]. unfold foldable in Hlog. cbn [fst snd] in Hlog.
    apply andb_true_iff in Hlog. destruct Hlog as [Hlog Hpieces].
    apply andb_true_iff in Hlog. destruct Hlog as [Hlog Hind].
    apply andb_true_iff in Hlog. destruct Hlog as [Hb Hc].
    apply negb_true_iff in Hb, Hc, Hind.
    pose proof (not_blank_not_empty first Hb) as Hne.
    assert (Hstep :
      unfold_from (nr + 1)
        (map (fun piece => String indent (piece ++ eol)) pieces
         ++ flat_map (folded eol indent) logicals) nr first
      = Some (numbered nr ((first, pieces) :: logicals))).
    { rewrite (unfold_continuations pieces _ _ _ _ Hne Hpieces).
      rewrite IH by exact Hok.
      replace (String.eqb (first ++ Hosts.join pieces) "") with false
        by (destruct first; [congruence | reflexivity]).
      reflexivity. }
    cbn [flat_map folded fst snd app unfold_from].
    rewrite strip_test, blank_append, Hb. cbn [andb].
    rewrite (strip_char_eol eol first Heol Hc).
    destruct (String.eqb current_line "") eqn:Hcur.
    + rewrite Hstep. reflexivity.
    + destruct first as [|a first']; [congruence|].
      cbn [append]. cbn [indented] in Hind. rewrite Hind.
      rewrite Hstep. reflexivity.
Qed.

End Folding.

(** What the loop yields from line [nr] on, with a line in hand that
    began before [nr]. *)
Lemma unfold_from_yields :
  forall physical_lines nr current_nr current_line,
    current_nr < nr ->
    exists out,
      unfold_from nr physical_lines current_nr current_line = Some out
      /\ Forall (fun y => snd y <> "") out
      /\ Forall (fun y => (fst y = current_nr /\ current_line <> "")
                          \/ nr <= fst y
                             < nr + Z.of_nat (List.length physical_lines)) out
      /\ Forall (fun y => current_nr <= fst y) out
      /\ StronglySorted Z.lt (map fst out).
Proof.
  induction physical_lines as [|line rest IH];
    intros nr current_nr current_line Hlt.
  - cbn [unfold_from].
    destruct (String.eqb current_line "") eqn:Hcur.
    + exists []. repeat split; constructor.
    + apply String.eqb_neq in Hcur.
      exists [(current_nr, current_line)].
      repeat split; repeat constructor; simpl; auto; lia.
  - cbn [unfold_from List.length]. rewrite strip_test.
    destruct (blank line) eqn:Hb.
    { destruct (IH (nr + 1) current_nr current_line ltac:(lia))
        as (out & -> & H1 & H2 & H3 & H4).
      exists out. repeat split; auto.
      eapply Forall_impl; [|exact H2]. intros y [Hy|Hy]; [left; exact Hy|].
      right. lia. }
    destruct (String.eqb current_line "") eqn:Hcur.
    { destruct (IH (nr + 1) nr (strip_char CR_char line) ltac:(lia))
        as (out & -> & H1 & H2 & H3 & H4).
      exists out. repeat split; auto.
      - eapply Forall_impl; [|exact H2]. intros y [[Hy _]|Hy]; right; lia.
      - eapply Forall_impl; [|exact H3]. intros y Hy. simpl in Hy. lia. }
    apply String.eqb_neq in Hcur.
    destruct line as [|first tail]; [discriminate|].
    destruct (Ascii.eqb first " " || Ascii.eqb first TAB).
    { destruct (IH (nr + 1) current_nr
                  (current_line ++ strip_char CR_char tail)%string ltac:(lia))
        as (out & -> & H1 & H2 & H3 & H4).
      exists out. repeat split; auto.
      eapply Forall_impl; [|exact H2].
      intros y [[Hy _]|Hy]; [left; auto | right; lia]. }
    destruct (IH (nr + 1) nr (strip_char CR_char (String first tail))
                ltac:(lia)) as (out & -> & H1 & H2 & H3 & H4).
    exists ((current_nr, current_line) :: out). repeat split.
    + constructor; [exact Hcur | exact H1].
    + constructor; [left; auto|].
      eapply Forall_impl; [|exact H2]. intros y [[Hy _]|Hy]; right; lia.
    + constructor; [simpl; lia|].
      eapply Forall_impl; [|exact H3]. intros y Hy. simpl in Hy. lia.
    + cbn [map fst]. constructor; [exact H4|].
      apply Forall_map. eapply Forall_impl; [|exact H3].
      intros y Hy. simpl in *. lia.
Qed.

End LinesFacts.

(** X29. [_unfold_lines] never fails on a list of strings: [line[0]] is
    read on lines that are not blank only, so no [IndexError]. No line it
    yields is empty, each comes with the number of a physical line, and
    the numbers go up. *)
Theorem unfold_lines_yields (physical_lines : list string) :
  exists out,
    Lines._unfold_lines physical_lines = Some out
    /\ Forall (fun y => snd y <> ""
                        /\ 0 <= fst y < Z.of_nat (List.length physical_lines))
         out
    /\ StronglySorted Z.lt (map fst out).
Proof.
  destruct (LinesFacts.unfold_from_yields physical_lines 0 (-1) ""
              ltac:(lia)) as (out & Hout & H1 & H2 & _ & H4).
  exists out. split; [exact Hout|]. split; [|exact H4].
  rewrite Forall_forall in *. intros y Hy. split; [apply H1, Hy|].
  destruct (H2 y Hy) as [[_ Hne]|Hr]; [congruence | lia].
Qed.

(** X30. [_unfold_lines] reads back what folding wrote. Take logical
    lines cut in pieces that are not blank and hold no carriage return,
    the first piece of each not beginning with a space or a tab; write
    each piece on a physical line, the continuations after a space or a
    tab, every line ended by a carriage return or by nothing. Then
    [_unfold_lines] yields the logical lines, the pieces put end to end,
    each with the number of its first physical line. *)
Theorem unfold_lines_of_folded (eol : string) (indent : ascii)
    (logicals : list (string * list string)) :
  eol = "" \/ eol = CR ->
  indent = " "%char \/ indent = Lines.TAB ->
  forallb Lines.foldable logicals = true ->
  Lines._unfold_lines (flat_map (Lines.folded eol indent) logicals)
  = Some (Lines.numbered 0 logicals).
Proof.
  intros Heol Hindent Hok. unfold Lines._unfold_lines.
  rewrite (LinesFacts.unfold_folded eol indent Heol Hindent logicals 0 (-1) ""
             Hok).
  reflexivity.
Qed.

Lemma unfold_lines_of_folded_witness :
  Lines._unfold_lines (flat_map (Lines.folded CR " ") folded_event)
  = Some [(0, "DESCRIPTION:block_apps: steam;block_websites: x.com;");
          (2, "END:VEVENT")].
Proof.
  apply (unfold_lines_of_folded CR " " folded_event).
  - right. reflexivity.
  - left. reflexivity.
  - vm_compute. reflexivity.
Defined.
